(** * Word document merger: table numbering, template application, orchestration

    A shallow embedding of [src/tableHandler.js], the template applier
    ([applyTemplate] and its helpers), [src/wordMerger.js], the [/merge]
    route of [src/index.js] and the script [src/merge-cli.js].  Markup is
    kept as the code keeps it: plain strings that are scanned with regular
    expressions and patched with [String.prototype.replace].  A package
    opened with JSZip is a finite map from part paths to part texts, the
    file system a finite map from paths to file contents; exceptions are
    results.  Text is held as its UTF-8 bytes: the patterns of the code are
    ASCII, so that searching and replacing act on the bytes as they act on
    the string.  Console output is left out.  The docx-merger library is not
    part of the sources and is a parameter of [mergeDocuments]; whether
    [fs.unlinkSync] refuses a file is a parameter of [cleanupFiles]. *)

From Stdlib Require Import String Ascii List Arith Lia Bool.
From Stdlib Require Import DecimalString DecimalNat.
From stdpp Require Import base option gmap strings.

Import ListNotations.
Local Open Scope list_scope.
Local Open Scope string_scope.

(* stdpp freezes [String.append] under [simpl]; the proofs below compute
   with strings that have a literal front. *)
Arguments String.append : simpl nomatch.

(** ** JavaScript string primitives used by the sources *)

Module JS.

(** [s.startsWith(p)]. *)
Fixpoint startsWith (p s : string) : bool :=
  match p with
  | EmptyString => true
  | String a p' =>
      match s with
      | EmptyString => false
      | String b s' => if Ascii.eqb a b then startsWith p' s' else false
      end
  end.

(** [s.slice(n)]. *)
Fixpoint drop (n : nat) (s : string) : string :=
  match n with
  | O => s
  | S k => match s with EmptyString => EmptyString | String _ t => drop k t end
  end.

(** Splits [s] around the leftmost occurrence of the literal [pat]:
    the text before it and the text after it. *)
Fixpoint splitOn (pat s : string) : option (string * string) :=
  if startsWith pat s then Some (EmptyString, drop (String.length pat) s)
  else match s with
       | EmptyString => None
       | String c t =>
           match splitOn pat t with
           | Some (b, a) => Some (String c b, a)
           | None => None
           end
       end.

(** [s.includes(pat)]. *)
Definition includes (pat s : string) : bool :=
  match splitOn pat s with Some _ => true | None => false end.

(** A regular expression of the shape [L0 X L1 X ... Ln] where every [Li] is
    a literal and every [X] is the lazy wildcard (written [[\s\S]*?] in the
    sources).  After [L0] has matched, each following literal is taken at its
    leftmost occurrence in what is left: the matcher tries the shortest gap
    first, and where the rest of the chain cannot be completed behind the
    leftmost occurrence of a literal it cannot be completed behind a later
    one, whose remainder is a part of the former.  [chainFrom] returns the
    matched text that follows [L0] and the remainder of the subject. *)
Fixpoint chainFrom (lits : list string) (s : string) : option (string * string) :=
  match lits with
  | [] => Some (EmptyString, s)
  | l :: ls =>
      match splitOn l s with
      | None => None
      | Some (gap, rest) =>
          match chainFrom ls rest with
          | None => None
          | Some (m, r) => Some (gap ++ l ++ m, r)
          end
      end
  end.

(** The match of the chain anchored at the first character of [s]. *)
Definition matchAt (l0 : string) (lits : list string) (s : string) : option string :=
  if startsWith l0 s then
    match chainFrom lits (drop (String.length l0) s) with
    | Some (m, _) => Some (l0 ++ m)
    | None => None
    end
  else None.

(** [s.match(re)] for a chain without the [g] flag: the leftmost match,
    [None] standing for [null]. *)
Fixpoint matchFirst (l0 : string) (lits : list string) (s : string) : option string :=
  match matchAt l0 lits s with
  | Some m => Some m
  | None => match s with
            | EmptyString => None
            | String _ t => matchFirst l0 lits t
            end
  end.

(** [s.match(re)] with the [g] flag: every match, left to right, the scan
    resuming behind each match.  [skip] counts the characters of the current
    match that are still to be stepped over.  The empty list stands for
    [null]: the sources test [!m || m.length === 0]. *)
Fixpoint matchAllFrom (l0 : string) (lits : list string) (skip : nat) (s : string) : list string :=
  match s with
  | EmptyString => []
  | String _ t =>
      match skip with
      | S k => matchAllFrom l0 lits k t
      | O =>
          match matchAt l0 lits s with
          | Some m => m :: matchAllFrom l0 lits (String.length m - 1) t
          | None => matchAllFrom l0 lits 0 t
          end
      end
  end.

Definition matchAll (l0 : string) (lits : list string) (s : string) : list string :=
  matchAllFrom l0 lits 0 s.

Definition isDigit (c : ascii) : bool :=
  let n := nat_of_ascii c in ((48 <=? n) && (n <=? 57))%nat.

Definition digitVal (c : ascii) : nat := nat_of_ascii c - 48.

(** The replacement-pattern expansion of [String.prototype.replace]
    (ECMAScript [GetSubstitution]): in the replacement text, [$$] stands for
    one dollar sign, [$&] for the matched text, [$`] for the text before the
    match, [$'] for the text after it, and [$n] / [$nn] for a capture when the
    pattern has that many groups; any other dollar sign is kept. *)
Fixpoint getSubstitution (matched before after : string) (captures : list string)
    (templ : string) : string :=
  match templ with
  | EmptyString => EmptyString
  | String a tl =>
      if Ascii.eqb a "$" then
        match tl with
        | EmptyString => "$"
        | String c t =>
            if Ascii.eqb c "$" then String "$" (getSubstitution matched before after captures t)
            else if Ascii.eqb c "&" then matched ++ getSubstitution matched before after captures t
            else if Ascii.eqb c "`" then before ++ getSubstitution matched before after captures t
            else if Ascii.eqb c "'" then after ++ getSubstitution matched before after captures t
            else if isDigit c then
              let one :=
                if ((1 <=? digitVal c) && (digitVal c <=? List.length captures))%nat
                then nth (digitVal c - 1) captures EmptyString
                       ++ getSubstitution matched before after captures t
                else String "$" (getSubstitution matched before after captures tl) in
              match t with
              | String d t' =>
                  if (isDigit d
                      && (1 <=? 10 * digitVal c + digitVal d)
                      && (10 * digitVal c + digitVal d <=? List.length captures))%nat
                  then nth (10 * digitVal c + digitVal d - 1) captures EmptyString
                         ++ getSubstitution matched before after captures t'
                  else one
              | EmptyString => one
              end
            else String "$" (getSubstitution matched before after captures tl)
        end
      else String a (getSubstitution matched before after captures tl)
  end.

(** Text without a dollar sign holds no replacement pattern. *)
Fixpoint noDollar (s : string) : bool :=
  match s with
  | EmptyString => true
  | String c t => negb (Ascii.eqb c "$") && noDollar t
  end.

(** [s.replace(pat, repl)] with a string pattern: only the leftmost
    occurrence is replaced, and [repl] is a replacement pattern. *)
Definition replace (s pat repl : string) : string :=
  match splitOn pat s with
  | None => s
  | Some (b, a) => b ++ getSubstitution pat b a [] repl ++ a
  end.

(** [s.replace(/lit/g, '')]: every occurrence of the literal is removed,
    left to right. *)
Fixpoint removeAllFrom (lit : string) (skip : nat) (s : string) : string :=
  match s with
  | EmptyString => EmptyString
  | String c t =>
      match skip with
      | S k => removeAllFrom lit k t
      | O => if startsWith lit s then removeAllFrom lit (String.length lit - 1) t
             else String c (removeAllFrom lit 0 t)
      end
  end.

Definition removeAll (lit s : string) : string := removeAllFrom lit 0 s.

(** [(s.match(/lit/g) || []).length]. *)
Fixpoint countFrom (lit : string) (skip : nat) (s : string) : nat :=
  match s with
  | EmptyString => 0
  | String _ t =>
      match skip with
      | S k => countFrom lit k t
      | O => if startsWith lit s then S (countFrom lit (String.length lit - 1) t)
             else countFrom lit 0 t
      end
  end.

Definition countMatches (lit s : string) : nat := countFrom lit 0 s.

(** The text of a number inside a template literal. *)
Definition numberToString (n : nat) : string :=
  NilEmpty.string_of_uint (Nat.to_uint n).

(** [!s] for a value that is a string or [null]. *)
Definition falsy (o : option string) : bool :=
  match o with
  | None => true
  | Some s => String.eqb s EmptyString
  end.

End JS.

(** ** [src/tableHandler.js] *)

Module TableHandler.

Definition REF_NUMBER_ADDED : string := "<REF_NUMBER_ADDED>".

(** The body of the serial-number run inside every rewritten paragraph. *)
Definition numberRun (serialNumber : nat) : string :=
  "<w:r><w:t>" ++ JS.numberToString serialNumber ++ "</w:t></w:r></w:p><REF_NUMBER_ADDED>".

(** [processRowFirstCell(rowXml, serialNumber)]. *)
Definition processRowFirstCell (rowXml : string) (serialNumber : nat) : string :=
  match JS.matchFirst "<w:tc>" ["</w:tc>"] rowXml with
  | None => rowXml
  | Some cell =>
      match JS.matchFirst "<w:p" ["</w:p>"] cell with
      | None =>
          (* cell.replace(/<w:tc>([\s\S]*?)/, `<w:tc>$1<w:p>...`): the lazy
             group is empty *)
          let newCell :=
            match JS.splitOn "<w:tc>" cell with
            | None => cell
            | Some (b, a) =>
                b ++ JS.getSubstitution "<w:tc>" b a [EmptyString]
                       ("<w:tc>$1<w:p>" ++ numberRun serialNumber) ++ a
            end in
          JS.replace rowXml cell newCell
      | Some paragraph =>
          let newParagraph :=
            match JS.matchFirst "<w:pPr>" ["</w:pPr>"] paragraph with
            | Some pPr =>
                (* the first argument is a string, not a regular expression:
                   '[\s\S]*?<\/w:p>' is the text [sS]*?</w:p> *)
                JS.replace paragraph (pPr ++ "[sS]*?</w:p>") (pPr ++ numberRun serialNumber)
            | None => "<w:p>" ++ numberRun serialNumber
            end in
          let newCell := JS.replace cell paragraph newParagraph in
          JS.replace rowXml cell newCell
      end
  end.

(** The test that skips a row: [rowNumber === 1 || (rowNumber % 4 === 1 && rowNumber > 1)]. *)
Definition isHeaderRow (rowNumber : nat) : bool :=
  ((rowNumber =? 1) || ((rowNumber mod 4 =? 1) && (1 <? rowNumber)))%nat.

(** What the row loop of [processTable] does with a row it has not skipped,
    on the pair [(processedTableXml, serialNumber)]. *)
Definition numberRow (row : string) (st : string * nat) : string * nat :=
  let processedRow := processRowFirstCell row (snd st) in
  if negb (String.eqb processedRow row)
  then (JS.replace (fst st) row processedRow, S (snd st))
  else st.

(** One turn of the row loop of [processTable]. *)
Definition processRow (rowIndex : nat) (row : string) (st : string * nat) : string * nat :=
  let rowNumber := rowIndex + 1 in
  if isHeaderRow rowNumber then st
  else numberRow row st.

(** The row loop, from index [rowIndex] on. *)
Fixpoint processRows (rows : list string) (rowIndex : nat) (st : string * nat) : string * nat :=
  match rows with
  | [] => st
  | row :: rest => processRows rest (S rowIndex) (processRow rowIndex row st)
  end.

(** The rows of a table: [tableXml.match(/<w:tr[\s\S]*?<\/w:tr>/g)]. *)
Definition tableRows (tableXml : string) : list string :=
  JS.matchAll "<w:tr" ["</w:tr>"] tableXml.

(** [processTable], with the final value of its local counter. *)
Definition processTableState (tableXml : string) (startSerialNumber : nat) : string * nat :=
  match tableRows tableXml with
  | [] => (tableXml, startSerialNumber)
  | rows => processRows rows 0 (tableXml, startSerialNumber)
  end.

(** [processTable(tableXml, tableIndex, startSerialNumber)]; [tableIndex] is
    only logged. *)
Definition processTable (tableXml : string) (tableIndex : nat) (startSerialNumber : nat) : string :=
  fst (processTableState tableXml startSerialNumber).

(** The tables of a document: [docXml.match(/<w:tbl>[\s\S]*?<\/w:tbl>/g)]. *)
Definition documentTables (docXml : string) : list string :=
  JS.matchAll "<w:tbl>" ["</w:tbl>"] docXml.

(** One turn of the table loop of [processTableReferences], on the pair
    [(processedXml, serialNumber)]. *)
Definition processOneTable (i : nat) (originalTable : string) (st : string * nat) : string * nat :=
  let processedTable := processTable originalTable (i + 1) (snd st) in
  let processedRows := JS.countMatches REF_NUMBER_ADDED processedTable in
  (JS.replace (fst st) originalTable (JS.removeAll REF_NUMBER_ADDED processedTable),
   snd st + processedRows).

Fixpoint processTables (tables : list string) (i : nat) (st : string * nat) : string * nat :=
  match tables with
  | [] => st
  | t :: rest => processTables rest (S i) (processOneTable i t st)
  end.

(** [processTableReferences(docXml, startNumber)]. *)
Definition processTableReferences (docXml : string) (startNumber : nat) : string :=
  match documentTables docXml with
  | [] => docXml
  | tables => fst (processTables tables 0 (docXml, startNumber))
  end.

(** The Table Numberer on the main document part: [processTablesInDocument]
    starts the counter at 1. *)
Definition numberDocument (docXml : string) : string :=
  processTableReferences docXml 1.

End TableHandler.


(** ** The template applier ([applyTemplate] and its helpers) *)

Module TemplateApplier.

(** The double-quote character, and an attribute [name="value"]. *)
Definition dq : string := String "034"%char EmptyString.

Definition attr (name value : string) : string := name ++ "=" ++ dq ++ value ++ dq.

(** A package opened with JSZip: part path to part text. *)
Abbreviation zip := (gmap string string).

(** [getZipEntryText(zip, path)]: [null] when the part is absent.  The text
    of a part is held as its UTF-8 bytes; for a part that is well-formed
    UTF-8 these are the bytes of the part. *)
Definition getZipEntryText (z : zip) (path : string) : option string := z !! path.

(** [zip.file(path, content)]. *)
Definition putFile (z : zip) (path content : string) : zip := <[path := content]> z.

Definition relsPath : string := "word/_rels/document.xml.rels".
Definition documentPath : string := "word/document.xml".

(** *** Relationship entries that point at a header or footer part *)

Fixpoint dropDigits (s : string) : string :=
  match s with
  | EmptyString => EmptyString
  | String c t => if JS.isDigit c then dropDigits t else s
  end.

(** Does [s] begin with [Target="(?:header|footer)\d+\.xml"]? *)
Definition targetAt (s : string) : bool :=
  let name := "Target=" ++ dq in
  let afterName :=
    if JS.startsWith (name ++ "header") s || JS.startsWith (name ++ "footer") s
    then Some (JS.drop (String.length (name ++ "header")) s)
    else None in
  match afterName with
  | Some (String c t) => JS.isDigit c && JS.startsWith (".xml" ++ dq) (dropDigits (String c t))
  | _ => false
  end.

(** The rest of a tag, up to and including its [>], provided the target
    pattern occurs inside it: [[^>]*(?:Target=...)[^>]*>]. *)
Fixpoint tagWithTarget (seen : bool) (s : string) : option string :=
  match s with
  | EmptyString => None
  | String c t =>
      if Ascii.eqb c ">" then (if seen then Some ">" else None)
      else match tagWithTarget (seen || targetAt s) t with
           | Some m => Some (String c m)
           | None => None
           end
  end.

(** [headerFooterRegex] anchored at the first character of [s]. *)
Definition relAt (s : string) : option string :=
  if JS.startsWith "<Relationship " s then
    match tagWithTarget false (JS.drop (String.length "<Relationship ") s) with
    | Some m => Some ("<Relationship " ++ m)
    | None => None
    end
  else None.

(** [templateRels.match(headerFooterRegex) || []]. *)
Fixpoint headerFooterRelsFrom (skip : nat) (s : string) : list string :=
  match s with
  | EmptyString => []
  | String _ t =>
      match skip with
      | S k => headerFooterRelsFrom k t
      | O =>
          match relAt s with
          | Some m => m :: headerFooterRelsFrom (String.length m - 1) t
          | None => headerFooterRelsFrom 0 t
          end
      end
  end.

Definition headerFooterRels (templateRels : string) : list string :=
  headerFooterRelsFrom 0 templateRels.

(** [list.join('')]. *)
Definition join (l : list string) : string := fold_right String.append EmptyString l.

(** The text stored by [preserveRelationships] for two readable parts. *)
Definition updatedRels (templateRels mergedRels : string) : string :=
  match headerFooterRels templateRels with
  | [] => mergedRels
  | rels => JS.replace mergedRels "</Relationships>" (join rels ++ "</Relationships>")
  end.

(** [preserveRelationships(templateZip, mergedZip)], returning the merged
    package. *)
Definition preserveRelationships (templateZip mergedZip : zip) : zip :=
  match getZipEntryText templateZip relsPath, getZipEntryText mergedZip relsPath with
  | Some templateRels, Some mergedRels =>
      if String.eqb templateRels EmptyString || String.eqb mergedRels EmptyString
      then mergedZip
      else match headerFooterRels templateRels with
           | [] => mergedZip
           | _ => putFile mergedZip relsPath (updatedRels templateRels mergedRels)
           end
  | _, _ => mergedZip
  end.

(** *** Section properties *)

(** [/<w:sectPr[^>]*>[\s\S]*?<\/w:sectPr>/g]: the opening name, the first
    [>] behind it, then the first closing tag. *)
Definition sectPrs (docXml : string) : list string :=
  JS.matchAll "<w:sectPr" [">"; "</w:sectPr>"] docXml.

(** The loop [for (const sectPr of mergedSectPrs) mergedDoc = mergedDoc.replace(sectPr, mainSectPr)]. *)
Definition replaceSections (mergedSectPrs : list string) (mainSectPr mergedDoc : string) : string :=
  fold_left (fun doc sectPr => JS.replace doc sectPr mainSectPr) mergedSectPrs mergedDoc.

(** The text stored by [updateDocumentReferences] for two readable main
    parts; [None] when the function returns before storing anything. *)
Definition updatedDocument (templateDoc mergedDoc : string) : option string :=
  match sectPrs templateDoc with
  | [] => None
  | templateSectPrs =>
      let mainSectPr := List.last templateSectPrs EmptyString in
      match sectPrs mergedDoc with
      | [] => Some (JS.replace mergedDoc "</w:body>" (mainSectPr ++ "</w:body>"))
      | mergedSectPrs => Some (replaceSections mergedSectPrs mainSectPr mergedDoc)
      end
  end.

(** [updateDocumentReferences(templateZip, mergedZip)]. *)
Definition updateDocumentReferences (templateZip mergedZip : zip) : zip :=
  match getZipEntryText templateZip documentPath, getZipEntryText mergedZip documentPath with
  | Some templateDoc, Some mergedDoc =>
      if String.eqb templateDoc EmptyString || String.eqb mergedDoc EmptyString
      then mergedZip
      else match updatedDocument templateDoc mergedDoc with
           | Some doc => putFile mergedZip documentPath doc
           | None => mergedZip
           end
  | _, _ => mergedZip
  end.

(** *** Blank first page *)

Definition pageBreak : string := "<w:br w:type=" ++ dq ++ "page" ++ dq ++ "/>".

(** [docXml.match(blankFirstPageRegex)]. *)
Definition blankFirstPage (docXml : string) : option string :=
  JS.matchFirst "<w:body>" ["<w:p>"; "<w:r>"; pageBreak; "</w:r>"; "</w:p>"] docXml.

(** The main part after [removeBlankFirstPage]. *)
Definition removeBlankFirstPageXml (docXml : string) : string :=
  match blankFirstPage docXml with
  | Some m => JS.replace docXml m "<w:body>"
  | None => docXml
  end.

(** [removeBlankFirstPage(mergedZip)]. *)
Definition removeBlankFirstPage (mergedZip : zip) : zip :=
  match getZipEntryText mergedZip documentPath with
  | None => mergedZip
  | Some docXml =>
      if String.eqb docXml EmptyString then mergedZip
      else match blankFirstPage docXml with
           | Some _ => putFile mergedZip documentPath (removeBlankFirstPageXml docXml)
           | None => mergedZip
           end
  end.

(** *** Headers, footers and styles *)

Definition isHeaderFooterPath (path : string) : bool :=
  JS.startsWith "word/header" path || JS.startsWith "word/footer" path.

(** [copyHeaderFooterFiles(templateZip, mergedZip)]: every header and footer
    part of the template is stored in the merged package. *)
Definition copyHeaderFooterFiles (templateZip mergedZip : zip) : zip :=
  filter (fun kv => isHeaderFooterPath kv.1 = true) templateZip ∪ mergedZip.

Definition filesToPreserve : list string :=
  ["word/settings.xml"; "word/styles.xml"; "word/fontTable.xml";
   "word/theme/theme1.xml"; "[Content_Types].xml"].

(** One turn of the loop of [preserveStyles]. *)
Definition preserveFile (templateZip : zip) (mergedZip : zip) (filePath : string) : zip :=
  match getZipEntryText templateZip filePath, getZipEntryText mergedZip filePath with
  | Some templateContent, Some mergedContent =>
      if String.eqb templateContent EmptyString || String.eqb mergedContent EmptyString
      then mergedZip
      else if JS.includes "theme" filePath || JS.includes "fontTable" filePath
      then putFile mergedZip filePath templateContent
      else if String.eqb filePath "word/styles.xml"
      then putFile mergedZip filePath templateContent
      else mergedZip
  | _, _ => mergedZip
  end.

(** [preserveStyles(templateZip, mergedZip)]. *)
Definition preserveStyles (templateZip mergedZip : zip) : zip :=
  fold_left (preserveFile templateZip) filesToPreserve (preserveRelationships templateZip mergedZip).

(** The package that [applyTemplate] serializes: steps 2 to 5 in order. *)
Definition templated (templateZip mergedZip : zip) : zip :=
  removeBlankFirstPage
    (updateDocumentReferences templateZip
       (preserveStyles templateZip
          (copyHeaderFooterFiles templateZip mergedZip))).

End TemplateApplier.

(** ** The file system, [applyTemplate], [processTablesInDocument] and [mergeDocuments] *)

Module WordMerger.

Import TemplateApplier.

(** What a file holds: a zip archive that JSZip can open, given by its
    parts, or bytes that are no archive. *)
Inductive fileData : Type :=
  | ZipFile (parts : gmap string string)
  | RawFile (bytes : string).

Abbreviation fileSystem := (gmap string fileData).

(** The exceptions that are raised: by the pipeline and, the last one, by
    the unlink of [cleanupFiles]. *)
Inductive error : Type :=
  | NoSuchFile (path : string)
  | NotAnArchive
  | NullPart (path : string)
  | MissingInput (message : string)
  | MergerFailed
  | UnlinkRefused (path : string).

(** A computation that either throws or returns, together with the file
    system it leaves behind. *)
Definition io (A : Type) : Type := fileSystem -> (error + A) * fileSystem.

Definition ret {A} (a : A) : io A := fun fs => (inr a, fs).
Definition throw {A} (e : error) : io A := fun fs => (inl e, fs).
Definition bind {A B} (m : io A) (k : A -> io B) : io B :=
  fun fs => match m fs with
            | (inr a, fs') => k a fs'
            | (inl e, fs') => (inl e, fs')
            end.

Notation "'let*' x ':=' m 'in' k" := (bind m (fun x => k))
  (at level 10, x name, m at level 100, k at level 200).
Notation "'run' m 'in' k" := (bind m (fun _ => k))
  (at level 10, m at level 100, k at level 200).

(** [fs.readFileSync(path)]. *)
Definition readFileSync (path : string) : io fileData :=
  fun fs => match fs !! path with
            | Some d => (inr d, fs)
            | None => (inl (NoSuchFile path), fs)
            end.

(** [fs.writeFileSync(path, data)]. *)
Definition writeFileSync (path : string) (data : fileData) : io unit :=
  fun fs => (inr tt, <[path := data]> fs).

(** [fs.existsSync(path)]. *)
Definition existsSync (path : string) : io bool :=
  fun fs => (inr (bool_decide (is_Some (fs !! path))), fs).

(** [fs.unlinkSync(path)] on a file that exists. *)
Definition unlinkSync (path : string) : io unit :=
  fun fs => (inr tt, delete path fs).

(** [JSZip.loadAsync(content)]. *)
Definition loadAsync (content : fileData) : io (gmap string string) :=
  match content with
  | ZipFile parts => ret parts
  | RawFile _ => throw NotAnArchive
  end.

(** [applyTemplate(templatePath, mergedPath, outputPath)]. *)
Definition applyTemplate (templatePath mergedPath outputPath : string) : io unit :=
  let* templateContent := readFileSync templatePath in
  let* mergedContent := readFileSync mergedPath in
  let* templateZip := loadAsync templateContent in
  let* mergedZip := loadAsync mergedContent in
  writeFileSync outputPath (ZipFile (templated templateZip mergedZip)).

(** [processTablesInDocument(outputPath)]: reading the main part of a package
    that has none raises a [TypeError].  The main part is read as text, held
    as its UTF-8 bytes as everywhere, and the numbered text is stored. *)
Definition processTablesInDocument (outputPath : string) : io unit :=
  let* documentContent := readFileSync outputPath in
  let* z := loadAsync documentContent in
  match z !! documentPath with
  | None => throw (NullPart documentPath)
  | Some documentXml =>
      let processedXml := TableHandler.processTableReferences documentXml 1 in
      writeFileSync outputPath (ZipFile (putFile z documentPath processedXml))
  end.

(** The temporary file of a merge. *)
Definition tempOutputPathOf (outputPath : string) : string := outputPath ++ ".temp".

(** The callback that [mergeDocuments] hands to [docxMerger.save]: it
    resolves with the output path or rejects with the error. *)
Definition mergeCallback (templatePath outputPath : string) (mergedBuffer : fileData) : io string :=
  let tempOutputPath := tempOutputPathOf outputPath in
  run writeFileSync tempOutputPath mergedBuffer in
  run applyTemplate templatePath tempOutputPath outputPath in
  run processTablesInDocument outputPath in
  let* present := existsSync tempOutputPath in
  run (if present then unlinkSync tempOutputPath else ret tt) in
  ret outputPath.

(** The checks of [mergeDocuments] that every document exists. *)
Fixpoint checkDocuments (documentPaths : list string) : io unit :=
  match documentPaths with
  | [] => ret tt
  | docPath :: rest =>
      let* present := existsSync docPath in
      if present then checkDocuments rest
      else throw (MissingInput ("Document file does not exist: " ++ docPath))
  end.

Fixpoint readDocuments (documentPaths : list string) : io (list fileData) :=
  match documentPaths with
  | [] => ret []
  | docPath :: rest =>
      let* d := readFileSync docPath in
      let* ds := readDocuments rest in
      ret (d :: ds)
  end.

Section MergeDocuments.

(** The docx-merger library: the buffer that [new DocxMerger({pageBreak:
    true, continuous: true}, buffers).save('nodebuffer', ...)] produces, or
    [None] when the library throws. *)
Variable docxMerger : list fileData -> option fileData.

(** [mergeDocuments(templatePath, documentPaths, outputPath)]. *)
Definition mergeDocuments (templatePath : string) (documentPaths : list string)
    (outputPath : string) : io string :=
  let* present := existsSync templatePath in
  run (if present then ret tt
       else throw (MissingInput ("Template file does not exist: " ++ templatePath))) in
  run checkDocuments documentPaths in
  let* docxBuffers := readDocuments documentPaths in
  let* templateBuffer := readFileSync templatePath in
  match docxMerger docxBuffers with
  | None => throw MergerFailed
  | Some mergedBuffer => mergeCallback templatePath outputPath mergedBuffer
  end.

End MergeDocuments.

End WordMerger.

(** ** The paths of the [/merge] route of [src/index.js] *)

Module Service.

(** [path.join(a, b, ...)] on segments that need no normalizing. *)
Definition pathJoin (segments : list string) : string :=
  match segments with
  | [] => "."
  | s :: rest => fold_left (fun acc seg => acc ++ "/" ++ seg) rest s
  end.

(** A request to [/merge]: the paths multer stored the uploads under. *)
Record request : Type := { files : list string }.

Section Route.

Variable dirname : string.

Definition templatePath (req : request) : string :=
  pathJoin [dirname; "sample"; "template.docx"].

Definition outputPath (req : request) : string :=
  pathJoin [dirname; "uploads"; "merged-document.docx"].

Definition documentPaths (req : request) : list string := files req.

End Route.

End Service.

(** ** Vocabulary of the specification *)

Module Spec.

Import TableHandler.

(** The rows of a table with their 1-based positions. *)
Definition positioned (rows : list string) : list (nat * string) :=
  combine (seq 1 (List.length rows)) rows.

(** The rows at the positions 2, 3, 4, 6, 7, 8, 10, ... *)
Definition dataRows (rows : list string) : list (nat * string) :=
  List.filter (fun kr => negb (isHeaderRow (fst kr))) (positioned rows).

(** The positions 2, 3, 4, 6, 7, 8, ... up to [R]. *)
Definition dataPositions (R : nat) : list nat :=
  List.filter (fun k => negb (isHeaderRow k)) (seq 1 R).

(** The positions of the rows of the processed table that carry the mark of
    a serial number. *)
Definition numberedPositions (tableXml : string) (start : nat) : list nat :=
  map fst
    (List.filter (fun kr => JS.includes REF_NUMBER_ADDED (snd kr))
       (positioned (tableRows (processTable tableXml 1 start)))).

(** Text without the character [<]. *)
Fixpoint noLt (s : string) : bool :=
  match s with
  | EmptyString => true
  | String c t => negb (Ascii.eqb c "<") && noLt t
  end.

(** The number of places of [s] at which the literal [lit] begins. *)
Fixpoint occurrences (lit s : string) : nat :=
  match s with
  | EmptyString => 0
  | String _ t => (if JS.startsWith lit s then 1 else 0) + occurrences lit t
  end.

End Spec.

(** ** Sample markup *)

Module Samples.

Import TemplateApplier.

(** A header row, a row whose first cell is a centred paragraph, a row with
    a plain first paragraph, a row whose only cell holds an empty
    self-closing paragraph. *)
Definition headerRow : string :=
  "<w:tr><w:tc><w:p><w:r><w:t>REF</w:t></w:r></w:p></w:tc></w:tr>".
Definition centredProperties : string :=
  "<w:pPr><w:jc " ++ attr "w:val" "center" ++ "/></w:pPr>".
Definition centredParagraph (text : string) : string :=
  "<w:p>" ++ centredProperties ++ "<w:r><w:t>" ++ text ++ "</w:t></w:r></w:p>".
Definition centredRow (text : string) : string :=
  "<w:tr><w:tc>" ++ centredParagraph text ++ "</w:tc></w:tr>".
Definition plainRow : string :=
  "<w:tr><w:tc><w:p><w:r><w:t>x</w:t></w:r></w:p></w:tc></w:tr>".
Definition emptyRow : string :=
  "<w:tr><w:tc><w:p/></w:tc></w:tr>".

(** A table whose second row holds the text [$$] in a centred first cell. *)
Definition dollarTable : string :=
  "<w:tbl>" ++ headerRow ++ centredRow "$$" ++ plainRow ++ "</w:tbl>".
Definition plainTable : string := "<w:tbl>" ++ headerRow ++ plainRow ++ "</w:tbl>".
Definition emptyTable : string := "<w:tbl>" ++ emptyRow ++ emptyRow ++ emptyRow ++ "</w:tbl>".

Definition inBody (content : string) : string :=
  "<w:document><w:body>" ++ content ++ "</w:body></w:document>".

(** A numbered first cell. *)
Definition numberedRow (n : string) : string :=
  "<w:tr><w:tc><w:p><w:r><w:t>" ++ n ++ "</w:t></w:r></w:p></w:tc></w:tr>".
Definition numberedEmptyRow (n : string) : string :=
  "<w:tr><w:tc><w:p><w:r><w:t>" ++ n ++ "</w:t></w:r></w:p><w:p/></w:tc></w:tr>".

(** A template whose section properties give the footnotes a custom number
    format written with two dollar signs, the block as [replace] stores it,
    and the one section of a merged document. *)
Definition footnoteFormat (format : string) : string :=
  "<w:sectPr><w:footnotePr><w:numFmt " ++ attr "w:val" "custom" ++ " "
    ++ attr "w:format" format ++ "/></w:footnotePr></w:sectPr>".
Definition dollarSectPr : string := footnoteFormat "$$".
Definition storedSectPr : string := footnoteFormat "$".
Definition mergedSectPr : string :=
  "<w:sectPr><w:pgSz " ++ attr "w:w" "11906" ++ "/></w:sectPr>".

(** Relationship parts: the template binds [rId1] to its header, the merged
    package binds [rId1] to its styles. *)
Definition relationship (id target : string) : string :=
  "<Relationship " ++ attr "Id" id ++ " " ++ attr "Target" target ++ "/>".
Definition templateRelsSample : string :=
  "<Relationships>" ++ relationship "rId1" "header1.xml"
                    ++ relationship "rId2" "styles.xml" ++ "</Relationships>".
Definition mergedRelsSample : string :=
  "<Relationships>" ++ relationship "rId1" "styles.xml" ++ "</Relationships>".

(** Paragraphs for the blank-first-page step. *)
Definition breakRun : string := "<w:r>" ++ pageBreak ++ "</w:r>".
Definition textPara (text : string) : string :=
  "<w:p><w:r><w:t>" ++ text ++ "</w:t></w:r></w:p>".

(** Two requests to a service installed under [/srv/app], the template
    stored there and the uploads of the two requests. *)
Definition requestA : Service.request := {| Service.files := ["uploads/1700000000000-1.docx"] |}.
Definition requestB : Service.request := {| Service.files := ["uploads/1700000000000-2.docx"] |}.
Definition serviceFiles : gmap string WordMerger.fileData :=
  {[ "/srv/app/sample/template.docx" :=
       WordMerger.ZipFile {[ "word/document.xml" := inBody "<w:sectPr></w:sectPr>" ]} ]}.
Definition uploadedFiles : gmap string WordMerger.fileData :=
  <["uploads/1700000000000-1.docx" :=
      WordMerger.ZipFile {[ "word/document.xml" := inBody (textPara "one") ]}]>
    (<["uploads/1700000000000-2.docx" :=
         WordMerger.ZipFile {[ "word/document.xml" := inBody (textPara "two") ]}]>
       serviceFiles).

(** A stand-in for docx-merger on a single document: the document is handed
    through as it is. *)
Definition handThrough (buffers : list WordMerger.fileData) : option WordMerger.fileData :=
  match buffers with
  | [b] => Some b
  | _ => None
  end.

End Samples.

(** ** A string primitive of [src/merge-cli.js] *)

Module Text.

(** [s.endsWith(suffix)]. *)
Definition endsWith (suffix s : string) : bool :=
  String.eqb (JS.drop (String.length s - String.length suffix) s) suffix.

End Text.

(** ** Well-formed UTF-8 *)

Module Utf8.

Definition between (low high : nat) (c : ascii) : bool :=
  ((low <=? nat_of_ascii c) && (nat_of_ascii c <=? high))%nat.

(** The well-formed byte sequences of UTF-8 (Unicode, table 3-7):
    [pending] holds the ranges of the bytes that the current character
    still needs. *)
Fixpoint wellFormedFrom (pending : list (nat * nat)) (s : string) : bool :=
  match s with
  | EmptyString => match pending with [] => true | _ => false end
  | String c t =>
      match pending with
      | (low, high) :: more => between low high c && wellFormedFrom more t
      | [] =>
          if between 0 127 c then wellFormedFrom [] t
          else if between 194 223 c then wellFormedFrom [(128, 191)] t
          else if between 224 224 c then wellFormedFrom [(160, 191); (128, 191)] t
          else if between 225 236 c then wellFormedFrom [(128, 191); (128, 191)] t
          else if between 237 237 c then wellFormedFrom [(128, 159); (128, 191)] t
          else if between 238 239 c then wellFormedFrom [(128, 191); (128, 191)] t
          else if between 240 240 c
          then wellFormedFrom [(144, 191); (128, 191); (128, 191)] t
          else if between 241 243 c
          then wellFormedFrom [(128, 191); (128, 191); (128, 191)] t
          else if between 244 244 c
          then wellFormedFrom [(128, 143); (128, 191); (128, 191)] t
          else false
      end
  end.

(** A part with these bytes is a text: JSZip decodes it to a string whose
    UTF-8 bytes are the bytes of the part.  (For other bytes the decoder
    puts replacement characters, and the string stored back differs from
    the part.) *)
Definition wellFormed (s : string) : bool := wellFormedFrom [] s.

End Utf8.

(** ** [cleanupFiles] of [src/wordMerger.js] *)

Module Cleanup.

Import WordMerger.

Section Unlink.

(** [fs.unlinkSync] throws for a path that it cannot remove: a folder, a
    file that the process may not delete.  The file system of the model does
    not tell these from other files, so whether the call is refused for a
    path of a file system is a parameter. *)
Variable refused : fileSystem -> string -> bool.

(** [fs.unlinkSync(filePath)] on a path that exists: the file is removed,
    or the call throws. *)
Definition unlink (filePath : string) : io unit :=
  fun fs => if refused fs filePath then (inl (UnlinkRefused filePath), fs)
            else (inr tt, delete filePath fs).

(** [try { ... } catch (error) { console.error(...) }]: an error is logged
    and the function goes on. *)
Definition logged (m : io unit) : io unit :=
  fun fs => match m fs with
            | (inl _, fs') => (inr tt, fs')
            | (inr u, fs') => (inr u, fs')
            end.

(** [cleanupFiles(filePaths)]: every path that exists is unlinked inside a
    [try]; a path that does not exist is skipped. *)
Fixpoint cleanupFiles (filePaths : list string) : io unit :=
  match filePaths with
  | [] => ret tt
  | filePath :: rest =>
      let* present := existsSync filePath in
      run (if present then logged (unlink filePath) else ret tt) in
      cleanupFiles rest
  end.

End Unlink.

End Cleanup.

(** ** The helpers of the template applier that only report *)

Module AppProperties.

Import JS.

(** The text with the given bytes. *)
Definition bytes (codes : list nat) : string :=
  fold_right (fun n s => String (ascii_of_nat n) s) EmptyString codes.

(** The line terminators of ECMAScript, which the dot of a regular
    expression does not match, in UTF-8: U+000A, U+000D, U+2028, U+2029. *)
Definition lineTerminators : list string :=
  [bytes [10]; bytes [13]; bytes [226; 128; 168]; bytes [226; 128; 169]].

(** The characters that [String.prototype.trim] strips, in UTF-8: the white
    space U+0009, U+000B, U+000C, U+0020, U+00A0, U+1680, U+2000 to U+200A,
    U+202F, U+205F, U+3000, U+FEFF and the four line terminators. *)
Definition whiteSpace : list string :=
  [bytes [9]; bytes [10]; bytes [11]; bytes [12]; bytes [13]; bytes [32];
   bytes [194; 160]; bytes [225; 154; 128];
   bytes [226; 128; 128]; bytes [226; 128; 129]; bytes [226; 128; 130];
   bytes [226; 128; 131]; bytes [226; 128; 132]; bytes [226; 128; 133];
   bytes [226; 128; 134]; bytes [226; 128; 135]; bytes [226; 128; 136];
   bytes [226; 128; 137]; bytes [226; 128; 138];
   bytes [226; 128; 168]; bytes [226; 128; 169]; bytes [226; 128; 175];
   bytes [226; 129; 159]; bytes [227; 128; 128]; bytes [239; 187; 191]].

(** Does a line terminator begin at the first byte of [s]? *)
Definition lineTerminatorAt (s : string) : bool :=
  existsb (fun l => startsWith l s) lineTerminators.

(** The number of bytes of the white space character at the front of [s];
    0 when [s] begins with none. *)
Definition whiteSpaceAt (s : string) : nat :=
  match List.filter (fun w => startsWith w s) whiteSpace with
  | w :: _ => String.length w
  | [] => 0
  end.

Fixpoint noLineTerminator (s : string) : bool :=
  match s with
  | EmptyString => true
  | String _ t => negb (lineTerminatorAt s) && noLineTerminator t
  end.

(** The capture of [/open(.*?)close/] anchored at the first character of
    [s]: the lazy [.*?] stops at the leftmost [close], and fails when a line
    terminator comes first. *)
Definition captureAt (open close s : string) : option string :=
  if startsWith open s then
    match splitOn close (drop (String.length open) s) with
    | Some (gap, _) => if noLineTerminator gap then Some gap else None
    | None => None
    end
  else None.

(** [s.match(/open(.*?)close/)]: the capture of the leftmost match. *)
Fixpoint captureFirst (open close s : string) : option string :=
  match captureAt open close s with
  | Some c => Some c
  | None => match s with
            | EmptyString => None
            | String _ t => captureFirst open close t
            end
  end.

(** The text behind the white space at the front of [s]; [skip] counts the
    bytes of the current white space character that are still to be stepped
    over. *)
Fixpoint trimStartFrom (skip : nat) (s : string) : string :=
  match s with
  | EmptyString => EmptyString
  | String _ t =>
      match skip with
      | S k => trimStartFrom k t
      | O =>
          match whiteSpaceAt s with
          | O => s
          | S k => trimStartFrom k t
          end
      end
  end.

Definition trimStart (s : string) : string := trimStartFrom 0 s.

(** Is [s] white space from its first to its last byte? *)
Fixpoint allWhiteSpaceFrom (skip : nat) (s : string) : bool :=
  match s with
  | EmptyString => (skip =? 0)%nat
  | String _ t =>
      match skip with
      | S k => allWhiteSpaceFrom k t
      | O =>
          match whiteSpaceAt s with
          | O => false
          | S k => allWhiteSpaceFrom k t
          end
      end
  end.

(** The text in front of the white space at the end of [s]. *)
Fixpoint trimEnd (s : string) : string :=
  match s with
  | EmptyString => EmptyString
  | String c t => if allWhiteSpaceFrom 0 s then EmptyString else String c (trimEnd t)
  end.

(** [s.trim()]. *)
Definition trim (s : string) : string := trimEnd (trimStart s).

(** [extractWordVersion(appXml)]; [None] is the [null] that
    [getZipEntryText] returns for a package without [docProps/app.xml]. *)
Definition extractWordVersion (appXml : option string) : string :=
  match appXml with
  | None => "Unknown"
  | Some appXml =>
      if String.eqb appXml EmptyString then "Unknown"
      else
        let appName :=
          match captureFirst "<AppName>" "</AppName>" appXml with
          | Some c => c
          | None => "Unknown"
          end in
        let appVersion :=
          match captureFirst "<AppVersion>" "</AppVersion>" appXml with
          | Some c => c
          | None => EmptyString
          end in
        trim (appName ++ " " ++ appVersion)
  end.

(** [mergeStyles(templateStyles, documentStyles)]. *)
Definition mergeStyles (templateStyles documentStyles : string) : string := templateStyles.

End AppProperties.

(** ** Vocabulary for the parts of a package *)

Module Parts.

Import TemplateApplier.

(** What [preserveFile] leaves under the path it is called for when that
    path is one of the styled parts: the template's text if both packages
    hold a non-empty text there, else what the merged package had. *)
Definition preservedPart (templateZip mergedZip : gmap string string) (filePath : string) :
    option string :=
  match templateZip !! filePath, mergedZip !! filePath with
  | Some t, Some m =>
      if String.eqb t EmptyString || String.eqb m EmptyString then Some m else Some t
  | _, _ => mergedZip !! filePath
  end.

(** The paths under which the steps of [applyTemplate] can store a text,
    header and footer parts apart. *)
Definition rewrittenPaths : list string :=
  [relsPath; documentPath; "word/styles.xml"; "word/fontTable.xml"; "word/theme/theme1.xml"].

(** The errors that [mergeDocuments] raises itself, before its callback
    runs. *)
Definition raisedByCaller (e : WordMerger.error) : bool :=
  match e with
  | WordMerger.MissingInput _ | WordMerger.MergerFailed => true
  | _ => false
  end.

End Parts.

(** ** The [/merge] route of [src/index.js] *)

Module MergeRoute.

Import WordMerger Service Cleanup.

(** What the handler sends. *)
Inductive response : Type :=
  | NoDocuments                          (* status 400, 'Please upload at least one document' *)
  | MergeError (e : error)               (* status 500, 'Error merging documents: ' + error.message *)
  | Download (path filename : string)    (* res.download(outputPath, 'merged-document.docx', ...) *)
  | DownloadError.                       (* status 500, 'Error downloading the merged file' *)

Definition status (r : response) : nat :=
  match r with
  | NoDocuments => 400
  | MergeError _ => 500
  | Download _ _ => 200
  | DownloadError => 500
  end.

Section Route.

Variable docxMerger : list fileData -> option fileData.
Variable dirname : string.
Variable refused : fileSystem -> string -> bool.

(** The handler up to its call of [res.download].  [reqFiles] is
    [req.files]: the paths of the stored uploads, or [None] for a request
    that carries no [files] at all. *)
Definition mergeHandler (reqFiles : option (list string)) : fileSystem -> response * fileSystem :=
  fun fs =>
    match reqFiles with
    | None => (NoDocuments, fs)
    | Some uploaded =>
        if (List.length uploaded <? 1)%nat then (NoDocuments, fs)
        else
          let req := {| files := uploaded |} in
          match mergeDocuments docxMerger (templatePath dirname req) (documentPaths req)
                  (outputPath dirname req) fs with
          | (inr _, fs') => (Download (outputPath dirname req) "merged-document.docx", fs')
          | (inl e, fs') => (MergeError e, fs')
          end
    end.

(** The callback of [res.download]: [err] tells whether the transfer
    failed.  It answers with an error, or cleans the uploads up. *)
Definition downloadCallback (err : bool) (uploaded : list string) :
    fileSystem -> option response * fileSystem :=
  fun fs =>
    if err then (Some DownloadError, fs)
    else (None, (cleanupFiles refused (documentPaths {| files := uploaded |}) fs).2).

(** The function that the callback schedules for 30 seconds later. *)
Definition outputCleanup (uploaded : list string) : fileSystem -> fileSystem :=
  fun fs => (cleanupFiles refused [outputPath dirname {| files := uploaded |}] fs).2.

(** A request whose download succeeds, from the upload to the timer; no
    other request runs in between. *)
Definition served (uploaded : list string) : fileSystem -> response * fileSystem :=
  fun fs =>
    match mergeHandler (Some uploaded) fs with
    | (Download p n, fs1) =>
        (Download p n, outputCleanup uploaded (downloadCallback false uploaded fs1).2)
    | other => other
    end.

End Route.

End MergeRoute.

(** ** The storage of the uploads in [src/index.js] *)

Module Upload.

(** The name that [filename] gives a stored upload:
    [Date.now() + '-' + Math.round(Math.random() * 1E9)] and the extension
    of the original name.  [now] and [random] are the two numbers and
    [extension] is what [path.extname] returns for the original name. *)
Definition filename (now random : nat) (extension : string) : string :=
  JS.numberToString now ++ "-" ++ JS.numberToString random ++ extension.

(** The test of [fileFilter] on the type that the client declares. *)
Definition fileFilter (mimetype : string) : bool :=
  String.eqb mimetype
    "application/vnd.openxmlformats-officedocument.wordprocessingml.document".

(** Text of decimal digits, and text that does not begin with one. *)
Fixpoint allDigits (s : string) : bool :=
  match s with
  | EmptyString => true
  | String c t => JS.isDigit c && allDigits t
  end.

Definition noDigitAhead (s : string) : bool :=
  match s with
  | EmptyString => true
  | String c _ => negb (JS.isDigit c)
  end.

End Upload.

(** ** [src/merge-cli.js] *)

Module MergeCli.

Import JS Text WordMerger Service.

(** The loop that validates the input files: [false] stands for
    [process.exit(1)]. *)
Fixpoint inputsValid (inputFilePaths : list string) (fs : fileSystem) : bool :=
  match inputFilePaths with
  | [] => true
  | filePath :: rest =>
      if negb (bool_decide (is_Some (fs !! filePath))) then false
      else if negb (endsWith ".docx" filePath) then false
      else inputsValid rest fs
  end.

Section Main.

Variable docxMerger : list fileData -> option fileData.
Variable dirname : string.

(** The script, from [process.argv] to the exit code of the process. *)
Definition main (argv : list string) : fileSystem -> nat * fileSystem :=
  fun fs =>
    if (List.length argv <? 4)%nat then (1, fs)
    else
      let outputFilePath := nth 2 argv EmptyString in
      let inputFilePaths := skipn 3 argv in
      if negb (inputsValid inputFilePaths fs) then (1, fs)
      else
        let templatePath := pathJoin [dirname; "sample"; "template.docx"] in
        if negb (bool_decide (is_Some (fs !! templatePath))) then (1, fs)
        else
          match mergeDocuments docxMerger templatePath inputFilePaths outputFilePath fs with
          | (inr _, fs') => (0, fs')
          | (inl _, fs') => (1, fs')
          end.

End Main.

End MergeCli.

(** ** Vocabulary for the marks of the Table Numberer *)

Module Marks.

Import TableHandler.

(** Text that ends with [>]. *)
Definition closes (s : string) : Prop := exists s0, s = s0 ++ ">".

(** Text in which [<R] occurs only as the head of a mark, every mark
    standing at the very front or right behind a [>]. *)
Inductive marked : string -> Prop :=
  | marked_last (b : string) :
      JS.includes "<R" b = false -> marked b
  | marked_more (b s : string) :
      JS.includes "<R" b = false -> b = EmptyString \/ closes b -> marked s ->
      marked (b ++ REF_NUMBER_ADDED ++ s).

(** What the proofs use of a row of a table: text without [<R] that
    begins with [<w] and ends with [>]. *)
Definition rowLike (m : string) : Prop :=
  JS.includes "<R" m = false /\ JS.startsWith "<w" m = true /\ closes m.

Definition rowOk (m : string) : Prop :=
  JS.noDollar m = true /\ rowLike m /\ JS.startsWith "<w:tr" m = true.

(** The paragraph with the number, up to its last character. *)
Definition numberParagraph (n : nat) : string :=
  "<w:r><w:t>" ++ JS.numberToString n ++ "</w:t></w:r></w:p".

End Marks.

(** ** More sample inputs *)

Module Cases.

Import TemplateApplier Samples.

(** A template and a merged package that both hold settings, styles and a
    first header. *)
Definition templatePackage : gmap string string :=
  {[ "word/settings.xml" := "<w:settings>template</w:settings>";
     "word/styles.xml" := "<w:styles>template</w:styles>";
     "word/header1.xml" := "<w:hdr>template</w:hdr>";
     "word/document.xml" := inBody "<w:sectPr></w:sectPr>" ]}.
Definition mergedPackage : gmap string string :=
  {[ "word/settings.xml" := "<w:settings>merged</w:settings>";
     "word/styles.xml" := "<w:styles>merged</w:styles>";
     "word/header1.xml" := "<w:hdr>merged</w:hdr>";
     "word/document.xml" := inBody (textPara "one") ]}.

(** The disk of the service with an upload that is no archive. *)
Definition brokenUpload : gmap string WordMerger.fileData :=
  <["uploads/1700000000000-1.docx" := WordMerger.RawFile "not a zip"]> serviceFiles.

(** The arguments of a run of the script on the first upload. *)
Definition scriptArguments : list string :=
  ["node"; "merge-cli.js"; "merged.docx"; "uploads/1700000000000-1.docx"].

(** A document with two tables of two rows each. *)
Definition twoTables : string := inBody (plainTable ++ plainTable).

(** The properties part of a package as Word writes it, and one that names
    the application the way the code looks for it. *)
Definition wordProperties : string :=
  "<Properties><Application>Microsoft Office Word</Application></Properties>".
Definition namedProperties : string :=
  "<Properties><AppName>Word</AppName><AppVersion>16.0</AppVersion></Properties>".

(** A table of an inspection form: the header row comes back as the fifth
    row, the rows between hold different texts. *)
Definition inspectionTable : string :=
  "<w:tbl>" ++ headerRow ++ numberedRow "a" ++ numberedRow "b" ++ numberedRow "c"
            ++ headerRow ++ numberedRow "d" ++ "</w:tbl>".

(** A template with one section block, and a merged document in which the
    same section block stands twice. *)
Definition sectionTemplate : string :=
  inBody (textPara "t" ++ "<w:sectPr><w:cols/></w:sectPr>").
Definition twoSections : string :=
  inBody (textPara "a" ++ mergedSectPr ++ textPara "b" ++ mergedSectPr).

(** A form as it is handed out: a header row and five rows that are still
    blank and so have one and the same text. *)
Definition blankRow : string :=
  "<w:tr><w:tc><w:p><w:r><w:t></w:t></w:r></w:p></w:tc></w:tr>".
Definition blankForm : string :=
  "<w:tbl>" ++ headerRow ++ blankRow ++ blankRow ++ blankRow ++ blankRow ++ blankRow
            ++ "</w:tbl>".

(** The Body that docx-merger makes of two documents with its page break
    between them. *)
Definition breakParagraph : string := "<w:p>" ++ breakRun ++ "</w:p>".
Definition twoDocuments : string :=
  inBody (textPara "First" ++ breakParagraph ++ textPara "Second").

(** A relationship part of a template with a header, the styles and a
    footer, and the part of a merged package. *)
Definition threeRelationships : string :=
  "<Relationships>" ++ relationship "rId1" "header1.xml"
                    ++ relationship "rId2" "styles.xml"
                    ++ relationship "rId3" "footer1.xml" ++ "</Relationships>".
Definition stylesRelationship : string :=
  "<Relationships>" ++ relationship "rId7" "styles.xml" ++ "</Relationships>".



(** No unlink is refused; and the unlink of one path is. *)
Definition neverRefused (fs : gmap string WordMerger.fileData) (path : string) : bool := false.
Definition refusedAt (locked : string) (fs : gmap string WordMerger.fileData)
    (path : string) : bool := String.eqb path locked.

End Cases.

(** ** Vocabulary for the place of a row in its table *)

Module Layout.

Import TableHandler Text Marks.

(** A table laid out as its rows, the text in front of each row and the
    text behind the last one. *)
Fixpoint weave (gaps rows : list string) (tail : string) : string :=
  match gaps, rows with
  | g :: gs, r :: rs => g ++ r ++ weave gs rs tail
  | _, _ => tail
  end.

(** The rows as the row loop hands them to the writer, each with the
    counter that the rows before it have left, and the counter at the end:
    a row at a header position is kept, any other row is given to
    [processRowFirstCell], and a row that comes back changed takes the
    number. *)
Fixpoint writeRows (rows : list string) (rowIndex : nat) (n : nat) : list string * nat :=
  match rows with
  | [] => ([], n)
  | row :: more =>
      let written :=
        if isHeaderRow (rowIndex + 1) then row else processRowFirstCell row n in
      let n' := if String.eqb written row then n else S n in
      (written :: fst (writeRows more (S rowIndex) n'), snd (writeRows more (S rowIndex) n'))
  end.

(** Can the writer put a number into the row?  It can when the row has a
    first cell and the first paragraph of that cell, if there is one, has no
    properties block, or has one that is followed by the characters the
    code looks for. *)
Definition writable (rowXml : string) : bool :=
  match JS.matchFirst "<w:tc>" ["</w:tc>"] rowXml with
  | None => false
  | Some cell =>
      match JS.matchFirst "<w:p" ["</w:p>"] cell with
      | None => true
      | Some paragraph =>
          match JS.matchFirst "<w:pPr>" ["</w:pPr>"] paragraph with
          | None => true
          | Some pPr => JS.includes (pPr ++ "[sS]*?</w:p>") paragraph
          end
      end
  end.

(** No row at a data position ends the text of a row before it (equal rows
    included): [earlier] holds the rows before [rows]. *)
Fixpoint aliasFreeFrom (rows : list string) (rowIndex : nat) (earlier : list string) : bool :=
  match rows with
  | [] => true
  | row :: more =>
      (isHeaderRow (rowIndex + 1) || forallb (fun e => negb (endsWith row e)) earlier)
      && aliasFreeFrom more (S rowIndex) (row :: earlier)
  end.

Definition aliasFree (rows : list string) : bool := aliasFreeFrom rows 0 [].

(** The first occurrence of [m] in [V ++ s] is its first occurrence in
    [s]: no occurrence of [m] begins within [V]. *)
Definition lift (V : string) (found : option (string * string)) : option (string * string) :=
  match found with
  | Some (b, a) => Some (V ++ b, a)
  | None => None
  end.

Definition skips (V m : string) : Prop :=
  forall s, JS.splitOn m (V ++ s) = lift V (JS.splitOn m s).

(** The same for what follows beginning with [<]. *)
Definition skipsBeforeTag (g m : string) : Prop :=
  forall s, JS.startsWith "<" s = true -> JS.splitOn m (g ++ s) = lift g (JS.splitOn m s).

(** The closing tag occurs in [m] at the end only. *)
Definition closedOnce (m : string) : Prop :=
  forall u v, m = u ++ "</w:tr>" ++ v -> v = EmptyString.

(** What the proofs use of a row that the row pattern has matched. *)
Definition rowFacts (m : string) : Prop :=
  rowOk m /\ closedOnce m /\ exists m0, m = m0 ++ "</w:tr>".

(** In front of the next row no row begins. *)
Definition gapBefore (g continuation : string) : Prop :=
  forall g1 g2, g = g1 ++ g2 -> g2 <> EmptyString ->
                JS.matchAt "<w:tr" ["</w:tr>"] (g2 ++ continuation) = None.

Fixpoint gapsOk (gaps rows : list string) (tail : string) : Prop :=
  match gaps, rows with
  | g :: gs, r :: rs => gapBefore g (r ++ weave gs rs tail) /\ gapsOk gs rs tail
  | [], [] => True
  | _, _ => False
  end.

(** *** Section blocks *)

(** In front of the next section block no block begins. *)
Definition gapBeforeSection (g continuation : string) : Prop :=
  forall g1 g2, g = g1 ++ g2 -> g2 <> EmptyString ->
                JS.matchAt "<w:sectPr" [">"; "</w:sectPr>"] (g2 ++ continuation) = None.

Fixpoint sectionGapsOk (gaps blocks : list string) (tail : string) : Prop :=
  match gaps, blocks with
  | g :: gs, b :: bs => gapBeforeSection g (b ++ weave gs bs tail) /\ sectionGapsOk gs bs tail
  | [], [] => True
  | _, _ => False
  end.

(** What the proofs use of a text that the section pattern has matched:
    whatever follows it, the pattern matches exactly this text at its
    start. *)
Definition blockLike (m : string) : Prop :=
  forall r, JS.matchAt "<w:sectPr" [">"; "</w:sectPr>"] (m ++ r) = Some m.

End Layout.

(** ** Vocabulary for the counter of the table loop *)

Module Tables.

Import TableHandler Layout.

(** The number of rows of a table that stand at a data position and into
    which the writer can write. *)
Definition writableRows (tableXml : string) : nat :=
  List.length (List.filter (fun kr => writable (snd kr))
                 (Spec.dataRows (tableRows tableXml))).

(** A turn of the table loop as numbering across tables is meant: the table
    is numbered from the counter it is handed, its marks are taken out, and
    the counter handed on is the one it was handed plus the number of rows
    that took a number. *)
Definition numberTable (st : string * nat) (tableXml : string) : string * nat :=
  (JS.replace (fst st) tableXml
     (JS.removeAll REF_NUMBER_ADDED (fst (processTableState tableXml (snd st)))),
   snd st + writableRows tableXml).

End Tables.

(** ** Vocabulary for the entries of a relationship part *)

Module Entries.

Import JS TemplateApplier.

(** The attributes and the end of a tag: text without [<] and [>] up to its
    last character, which is [>]. *)
Fixpoint closesTag (s : string) : bool :=
  match s with
  | EmptyString => false
  | String c t =>
      match t with
      | EmptyString => Ascii.eqb c ">"
      | _ => negb (Ascii.eqb c "<") && negb (Ascii.eqb c ">") && closesTag t
      end
  end.

(** An entry of a relationship part: [<Relationship ], attributes, [>]. *)
Definition relationshipEntry (e : string) : bool :=
  startsWith "<Relationship " e && closesTag (drop (String.length "<Relationship ") e).

(** Does the entry name a header or footer part as its target, that is,
    does the target attribute of the pattern begin somewhere in it? *)
Fixpoint namesHeaderFooter (e : string) : bool :=
  match e with
  | EmptyString => false
  | String _ t => targetAt e || namesHeaderFooter t
  end.

(** The digits and the end of a target name: the digits, [.xml] and the
    closing quote. *)
Definition digitsThenXml (u : string) : bool :=
  match u with
  | String c t => isDigit c && startsWith (".xml" ++ dq) (dropDigits (String c t))
  | EmptyString => false
  end.

End Entries.

(** * Properties *)

(** ** Facts about the string primitives *)

Section StringFacts.

Import JS.

Lemma append_nil_r (s : string) : s ++ EmptyString = s.
Proof. induction s as [|c s IH]; simpl; [reflexivity | now rewrite IH]. Qed.

Lemma append_assoc (a b c : string) : (a ++ b) ++ c = a ++ b ++ c.
Proof. induction a as [|x a IH]; simpl; [reflexivity | now rewrite IH]. Qed.

Lemma append_length (a b : string) :
  String.length (a ++ b) = String.length a + String.length b.
Proof. induction a as [|x a IH]; simpl; [reflexivity | now rewrite IH]. Qed.

Lemma append_inv_head (a b c : string) : a ++ b = a ++ c -> b = c.
Proof. induction a as [|x a IH]; simpl; intros H; [assumption | injection H; auto]. Qed.

Lemma splitOn_eq (pat s : string) :
  splitOn pat s =
  if startsWith pat s then Some (EmptyString, drop (String.length pat) s)
  else match s with
       | EmptyString => None
       | String c t =>
           match splitOn pat t with
           | Some (b, a) => Some (String c b, a)
           | None => None
           end
       end.
Proof. destruct s; reflexivity. Qed.

Lemma matchFirst_eq (l0 : string) (lits : list string) (s : string) :
  matchFirst l0 lits s =
  match matchAt l0 lits s with
  | Some m => Some m
  | None => match s with
            | EmptyString => None
            | String _ t => matchFirst l0 lits t
            end
  end.
Proof. destruct s; reflexivity. Qed.

Lemma startsWith_app (p s : string) : startsWith p (p ++ s) = true.
Proof.
  induction p as [|a p IH]; simpl; [reflexivity|].
  now rewrite Ascii.eqb_refl.
Qed.

Lemma drop_app (p s : string) : drop (String.length p) (p ++ s) = s.
Proof. induction p as [|a p IH]; simpl; auto. Qed.

Lemma startsWith_inv (p s : string) :
  startsWith p s = true -> s = p ++ drop (String.length p) s.
Proof.
  revert s; induction p as [|a p IH]; intros s H; simpl in *; [reflexivity|].
  destruct s as [|b s]; [discriminate|].
  destruct (Ascii.eqb a b) eqn:E; [|discriminate].
  apply Ascii.eqb_eq in E; subst b. f_equal. now apply IH.
Qed.

Lemma startsWith_trans (p q s : string) :
  startsWith p q = true -> startsWith q s = true -> startsWith p s = true.
Proof.
  intros Hpq Hqs.
  rewrite (startsWith_inv _ _ Hqs), (startsWith_inv _ _ Hpq), append_assoc.
  apply startsWith_app.
Qed.

(** A prefix test only looks at as many characters as the pattern has. *)
Lemma startsWith_local (p m x y : string) :
  String.length p <= String.length m ->
  startsWith p (m ++ x) = startsWith p (m ++ y).
Proof.
  revert m; induction p as [|a p IH]; intros m Hlen; simpl; [reflexivity|].
  destruct m as [|b m]; simpl in *; [lia|].
  destruct (Ascii.eqb a b); [apply IH; lia | reflexivity].
Qed.

Lemma splitOn_inv (pat s b a : string) :
  splitOn pat s = Some (b, a) -> s = b ++ pat ++ a.
Proof.
  revert b; induction s as [|c s IH]; intros b; rewrite splitOn_eq.
  - destruct (startsWith pat EmptyString) eqn:E; [|discriminate].
    intros [= <- <-]. now apply startsWith_inv.
  - destruct (startsWith pat (String c s)) eqn:E.
    + intros [= <- <-]. now apply startsWith_inv.
    + destruct (splitOn pat s) as [[b' a']|] eqn:E'; [|discriminate].
      intros [= <- <-]. simpl. f_equal. now apply IH.
Qed.

(** The split is at the leftmost occurrence: a longer pattern that begins
    with [p] and occurs where [p] was found is found at the same place. *)
Lemma splitOn_extend (p q s b a : string) :
  splitOn p s = Some (b, a) ->
  startsWith p q = true ->
  startsWith q (p ++ a) = true ->
  splitOn q s = Some (b, drop (String.length q) (p ++ a)).
Proof.
  intros Hs Hpq Hq. revert b Hs.
  induction s as [|c s IH]; intros b; rewrite splitOn_eq.
  - destruct (startsWith p EmptyString) eqn:E; [|discriminate].
    intros [= <- <-]. rewrite <- (startsWith_inv _ _ E) in Hq |- *.
    rewrite splitOn_eq, Hq. reflexivity.
  - destruct (startsWith p (String c s)) eqn:E.
    + intros [= <- <-]. rewrite <- (startsWith_inv _ _ E) in Hq |- *.
      rewrite splitOn_eq, Hq. reflexivity.
    + destruct (splitOn p s) as [[b' a']|] eqn:E'; [|discriminate].
      intros [= <- <-]. rewrite splitOn_eq.
      destruct (startsWith q (String c s)) eqn:Eq.
      * rewrite (startsWith_trans _ _ _ Hpq Eq) in E. discriminate.
      * rewrite (IH _ eq_refl). reflexivity.
Qed.

Lemma splitOn_prefix (pat s : string) :
  splitOn pat (pat ++ s) = Some (EmptyString, s).
Proof. rewrite splitOn_eq, startsWith_app, drop_app. reflexivity. Qed.

(** A pattern that occurs somewhere is found. *)
Lemma splitOn_complete (pat b a : string) :
  splitOn pat (b ++ pat ++ a) <> None.
Proof.
  induction b as [|c b IH]; simpl.
  - rewrite splitOn_prefix. congruence.
  - destruct (startsWith pat (String c (b ++ pat ++ a))); [congruence|].
    destruct (splitOn pat (b ++ pat ++ a)) as [[? ?]|]; [congruence | contradiction].
Qed.

Lemma startsWith_includes (pat s : string) :
  startsWith pat s = true -> includes pat s = true.
Proof. intros H. unfold includes. rewrite splitOn_eq, H. reflexivity. Qed.

Lemma includes_app (pat b a : string) : includes pat (b ++ pat ++ a) = true.
Proof.
  unfold includes. destruct (splitOn pat (b ++ pat ++ a)) eqn:E; [reflexivity|].
  now apply splitOn_complete in E.
Qed.

Lemma includes_inv (pat s : string) :
  includes pat s = true -> exists b a, s = b ++ pat ++ a.
Proof.
  unfold includes. destruct (splitOn pat s) as [[b a]|] eqn:E; [|discriminate].
  intros _. exists b, a. now apply splitOn_inv.
Qed.

(** Text that contains [pat] still contains it inside a larger text. *)
Lemma includes_mid (pat x s y : string) :
  includes pat s = true -> includes pat (x ++ s ++ y) = true.
Proof.
  intros H. destruct (includes_inv _ _ H) as (b & a & ->).
  replace (x ++ (b ++ pat ++ a) ++ y) with ((x ++ b) ++ pat ++ (a ++ y))
    by (rewrite !append_assoc; reflexivity).
  apply includes_app.
Qed.

Lemma chainFrom_inv (lits : list string) (s m r : string) :
  chainFrom lits s = Some (m, r) -> s = m ++ r.
Proof.
  revert s m r; induction lits as [|l ls IH]; intros s m r; simpl.
  - intros [= <- <-]. reflexivity.
  - destruct (splitOn l s) as [[gap rest]|] eqn:E; [|discriminate].
    destruct (chainFrom ls rest) as [[m' r']|] eqn:E'; [|discriminate].
    intros [= <- <-]. rewrite (splitOn_inv _ _ _ _ E), (IH _ _ _ E').
    rewrite !append_assoc. reflexivity.
Qed.

(** Every literal of a chain occurs in the text the chain matched. *)
Lemma chainFrom_includes (lits : list string) (s m r l : string) :
  chainFrom lits s = Some (m, r) -> In l lits -> includes l m = true.
Proof.
  revert s m r; induction lits as [|l' ls IH]; intros s m r; simpl; [tauto|].
  destruct (splitOn l' s) as [[gap rest]|] eqn:E; [|discriminate].
  destruct (chainFrom ls rest) as [[m' r']|] eqn:E'; [|discriminate].
  intros [= <- <-] [-> | Hin].
  - apply includes_app.
  - specialize (IH _ _ _ E' Hin).
    replace (gap ++ l' ++ m') with ((gap ++ l') ++ m' ++ EmptyString)
      by (rewrite append_nil_r, append_assoc; reflexivity).
    now apply includes_mid.
Qed.

Lemma matchAt_inv (l0 : string) (lits : list string) (s m : string) :
  matchAt l0 lits s = Some m ->
  exists m' r, m = l0 ++ m' /\ s = m ++ r /\
               chainFrom lits (drop (String.length l0) s) = Some (m', r).
Proof.
  unfold matchAt. destruct (startsWith l0 s) eqn:E; [|discriminate].
  destruct (chainFrom lits (drop (String.length l0) s)) as [[m' r]|] eqn:E'; [|discriminate].
  intros [= <-]. exists m', r. repeat split.
  rewrite (startsWith_inv _ _ E) at 1. rewrite (chainFrom_inv _ _ _ _ E'), append_assoc.
  reflexivity.
Qed.

(** The leftmost match of a chain begins at the leftmost occurrence of its
    first literal, when the rest of the chain can be completed from there. *)
Lemma matchFirst_at_split (l0 : string) (lits : list string) (s b a m r : string) :
  splitOn l0 s = Some (b, a) ->
  chainFrom lits a = Some (m, r) ->
  matchFirst l0 lits s = Some (l0 ++ m).
Proof.
  intros Hs Hc. revert b Hs.
  induction s as [|c s IH]; intros b; rewrite splitOn_eq, matchFirst_eq; unfold matchAt.
  - destruct (startsWith l0 EmptyString) eqn:E; [|discriminate].
    intros [= <- <-]. now rewrite Hc.
  - destruct (startsWith l0 (String c s)) eqn:E.
    + intros [= <- <-]. now rewrite Hc.
    + destruct (splitOn l0 s) as [[b' a']|] eqn:E'; [|discriminate].
      intros [= <- <-]. now apply (IH b').
Qed.

(** A chain that matches somewhere has all its literals in the subject. *)
Lemma matchFirst_includes (l0 : string) (lits : list string) (s m l : string) :
  matchFirst l0 lits s = Some m -> In l lits -> includes l s = true.
Proof.
  intros H Hin. induction s as [|c s IH]; rewrite matchFirst_eq in H.
  - destruct (matchAt l0 lits EmptyString) as [m0|] eqn:E; [|discriminate].
    destruct (matchAt_inv _ _ _ _ E) as (m' & r & -> & Hs & Hc).
    rewrite Hs.
    pose proof (chainFrom_includes _ _ _ _ _ Hc Hin) as Hi.
    rewrite append_assoc. apply (includes_mid l l0 m' r Hi).
  - destruct (matchAt l0 lits (String c s)) as [m0|] eqn:E.
    + destruct (matchAt_inv _ _ _ _ E) as (m' & r & -> & Hs & Hc).
      rewrite Hs.
      pose proof (chainFrom_includes _ _ _ _ _ Hc Hin) as Hi.
      rewrite append_assoc. apply (includes_mid l l0 m' r Hi).
    + specialize (IH H).
      change (String c s) with (String c EmptyString ++ s).
      rewrite <- (append_nil_r s).
      now apply (includes_mid l (String c EmptyString) s EmptyString).
Qed.

Lemma getSubstitution_noDollar (matched before after : string) (caps : list string)
    (templ : string) :
  noDollar templ = true -> getSubstitution matched before after caps templ = templ.
Proof.
  induction templ as [|c t IH]; simpl; [reflexivity|].
  destruct (Ascii.eqb c "$"); simpl; [discriminate|].
  intros H. now rewrite IH.
Qed.

Lemma noDollar_app (a b : string) :
  noDollar (a ++ b) = noDollar a && noDollar b.
Proof.
  induction a as [|c a IH]; simpl; [reflexivity|].
  rewrite IH. now rewrite andb_assoc.
Qed.

(** Replacing the match a chain has just found, by text without a
    replacement pattern. *)
Lemma replace_found (s pat b a repl : string) :
  splitOn pat s = Some (b, a) -> noDollar repl = true ->
  replace s pat repl = b ++ repl ++ a.
Proof.
  intros Hs Hd. unfold replace. rewrite Hs, getSubstitution_noDollar; auto.
Qed.

Lemma replace_absent (s pat repl : string) :
  splitOn pat s = None -> replace s pat repl = s.
Proof. intros Hs. unfold replace. now rewrite Hs. Qed.

Lemma matchFirst_substring (l0 : string) (lits : list string) (s m : string) :
  matchFirst l0 lits s = Some m -> exists b a, s = b ++ m ++ a.
Proof.
  induction s as [|c s IH]; rewrite matchFirst_eq.
  - destruct (matchAt l0 lits EmptyString) as [m0|] eqn:E; [|discriminate].
    intros [= <-]. destruct (matchAt_inv _ _ _ _ E) as (m' & r & _ & Hs & _).
    exists EmptyString, r. exact Hs.
  - destruct (matchAt l0 lits (String c s)) as [m0|] eqn:E.
    + intros [= <-]. destruct (matchAt_inv _ _ _ _ E) as (m' & r & _ & Hs & _).
      exists EmptyString, r. exact Hs.
    + intros H. destruct (IH H) as (b & a & ->). exists (String c b), a. reflexivity.
Qed.

(** Where a literal is found does not depend on the text behind it. *)
Lemma splitOn_local (l gap y z : string) :
  splitOn l (gap ++ l ++ y) = Some (gap, y) ->
  splitOn l (gap ++ l ++ z) = Some (gap, z).
Proof.
  induction gap as [|c g IH]; simpl; intros H.
  - apply splitOn_prefix.
  - destruct (startsWith l (String c (g ++ l ++ y))) eqn:E; [discriminate|].
    replace (startsWith l (String c (g ++ l ++ z))) with false.
    + destruct (splitOn l (g ++ l ++ y)) as [[b a]|] eqn:E'; [|discriminate].
      injection H as -> ->. now rewrite IH.
    + rewrite <- E.
      change (String c (g ++ l ++ z)) with (String c g ++ l ++ z).
      change (String c (g ++ l ++ y)) with (String c g ++ l ++ y).
      rewrite <- !append_assoc. apply startsWith_local.
      rewrite append_length. lia.
Qed.

(** What a chain matches does not depend on the text behind the match. *)
Lemma chainFrom_local (lits : list string) (m r x : string) :
  chainFrom lits (m ++ r) = Some (m, r) ->
  chainFrom lits (m ++ x) = Some (m, x).
Proof.
  revert m; induction lits as [|l ls IH]; intros m; simpl.
  - intros [= Hm _]. destruct m; [reflexivity | discriminate].
  - destruct (splitOn l (m ++ r)) as [[gap rest]|] eqn:E; [|discriminate].
    destruct (chainFrom ls rest) as [[m' r']|] eqn:E'; [|discriminate].
    intros [= Hm <-].
    pose proof (chainFrom_inv _ _ _ _ E') as ->.
    rewrite <- Hm, !append_assoc in E |- *.
    rewrite (splitOn_local _ _ _ (m' ++ x) E).
    rewrite (IH _ E'). reflexivity.
Qed.

Lemma matchAt_split (l0 : string) (lits : list string) (s m : string) :
  matchAt l0 lits s = Some m -> exists r, s = m ++ r /\ splitOn m s = Some (EmptyString, r).
Proof.
  intros E. destruct (matchAt_inv _ _ _ _ E) as (m' & r & _ & Hs & _).
  exists r. split; [exact Hs|]. subst s. apply splitOn_prefix.
Qed.

(** The text a chain matched first is found at the place of the match by a
    literal search. *)
Lemma matchFirst_split (l0 : string) (lits : list string) (s m : string) :
  matchFirst l0 lits s = Some m -> exists b a, splitOn m s = Some (b, a).
Proof.
  induction s as [|c s IH]; rewrite matchFirst_eq.
  - destruct (matchAt l0 lits EmptyString) as [m0|] eqn:E; [|discriminate].
    intros [= <-]. destruct (matchAt_split _ _ _ _ E) as (r & _ & Hsp).
    exists EmptyString, r. exact Hsp.
  - destruct (matchAt l0 lits (String c s)) as [m0|] eqn:E.
    + intros [= <-]. destruct (matchAt_split _ _ _ _ E) as (r & _ & Hsp).
      exists EmptyString, r. exact Hsp.
    + intros H. destruct (IH H) as (b & a & Hsp).
      exists (String c b), a. rewrite splitOn_eq, Hsp.
      destruct (startsWith m (String c s)) eqn:Em; [exfalso|reflexivity].
      (* the chain would already have matched at this character *)
      assert (Hm : exists m', m = l0 ++ m' /\ forall x, chainFrom lits (m' ++ x) = Some (m', x)).
      { clear - H. induction s as [|d s IHs]; rewrite matchFirst_eq in H.
        - destruct (matchAt l0 lits EmptyString) as [m0|] eqn:E0; [|discriminate].
          injection H as <-. destruct (matchAt_inv _ _ _ _ E0) as (m' & r & -> & Hs & Hc).
          exists m'. split; [reflexivity|]. intros x. apply chainFrom_local with (r := r).
          now rewrite <- (chainFrom_inv _ _ _ _ Hc).
        - destruct (matchAt l0 lits (String d s)) as [m0|] eqn:E0.
          + injection H as <-. destruct (matchAt_inv _ _ _ _ E0) as (m' & r & -> & Hs & Hc).
            exists m'. split; [reflexivity|]. intros x. apply chainFrom_local with (r := r).
            now rewrite <- (chainFrom_inv _ _ _ _ Hc).
          + now apply IHs. }
      destruct Hm as (m' & -> & Hloc).
      pose proof (startsWith_inv _ _ Em) as Hs.
      unfold matchAt in E. rewrite Hs in E.
      rewrite append_assoc, startsWith_app, drop_app, Hloc in E. discriminate.
Qed.

Lemma noDollar_sub (b m a : string) :
  noDollar (b ++ m ++ a) = true -> noDollar m = true.
Proof.
  rewrite !noDollar_app, !andb_true_iff. tauto.
Qed.

Lemma noDollar_swap (x m m' y : string) :
  noDollar (x ++ m ++ y) = true -> noDollar m' = true -> noDollar (x ++ m' ++ y) = true.
Proof.
  rewrite !noDollar_app, !andb_true_iff. tauto.
Qed.

Lemma includes_sub_false (pat b m a : string) :
  includes pat (b ++ m ++ a) = false -> includes pat m = false.
Proof.
  intros H. destruct (includes pat m) eqn:E; [|reflexivity].
  now rewrite (includes_mid _ b _ a E) in H.
Qed.

(** Replacing a text by itself changes nothing when the text holds no
    replacement pattern. *)
Lemma replace_self (s m : string) : noDollar m = true -> replace s m m = s.
Proof.
  intros Hd. unfold replace.
  destruct (splitOn m s) as [[b a]|] eqn:E; [|reflexivity].
  rewrite getSubstitution_noDollar by assumption.
  symmetry. now apply splitOn_inv.
Qed.

(** Replacing the text a chain matched first. *)
Lemma replace_match (l0 : string) (lits : list string) (s m repl : string) :
  matchFirst l0 lits s = Some m -> noDollar repl = true ->
  exists b a, s = b ++ m ++ a /\ splitOn m s = Some (b, a) /\
              replace s m repl = b ++ repl ++ a.
Proof.
  intros Hm Hd. destruct (matchFirst_split _ _ _ _ Hm) as (b & a & Hs).
  exists b, a. split; [now apply splitOn_inv|]. split; [assumption|].
  now apply replace_found.
Qed.

End StringFacts.

(** Brings nested appends with literal parts to one shape. *)
Ltac flatten_appends :=
  repeat (progress (rewrite ?append_assoc; simpl)).
Ltac flatten_appends_in H :=
  repeat (progress (rewrite ?append_assoc in H; simpl in H)).

(** ** The Table Numberer *)

Section TableNumberer.

Import JS TableHandler Spec.

Lemma isHeaderRow_spec (n : nat) : isHeaderRow n = true <-> n mod 4 = 1.
Proof.
  unfold isHeaderRow.
  rewrite orb_true_iff, andb_true_iff, !Nat.eqb_eq, Nat.ltb_lt. split.
  - intros [-> | [H _]]; [reflexivity | exact H].
  - intros H. destruct (Nat.eq_dec n 1) as [->|Hn]; [now left|right].
    split; [exact H|]. destruct n as [|[|n]]; [discriminate H | contradiction | lia].
Qed.

(** The header positions are 1, 5, 9, 13, ... *)
Lemma isHeaderRow_positions (n : nat) :
  isHeaderRow n = true <-> exists k, n = 1 + 4 * k.
Proof.
  rewrite isHeaderRow_spec. split.
  - intros H. exists (n / 4). pose proof (Nat.div_mod_eq n 4). lia.
  - intros [k ->]. replace (1 + 4 * k) with (1 + k * 4) by lia.
    now rewrite Nat.Div0.mod_add.
Qed.

Lemma processRows_skip (rows : list string) (i : nat) (st : string * nat) :
  processRows rows i st =
  fold_left (fun st kr => numberRow (snd kr) st)
    (List.filter (fun kr => negb (isHeaderRow (fst kr)))
       (combine (seq (i + 1) (List.length rows)) rows)) st.
Proof.
  revert i st; induction rows as [|row rows IH]; intros i st; simpl; [reflexivity|].
  rewrite IH. unfold processRow.
  replace (S i + 1) with (S (i + 1)) by lia.
  destruct (isHeaderRow (i + 1)); reflexivity.
Qed.

Lemma positioned_In (rows : list string) (k : nat) (row : string) :
  In (k, row) (positioned rows) <-> 1 <= k /\ nth_error rows (k - 1) = Some row.
Proof.
  unfold positioned.
  assert (G : forall i, In (k, row) (combine (seq i (List.length rows)) rows) <->
                        i <= k /\ nth_error rows (k - i) = Some row).
  { induction rows as [|r rows IH]; intros i; simpl.
    - split; [tauto|]. intros [_ H]. destruct (k - i); discriminate.
    - rewrite IH. split.
      + intros [[= <- <-] | [Hle Hn]].
        * split; [lia|]. now rewrite Nat.sub_diag.
        * split; [lia|]. replace (k - i) with (S (k - S i)) by lia. exact Hn.
      + intros [Hle Hn]. destruct (Nat.eq_dec i k) as [->|Hne].
        * left. rewrite Nat.sub_diag in Hn. simpl in Hn. now injection Hn as ->.
        * right. split; [lia|].
          replace (k - i) with (S (k - S i)) in Hn by lia. exact Hn. }
  apply G.
Qed.

Lemma matchFirst_needs_first (l0 : string) (lits : list string) (s : string) :
  includes l0 s = false -> matchFirst l0 lits s = None.
Proof.
  intros H. destruct (matchFirst l0 lits s) as [m|] eqn:E; [|reflexivity].
  exfalso. induction s as [|c s IH]; rewrite matchFirst_eq in E.
  - destruct (matchAt l0 lits EmptyString) as [m0|] eqn:E0; [|discriminate].
    destruct (matchAt_inv _ _ _ _ E0) as (m' & r & -> & Hs & _).
    rewrite Hs, append_assoc in H.
    pose proof (includes_app l0 EmptyString (m' ++ r)) as Hi. simpl in Hi.
    rewrite Hi in H. discriminate.
  - destruct (matchAt l0 lits (String c s)) as [m0|] eqn:E0.
    + destruct (matchAt_inv _ _ _ _ E0) as (m' & r & -> & Hs & _).
      rewrite Hs, append_assoc in H.
      pose proof (includes_app l0 EmptyString (m' ++ r)) as Hi. simpl in Hi.
    rewrite Hi in H. discriminate.
    + apply IH; [|exact E].
      destruct (includes l0 s) eqn:Ei; [|reflexivity].
      change (String c s) with (String c EmptyString ++ s) in H.
      rewrite <- (append_nil_r s) in H.
      rewrite (includes_mid l0 (String c EmptyString) s EmptyString Ei) in H.
      discriminate.
Qed.

(** A row without a [<w:tc>] cell is returned as it is. *)
Lemma processRowFirstCell_no_cell (rowXml : string) (n : nat) :
  includes "<w:tc>" rowXml = false -> processRowFirstCell rowXml n = rowXml.
Proof.
  intros H. unfold processRowFirstCell.
  now rewrite (matchFirst_needs_first _ _ _ H).
Qed.

(** The rows that the row loop hands to the first-cell writer are exactly
    the rows at the positions 2, 3, 4, 6, 7, 8, 10, ... up to the number of
    rows, in order, the positions being counted from 1 within the table: the
    turn of a row at position 1, 5, 9, ... writes nothing and consumes no
    number.  A row that is handed over consumes one number when the writer
    changes its text and none when it does not; a row without a first cell
    is left as it is. *)
Lemma rows_handed_to_the_writer (tableXml : string) (start : nat) :
  processTableState tableXml start =
    fold_left (fun st kr => numberRow (snd kr) st)
      (dataRows (tableRows tableXml)) (tableXml, start)
  /\ (forall k row,
        In (k, row) (dataRows (tableRows tableXml)) <->
        nth_error (tableRows tableXml) (k - 1) = Some row /\
        1 <= k /\ ~ (exists j, k = 1 + 4 * j))
  /\ (forall row st,
        (processRowFirstCell row (snd st) = row -> numberRow row st = st) /\
        (processRowFirstCell row (snd st) <> row -> snd (numberRow row st) = S (snd st)) /\
        (includes "<w:tc>" row = false -> numberRow row st = st)).
Proof.
  split; [|split].
  - unfold processTableState, dataRows, positioned.
    destruct (tableRows tableXml) as [|r rows] eqn:E; [reflexivity|].
    rewrite processRows_skip. reflexivity.
  - intros k row. unfold dataRows. rewrite filter_In, positioned_In. simpl.
    rewrite negb_true_iff, <- isHeaderRow_positions.
    destruct (isHeaderRow k); intuition congruence.
  - intros row st. unfold numberRow. repeat split.
    + intros ->. now rewrite String.eqb_refl.
    + intros H. apply String.eqb_neq in H. now rewrite H.
    + intros H. rewrite (processRowFirstCell_no_cell _ _ H). now rewrite String.eqb_refl.
Qed.

(** A row without a cell at a data position takes no number: the writer
    returns it as it is and the loop guards the counter with
    [processedRow !== row]. *)
Example row_without_cell_takes_no_number :
  let t := "<w:tbl><w:tr><w:tc><w:p>H</w:p></w:tc></w:tr><w:tr><w:trPr/></w:tr></w:tbl>" in
  List.length (tableRows t) = 2 /\
  dataPositions 2 = [2] /\
  numberedPositions t 1 = [] /\
  processTableState t 1 = (t, 1).
Proof. vm_compute. repeat split. Qed.

(** C1, where the code departs from it.  A form with a header row and five
    blank rows of one and the same text: the data positions are 2, 3, 4 and
    6, but the numbers go to the rows 2, 3, 4 and 5.  The row loop skips the
    turn of row 5, a header position, and then writes the number of row 6
    with [processedTableXml.replace(row, processedRow)], which changes the
    first row of that text it finds: row 5.  A row at a header position has
    received a number, and the data row 6 has none. *)
Theorem C1_header_position_takes_the_number :
  tableRows Cases.blankForm
    = [Samples.headerRow; Cases.blankRow; Cases.blankRow; Cases.blankRow;
       Cases.blankRow; Cases.blankRow] /\
  dataPositions 6 = [2; 3; 4; 6] /\
  numberedPositions Cases.blankForm 1 = [2; 3; 4; 5] /\
  removeAll REF_NUMBER_ADDED (processTable Cases.blankForm 1 1)
    = "<w:tbl>" ++ Samples.headerRow ++ Samples.numberedRow "1" ++ Samples.numberedRow "2"
        ++ Samples.numberedRow "3" ++ Samples.numberedRow "4" ++ Cases.blankRow ++ "</w:tbl>".
Proof. vm_compute. repeat split. Qed.

End TableNumberer.

(** ** The cell writer *)

Section CellWriter.

Import JS TableHandler Spec Samples.

(** A first cell whose paragraph has no properties block: the whole
    paragraph is replaced by a fresh one that holds the number. *)
Lemma processRowFirstCell_plain (rowXml cell paragraph : string) (n : nat) :
  matchFirst "<w:tc>" ["</w:tc>"] rowXml = Some cell ->
  matchFirst "<w:p" ["</w:p>"] cell = Some paragraph ->
  matchFirst "<w:pPr>" ["</w:pPr>"] paragraph = None ->
  noDollar cell = true ->
  exists rb ra cb ca,
    rowXml = rb ++ cell ++ ra /\ cell = cb ++ paragraph ++ ca /\
    processRowFirstCell rowXml n =
      rb ++ (cb ++ ("<w:p><w:r><w:t>" ++ numberToString n
                      ++ "</w:t></w:r></w:p><REF_NUMBER_ADDED>") ++ ca) ++ ra.
Proof.
  intros Hc Hp Hn Hd. unfold processRowFirstCell. rewrite Hc, Hp, Hn.
  assert (Hnum : noDollar ("<w:p>" ++ numberRun n) = true).
  { unfold numberRun, numberToString. simpl. rewrite noDollar_app. simpl.
    rewrite andb_true_r. generalize (Nat.to_uint n).
    induction u; simpl; auto. }
  destruct (replace_match _ _ _ _ ("<w:p>" ++ numberRun n) Hp Hnum) as (cb & ca & Hcell & _ & Hr).
  rewrite Hr.
  assert (Hd' : noDollar (cb ++ ("<w:p>" ++ numberRun n) ++ ca) = true).
  { rewrite Hcell in Hd. rewrite !noDollar_app, !andb_true_iff in Hd |- *. tauto. }
  destruct (replace_match _ _ _ _ _ Hc Hd') as (rb & ra & Hrow & _ & Hr').
  exists rb, ra, cb, ca. repeat split; assumption.
Qed.

(** A first cell without a paragraph: a paragraph holding the number is put
    right behind the opening tag of the cell. *)
Lemma processRowFirstCell_empty_cell (rowXml cell : string) (n : nat) :
  matchFirst "<w:tc>" ["</w:tc>"] rowXml = Some cell ->
  matchFirst "<w:p" ["</w:p>"] cell = None ->
  noDollar cell = true ->
  exists rb ra rest,
    rowXml = rb ++ cell ++ ra /\ cell = "<w:tc>" ++ rest /\
    processRowFirstCell rowXml n =
      rb ++ ("<w:tc><w:p><w:r><w:t>" ++ numberToString n
               ++ "</w:t></w:r></w:p><REF_NUMBER_ADDED>" ++ rest) ++ ra.
Proof.
  intros Hc Hp Hd. unfold processRowFirstCell. rewrite Hc, Hp.
  assert (Hcell : exists rest, cell = "<w:tc>" ++ rest).
  { clear - Hc. induction rowXml as [|c s IH]; rewrite matchFirst_eq in Hc.
    - destruct (matchAt "<w:tc>" ["</w:tc>"] EmptyString) as [m0|] eqn:E; [|discriminate].
      injection Hc as <-. destruct (matchAt_inv _ _ _ _ E) as (m' & r & -> & _). now exists m'.
    - destruct (matchAt "<w:tc>" ["</w:tc>"] (String c s)) as [m0|] eqn:E; [|now apply IH].
      injection Hc as <-. destruct (matchAt_inv _ _ _ _ E) as (m' & r & -> & _). now exists m'. }
  destruct Hcell as (rest & ->).
  rewrite splitOn_prefix.
  assert (Hnum : noDollar (numberToString n) = true).
  { unfold numberToString. generalize (Nat.to_uint n). induction u; simpl; auto. }
  assert (Hsub : getSubstitution "<w:tc>" EmptyString rest [EmptyString]
                   ("<w:tc>$1<w:p>" ++ numberRun n)
                 = "<w:tc><w:p>" ++ numberRun n).
  { unfold numberRun. simpl.
    repeat match goal with |- String _ _ = String _ _ => f_equal end.
    apply getSubstitution_noDollar. rewrite noDollar_app, Hnum. reflexivity. }
  rewrite Hsub.
  assert (Hd' : noDollar (EmptyString ++ ("<w:tc><w:p>" ++ numberRun n) ++ rest) = true).
  { unfold numberRun. simpl. rewrite !noDollar_app, Hnum. simpl in Hd |- *.
    exact Hd. }
  destruct (replace_match _ _ _ _ _ Hc Hd') as (rb & ra & Hrow & _ & Hr').
  exists rb, ra, rest. repeat split; [assumption|].
  rewrite Hr'. unfold numberRun. simpl. rewrite !append_assoc. reflexivity.
Qed.

(** C3, where the code departs from it.  When the first paragraph of the
    first cell has a properties block [<w:pPr>], the row is returned as it
    is: the search text handed to [replace] is the block followed by the
    characters [[sS]*?</w:p>], which the paragraph does not hold, so the
    existing run content stays and no serial number is written.  (Rows
    with a dollar sign are left out because [replace] would expand it.) *)
Theorem C3_properties_block_blocks_the_write (rowXml cell paragraph pPr : string) (n : nat) :
  matchFirst "<w:tc>" ["</w:tc>"] rowXml = Some cell ->
  matchFirst "<w:p" ["</w:p>"] cell = Some paragraph ->
  matchFirst "<w:pPr>" ["</w:pPr>"] paragraph = Some pPr ->
  noDollar rowXml = true ->
  includes "[sS]*?</w:p>" rowXml = false ->
  processRowFirstCell rowXml n = rowXml.
Proof.
  intros Hc Hp Hq Hd Hi. unfold processRowFirstCell. rewrite Hc, Hp, Hq.
  destruct (matchFirst_substring _ _ _ _ Hc) as (rb & ra & Hrow).
  destruct (matchFirst_substring _ _ _ _ Hp) as (cb & ca & Hcell).
  assert (Hdc : noDollar cell = true) by (rewrite Hrow in Hd; exact (noDollar_sub _ _ _ Hd)).
  assert (Hdp : noDollar paragraph = true) by (rewrite Hcell in Hdc; exact (noDollar_sub _ _ _ Hdc)).
  assert (Hic : includes "[sS]*?</w:p>" cell = false)
    by (rewrite Hrow in Hi; exact (includes_sub_false _ _ _ _ Hi)).
  assert (Hip : includes "[sS]*?</w:p>" paragraph = false)
    by (rewrite Hcell in Hic; exact (includes_sub_false _ _ _ _ Hic)).
  rewrite (replace_absent paragraph).
  - rewrite (replace_self cell paragraph Hdp). apply replace_self, Hdc.
  - destruct (splitOn (pPr ++ "[sS]*?</w:p>") paragraph) as [[b a]|] eqn:E; [exfalso|reflexivity].
    apply splitOn_inv in E.
    assert (includes "[sS]*?</w:p>" paragraph = true) as Ht.
    { rewrite E. rewrite append_assoc, <- (append_assoc b pPr). apply includes_app. }
    congruence.
Qed.

(** The theorem at a centred first cell that holds the text "old". *)
Lemma C3_centred_cell_keeps_its_text :
  processRowFirstCell (centredRow "old") 1 = centredRow "old".
Proof.
  apply (C3_properties_block_blocks_the_write _
           ("<w:tc>" ++ centredParagraph "old" ++ "</w:tc>")
           (centredParagraph "old") centredProperties 1); reflexivity.
Defined.

Lemma numberRun_marked (n : nat) (x y : string) :
  includes REF_NUMBER_ADDED (x ++ numberRun n ++ y) = true.
Proof.
  unfold numberRun.
  replace (x ++ ("<w:r><w:t>" ++ numberToString n
                   ++ "</w:t></w:r></w:p><REF_NUMBER_ADDED>") ++ y)
    with ((x ++ "<w:r><w:t>" ++ numberToString n ++ "</w:t></w:r></w:p>")
            ++ REF_NUMBER_ADDED ++ y).
  - apply includes_app.
  - unfold REF_NUMBER_ADDED. rewrite !append_assoc. simpl. rewrite ?append_assoc. reflexivity.
Qed.

(** In a row without a dollar sign the writer either leaves the row as it is
    or writes a number together with its mark: a number that is consumed is
    also counted. *)
Lemma consumed_number_is_marked (rowXml : string) (n : nat) :
  noDollar rowXml = true ->
  processRowFirstCell rowXml n = rowXml \/
  includes REF_NUMBER_ADDED (processRowFirstCell rowXml n) = true.
Proof.
  intros Hd.
  destruct (matchFirst "<w:tc>" ["</w:tc>"] rowXml) as [cell|] eqn:Hc.
  2: { left. unfold processRowFirstCell. now rewrite Hc. }
  destruct (matchFirst_substring _ _ _ _ Hc) as (rb & ra & Hrow).
  assert (Hdc : noDollar cell = true) by (rewrite Hrow in Hd; exact (noDollar_sub _ _ _ Hd)).
  destruct (matchFirst "<w:p" ["</w:p>"] cell) as [paragraph|] eqn:Hp.
  2: { right. destruct (processRowFirstCell_empty_cell _ _ n Hc Hp Hdc)
         as (rb' & ra' & rest & _ & _ & ->).
       pose proof (numberRun_marked n (rb' ++ "<w:tc><w:p>") (rest ++ ra')) as G.
       unfold numberRun in G. flatten_appends_in G. flatten_appends. exact G. }
  destruct (matchFirst_substring _ _ _ _ Hp) as (cb & ca & Hcell).
  assert (Hdp : noDollar paragraph = true)
    by (rewrite Hcell in Hdc; exact (noDollar_sub _ _ _ Hdc)).
  destruct (matchFirst "<w:pPr>" ["</w:pPr>"] paragraph) as [pPr|] eqn:Hq.
  2: { right. destruct (processRowFirstCell_plain _ _ _ n Hc Hp Hq Hdc)
         as (rb' & ra' & cb' & ca' & _ & _ & ->).
       pose proof (numberRun_marked n (rb' ++ cb' ++ "<w:p>") (ca' ++ ra')) as G.
       unfold numberRun in G. flatten_appends_in G. flatten_appends. exact G. }
  destruct (matchFirst_substring _ _ _ _ Hq) as (pb & pa & Hpar).
  assert (Hdq : noDollar pPr = true)
    by (rewrite Hpar in Hdp; exact (noDollar_sub _ _ _ Hdp)).
  unfold processRowFirstCell. rewrite Hc, Hp, Hq.
  destruct (splitOn (pPr ++ "[sS]*?</w:p>") paragraph) as [[b a]|] eqn:E.
  - right.
    assert (Hnum : noDollar (pPr ++ numberRun n) = true).
    { rewrite noDollar_app, Hdq. unfold numberRun, numberToString. simpl.
      rewrite noDollar_app. simpl. rewrite andb_true_r.
      generalize (Nat.to_uint n). induction u; simpl; auto. }
    rewrite (replace_found _ _ _ _ _ E Hnum).
    pose proof (splitOn_inv _ _ _ _ E) as Hpb.
    assert (Hnp : noDollar (b ++ (pPr ++ numberRun n) ++ a) = true).
    { rewrite Hpb in Hdp. exact (noDollar_swap _ _ _ _ Hdp Hnum). }
    destruct (replace_match _ _ _ _ _ Hp Hnp) as (cb' & ca' & Hcell' & _ & ->).
    assert (Hnc : noDollar (cb' ++ (b ++ (pPr ++ numberRun n) ++ a) ++ ca') = true).
    { rewrite Hcell' in Hdc. exact (noDollar_swap _ _ _ _ Hdc Hnp). }
    destruct (replace_match _ _ _ _ _ Hc Hnc) as (rb' & ra' & _ & _ & ->).
    pose proof (numberRun_marked n (rb' ++ cb' ++ b ++ pPr) (a ++ ca' ++ ra')) as G.
    unfold numberRun in G |- *. flatten_appends_in G. flatten_appends. exact G.
  - left. rewrite (replace_absent _ _ _ E).
    rewrite (replace_self cell paragraph Hdp). apply replace_self, Hdc.
Qed.

End CellWriter.

(** ** The running counter *)

Section RunningCounter.

Import JS TableHandler Spec Samples.

(** C2, where the code departs from it.  The document holds two tables.  In
    the first, row 2 has a centred first paragraph with the text [$$]: the
    properties block keeps the writer from rewriting it, but [replace]
    expands [$$] to [$], so the row counts as changed and takes number 1
    without any mark; row 3 is given number 2.  The counter for the next
    table is advanced by the number of marks, one, so the second table
    starts at 2 again: the last number of the first table is not below the
    first number of the second. *)
Theorem C2_second_table_repeats_a_number :
  documentTables (inBody (dollarTable ++ plainTable)) = [dollarTable; plainTable] /\
  snd (processTableState dollarTable 1) = 3 /\
  snd (processOneTable 0 dollarTable (inBody (dollarTable ++ plainTable), 1)) = 2 /\
  numberDocument (inBody (dollarTable ++ plainTable)) =
    inBody (("<w:tbl>" ++ headerRow ++ centredRow "$" ++ numberedRow "2" ++ "</w:tbl>")
            ++ ("<w:tbl>" ++ headerRow ++ numberedRow "2" ++ "</w:tbl>")).
Proof. vm_compute. repeat split. Qed.

(** C10, where the code departs from it.  In the table of the previous
    theorem, number 1 is consumed by a row into which nothing is written:
    the only serial number in the processed document is 2, and the only row
    that carries a mark is row 3. *)
Theorem C10_number_consumed_but_not_written :
  processTableState dollarTable 1 =
    ("<w:tbl>" ++ headerRow ++ centredRow "$"
       ++ "<w:tr><w:tc><w:p><w:r><w:t>2</w:t></w:r></w:p><REF_NUMBER_ADDED></w:tc></w:tr>"
       ++ "</w:tbl>", 3) /\
  numberedPositions dollarTable 1 = [3] /\
  includes "<w:t>1</w:t>" (numberDocument (inBody dollarTable)) = false /\
  includes "<w:t>2</w:t>" (numberDocument (inBody dollarTable)) = true.
Proof. vm_compute. repeat split. Qed.

(** C6, where the code departs from it.  A table of three identical empty
    rows: [replace] rewrites the first occurrence of the row text, so the
    first pass numbers rows 1 and 2 (the header row among them) and leaves
    row 3; the second pass then writes 1 into row 2 and 2 into row 3.  The
    second pass changes the document. *)
Theorem C6_second_pass_changes_the_document :
  numberDocument (inBody emptyTable) =
    inBody ("<w:tbl>" ++ numberedEmptyRow "1" ++ numberedEmptyRow "2" ++ emptyRow ++ "</w:tbl>") /\
  numberDocument (numberDocument (inBody emptyTable)) =
    inBody ("<w:tbl>" ++ numberedEmptyRow "1" ++ numberedEmptyRow "1"
              ++ numberedEmptyRow "2" ++ "</w:tbl>") /\
  numberDocument (numberDocument (inBody emptyTable)) <> numberDocument (inBody emptyTable).
Proof. vm_compute. repeat split. intros [=]. Qed.

(** With equal row texts the write lands on the first of them: in the table
    of three identical rows the marks end up on rows 1 and 2, the header
    row among them, and not on rows 2 and 3. *)
Example repeated_rows_move_the_numbers :
  dataPositions 3 = [2; 3] /\ numberedPositions emptyTable 1 = [1; 2].
Proof. vm_compute. split; reflexivity. Qed.

End RunningCounter.

(** ** The template applier *)

Section BlankFirstPage.

Import JS TemplateApplier Samples.

Lemma chainFrom_cons_prefix (l : string) (ls : list string) (s : string) :
  chainFrom (l :: ls) (l ++ s) =
  match chainFrom ls s with
  | Some (m, r) => Some (l ++ m, r)
  | None => None
  end.
Proof. simpl. rewrite splitOn_prefix. reflexivity. Qed.

Lemma blankFirstPage_leading (docXml pre rest m tail : string) :
  splitOn "<w:body>" docXml = Some (pre, "<w:p><w:r>" ++ pageBreak ++ rest) ->
  chainFrom ["</w:r>"; "</w:p>"] rest = Some (m, tail) ->
  blankFirstPage docXml = Some ("<w:body>" ++ ("<w:p>" ++ "<w:r>" ++ pageBreak ++ m)).
Proof.
  intros Hs Hc. unfold blankFirstPage.
  apply (matchFirst_at_split _ _ _ _ _ _ tail Hs).
  change ("<w:p><w:r>" ++ pageBreak ++ rest) with ("<w:p>" ++ "<w:r>" ++ pageBreak ++ rest).
  rewrite !chainFrom_cons_prefix, Hc. reflexivity.
Qed.

(** When the Body opens with a paragraph whose first run opens with a page
    break, the step deletes that paragraph as a whole, up to the first
    [</w:p>] behind the end of the run, and keeps what stands before
    [<w:body>] and everything behind the paragraph; a document without any
    page break is left as it is. *)
Lemma blank_first_page_step (docXml : string) :
  (forall pre rest m tail,
      splitOn "<w:body>" docXml = Some (pre, "<w:p><w:r>" ++ pageBreak ++ rest) ->
      chainFrom ["</w:r>"; "</w:p>"] rest = Some (m, tail) ->
      removeBlankFirstPageXml docXml = pre ++ "<w:body>" ++ tail)
  /\ (includes pageBreak docXml = false -> removeBlankFirstPageXml docXml = docXml).
Proof.
  split.
  - intros pre rest m tail Hs Hc. unfold removeBlankFirstPageXml.
    rewrite (blankFirstPage_leading _ _ _ _ _ Hs Hc).
    pose proof (chainFrom_inv _ _ _ _ Hc) as Hrest.
    apply replace_found; [|reflexivity].
    assert (Hq : "<w:body>" ++ "<w:p><w:r>" ++ pageBreak ++ rest
                 = ("<w:body>" ++ "<w:p>" ++ "<w:r>" ++ pageBreak ++ m) ++ tail).
    { rewrite Hrest. simpl. rewrite ?append_assoc. reflexivity. }
    rewrite (splitOn_extend _ ("<w:body>" ++ "<w:p>" ++ "<w:r>" ++ pageBreak ++ m) _ _ _ Hs).
    + rewrite Hq, drop_app. reflexivity.
    + apply startsWith_app.
    + rewrite Hq. apply startsWith_app.
  - intros Hi. unfold removeBlankFirstPageXml.
    destruct (blankFirstPage docXml) as [m|] eqn:E; [|reflexivity].
    unfold blankFirstPage in E.
    rewrite (matchFirst_includes _ _ _ _ pageBreak E) in Hi; [discriminate|].
    simpl. tauto.
Qed.

(** The step at a Body that opens with a paragraph holding only the break,
    and at a document without a break. *)
Example leading_break_is_removed :
  removeBlankFirstPageXml (inBody (("<w:p>" ++ breakRun ++ "</w:p>") ++ textPara "Later"))
    = inBody (textPara "Later")
  /\ removeBlankFirstPageXml (inBody (textPara "Later")) = inBody (textPara "Later").
Proof.
  split.
  - apply (proj1 (blank_first_page_step _) "<w:document>"
             ("</w:r></w:p>" ++ textPara "Later" ++ "</w:body></w:document>")
             "</w:r></w:p>"
             (textPara "Later" ++ "</w:body></w:document>")); reflexivity.
  - apply (proj2 (blank_first_page_step _)). reflexivity.
Qed.

(** When the opening paragraph holds more than the break, the text behind
    the break goes with it. *)
Example rest_of_first_paragraph_is_deleted :
  let doc := inBody (("<w:p>" ++ breakRun ++ "<w:r><w:t>Title</w:t></w:r></w:p>")
                       ++ textPara "Later") in
  includes "<w:t>Title</w:t>" doc = true /\
  removeBlankFirstPageXml doc = inBody (textPara "Later") /\
  includes "<w:t>Title</w:t>" (removeBlankFirstPageXml doc) = false.
Proof. vm_compute. repeat split. Qed.

(** C4, where the code departs from it.  The Body of two merged documents
    does not open with a break: its first paragraph holds the text of the
    first document, and the page break that docx-merger puts between the
    documents stands behind it.  The lazy wildcards of the pattern between
    [<w:body>], [<w:p>], [<w:r>] and the break reach that later break, and
    the step deletes everything from the start of the Body to the end of
    the paragraph of the break: the first document is gone, against the
    comment [Look for page breaks at the beginning of the document]. *)
Theorem C4_later_break_takes_what_stands_before_it :
  blankFirstPage Cases.twoDocuments
    = Some ("<w:body>" ++ textPara "First" ++ Cases.breakParagraph) /\
  removeBlankFirstPageXml Cases.twoDocuments = inBody (textPara "Second") /\
  includes "First" Cases.twoDocuments = true /\
  includes "First" (removeBlankFirstPageXml Cases.twoDocuments) = false /\
  removeBlankFirstPage {[ documentPath := Cases.twoDocuments ]}
    = {[ documentPath := inBody (textPara "Second") ]}.
Proof. vm_compute. repeat split. Qed.

End BlankFirstPage.

Section Relationships.

Import JS TemplateApplier Samples.

Lemma includes_cons_false (pat : string) (c : ascii) (s : string) :
  includes pat (String c s) = false -> includes pat s = false.
Proof.
  intros H. change (String c s) with (String c EmptyString ++ s) in H.
  rewrite <- (append_nil_r s) in H. exact (includes_sub_false _ _ _ _ H).
Qed.

(** The text [tagWithTarget] returns is the front of its subject up to the
    first [>]. *)
Lemma tagWithTarget_inv (seen : bool) (s m : string) :
  tagWithTarget seen s = Some m ->
  exists span r, m = span ++ ">" /\ s = m ++ r /\ includes ">" span = false.
Proof.
  revert seen m; induction s as [|c t IH]; intros seen m; simpl; [discriminate|].
  destruct (Ascii.eqb c ">") eqn:Ec.
  - destruct seen; [|discriminate]. intros [= <-].
    apply Ascii.eqb_eq in Ec; subst c. exists EmptyString, t. repeat split.
  - destruct (tagWithTarget (seen || targetAt (String c t)) t) as [m'|] eqn:E; [|discriminate].
    intros [= <-]. destruct (IH _ _ E) as (span & r & -> & Ht & Hspan).
    exists (String c span), r. repeat split.
    + simpl. now rewrite <- Ht.
    + unfold includes in *. rewrite splitOn_eq.
      change (startsWith ">" (String c span)) with (if Ascii.eqb ">" c then true else false).
      rewrite Ascii.eqb_sym, Ec.
      destruct (splitOn ">" span) as [[? ?]|]; [discriminate | reflexivity].
Qed.

(** A literal without [>] at the front of a text lies before the first [>]. *)
Lemma startsWith_before (lit span r : string) :
  includes ">" lit = false ->
  startsWith lit (span ++ ">" ++ r) = true -> startsWith lit span = true.
Proof.
  revert span; induction lit as [|a l IH]; intros span Hi; simpl; [reflexivity|].
  destruct span as [|b sp]; simpl.
  - destruct (Ascii.eqb a ">") eqn:Ea; [|discriminate].
    apply Ascii.eqb_eq in Ea; subst a. discriminate Hi.
  - destruct (Ascii.eqb a b); [|discriminate].
    apply IH. exact (includes_cons_false _ _ _ Hi).
Qed.

(** Does the text hold the name of a header or footer target? *)
Lemma tagWithTarget_target (seen : bool) (s m : string) :
  tagWithTarget seen s = Some m ->
  seen = true \/
  includes ("Target=" ++ dq ++ "header") m || includes ("Target=" ++ dq ++ "footer") m = true.
Proof.
  revert seen m; induction s as [|c t IH]; intros seen m H; [discriminate|].
  pose proof (tagWithTarget_inv _ _ _ H) as (span & r & Hm & Hs & Hspan).
  simpl in H. destruct (Ascii.eqb c ">") eqn:Ec.
  - destruct seen; [now left | discriminate].
  - destruct (tagWithTarget (seen || targetAt (String c t)) t) as [m'|] eqn:E; [|discriminate].
    injection H as <-.
    destruct (IH _ _ E) as [Hseen | Hin].
    + apply orb_true_iff in Hseen as [-> | Ht]; [now left | right].
      assert (Hlit : exists lit, includes ">" lit = false /\
                                 startsWith lit (String c t) = true /\
                                 (lit = "Target=" ++ dq ++ "header" \/
                                  lit = "Target=" ++ dq ++ "footer")).
      { unfold targetAt in Ht.
        destruct (startsWith (("Target=" ++ dq) ++ "header") (String c t)) eqn:E1.
        - exists ("Target=" ++ dq ++ "header"). repeat split; auto.
        - destruct (startsWith (("Target=" ++ dq) ++ "footer") (String c t)) eqn:E2.
          + exists ("Target=" ++ dq ++ "footer"). repeat split; auto.
          + simpl in Ht. discriminate. }
      destruct Hlit as (lit & Hgt & Hst & Hlit).
      rewrite Hs, Hm, append_assoc in Hst.
      pose proof (startsWith_before _ _ _ Hgt Hst) as Hsp.
      rewrite Hm, (startsWith_inv _ _ Hsp), append_assoc.
      pose proof (includes_app lit EmptyString
                    (drop (String.length lit) span ++ ">")) as Hi.
      simpl in Hi. destruct Hlit as [-> | ->]; rewrite Hi; auto using orb_true_r.
    + right. apply orb_true_iff in Hin. apply orb_true_iff.
      destruct Hin as [Hin | Hin]; [left | right];
        change (String c m') with (String c EmptyString ++ m');
        rewrite <- (append_nil_r m');
        now apply includes_mid.
Qed.

Lemma relAt_inv (s e : string) :
  relAt s = Some e ->
  (exists r, s = e ++ r) /\ startsWith "<Relationship " e = true /\
  includes ("Target=" ++ dq ++ "header") e || includes ("Target=" ++ dq ++ "footer") e = true.
Proof.
  unfold relAt. destruct (startsWith "<Relationship " s) eqn:E; [|discriminate].
  destruct (tagWithTarget false _) as [m|] eqn:Et; [|discriminate].
  intros [= <-]. split; [|split].
  - destruct (tagWithTarget_inv _ _ _ Et) as (span & r & _ & Hs & _).
    exists r. rewrite (startsWith_inv _ _ E) at 1. rewrite Hs. reflexivity.
  - reflexivity.
  - destruct (tagWithTarget_target _ _ _ Et) as [Hf | Hin]; [discriminate|].
    apply orb_true_iff in Hin. apply orb_true_iff.
    destruct Hin as [Hin | Hin]; [left | right];
      rewrite <- (append_nil_r m);
      exact (includes_mid _ "<Relationship " m EmptyString Hin).
Qed.

Lemma headerFooterRelsFrom_In (skip : nat) (s e : string) :
  In e (headerFooterRelsFrom skip s) ->
  exists b x, s = b ++ x /\ relAt x = Some e.
Proof.
  revert skip; induction s as [|c t IH]; intros skip; simpl; [tauto|].
  assert (Hrec : forall k, In e (headerFooterRelsFrom k t) ->
                           exists b x, String c t = b ++ x /\ relAt x = Some e).
  { intros k Hk. destruct (IH _ Hk) as (b & x & -> & Hx).
    exists (String c b), x. split; [reflexivity | assumption]. }
  destruct skip as [|k]; [|apply Hrec].
  destruct (relAt (String c t)) as [m|] eqn:E; [|apply Hrec].
  intros [<- | Hin]; [|now apply (Hrec _ Hin)].
  exists EmptyString, (String c t). split; [reflexivity | assumption].
Qed.

Lemma join_noDollar_close (rels : list string) :
  noDollar (join rels) = true -> noDollar (join rels ++ "</Relationships>") = true.
Proof. intros H. rewrite noDollar_app, H. reflexivity. Qed.

(** What [preserveRelationships] stores, in terms of the matches of its
    pattern: when both relationship parts are present and not empty and the
    pattern has matches, they are put right before the first
    [</Relationships>] of the combined part; when either part is absent or
    empty the package is left as it is.  Every match comes from the template
    part, is a [<Relationship ...>] tag and names a header or footer
    target. *)
Lemma preserveRelationships_by_cases (templateZip mergedZip : gmap string string) :
  (forall templateRels mergedRels b a,
      templateZip !! relsPath = Some templateRels ->
      mergedZip !! relsPath = Some mergedRels ->
      templateRels <> EmptyString -> mergedRels <> EmptyString ->
      headerFooterRels templateRels <> [] ->
      splitOn "</Relationships>" mergedRels = Some (b, a) ->
      noDollar (join (headerFooterRels templateRels)) = true ->
      preserveRelationships templateZip mergedZip =
        <[relsPath := b ++ (join (headerFooterRels templateRels) ++ "</Relationships>") ++ a]>
          mergedZip)
  /\ (falsy (templateZip !! relsPath) = true \/ falsy (mergedZip !! relsPath) = true ->
      preserveRelationships templateZip mergedZip = mergedZip)
  /\ (forall templateRels e,
        In e (headerFooterRels templateRels) ->
        includes e templateRels = true /\
        startsWith "<Relationship " e = true /\
        includes ("Target=" ++ dq ++ "header") e || includes ("Target=" ++ dq ++ "footer") e = true).
Proof.
  split; [|split].
  - intros templateRels mergedRels b a Ht Hm Hte Hme Hhf Hs Hd.
    unfold preserveRelationships, getZipEntryText. rewrite Ht, Hm.
    apply String.eqb_neq in Hte, Hme. rewrite Hte, Hme. simpl.
    unfold updatedRels.
    destruct (headerFooterRels templateRels) as [|r rs] eqn:E; [contradiction|].
    unfold putFile. f_equal.
    apply replace_found; [assumption|]. now apply join_noDollar_close.
  - unfold preserveRelationships, getZipEntryText, falsy.
    destruct (templateZip !! relsPath) as [t|]; [|reflexivity].
    destruct (mergedZip !! relsPath) as [m|]; [|reflexivity].
    intros [-> | ->]; [reflexivity|]. now rewrite orb_true_r.
  - intros templateRels e Hin.
    destruct (headerFooterRelsFrom_In _ _ _ Hin) as (b & x & -> & Hx).
    destruct (relAt_inv _ _ Hx) as ((r & ->) & Hst & Htg).
    split; [apply includes_app | split; assumption].
Qed.

(** C5, as the specification states it, fails on a template entry whose id
    the combined part already uses: the entry is appended all the same and
    the id [rId1] then stands for two targets. *)
Lemma C5_duplicate_id_is_appended :
  updatedRels templateRelsSample mergedRelsSample =
    "<Relationships>" ++ relationship "rId1" "styles.xml"
       ++ relationship "rId1" "header1.xml" ++ "</Relationships>"
  /\ countMatches (attr "Id" "rId1") mergedRelsSample = 1
  /\ countMatches (attr "Id" "rId1") (updatedRels templateRelsSample mergedRelsSample) = 2
  /\ preserveRelationships {[ relsPath := templateRelsSample ]} {[ relsPath := mergedRelsSample ]}
     = {[ relsPath := "<Relationships>" ++ relationship "rId1" "styles.xml"
                        ++ relationship "rId1" "header1.xml" ++ "</Relationships>" ]}.
Proof. vm_compute. repeat split. Qed.

End Relationships.

Section SectionProperties.

Import JS TemplateApplier Samples.

(** With one section in the combined Body and a template block that holds no
    dollar sign, the block takes the place of that section. *)
Lemma updatedDocument_single (templateDoc mergedDoc sectPr : string) :
  sectPrs templateDoc <> [] ->
  sectPrs mergedDoc = [sectPr] ->
  noDollar (List.last (sectPrs templateDoc) EmptyString) = true ->
  forall b a, splitOn sectPr mergedDoc = Some (b, a) ->
  updatedDocument templateDoc mergedDoc =
    Some (b ++ List.last (sectPrs templateDoc) EmptyString ++ a).
Proof.
  intros Ht Hm Hd b a Hs. unfold updatedDocument.
  destruct (sectPrs templateDoc) as [|t ts] eqn:E; [contradiction|].
  rewrite Hm. unfold replaceSections. simpl fold_left.
  f_equal. now apply replace_found.
Qed.

(** C8, where the code departs from it.  The trailing section properties of
    the template hold a custom footnote number format written with two
    dollar signs.  [replace] reads the block as a replacement pattern and stores it
    with one dollar sign: the section description of the Body is not the
    block of the template. *)
Theorem C8_template_block_is_altered :
  let templateDoc := inBody (textPara "t" ++ dollarSectPr) in
  let mergedDoc := inBody (textPara "m" ++ mergedSectPr) in
  List.last (sectPrs templateDoc) EmptyString = dollarSectPr /\
  sectPrs mergedDoc = [mergedSectPr] /\
  updatedDocument templateDoc mergedDoc = Some (inBody (textPara "m" ++ storedSectPr)) /\
  sectPrs (inBody (textPara "m" ++ storedSectPr)) = [storedSectPr] /\
  storedSectPr <> dollarSectPr.
Proof. vm_compute. repeat split. intros [=]. Qed.

End SectionProperties.

(** ** The orchestrator *)

Section Orchestration.

Import JS TableHandler TemplateApplier WordMerger Service.

Lemma tempOutputPath_fresh (p : string) : tempOutputPathOf p <> p.
Proof.
  unfold tempOutputPathOf. intros H. apply (f_equal String.length) in H.
  rewrite append_length in H. simpl in H. lia.
Qed.

(** What the callback leaves behind, by case on its result. *)
Lemma mergeCallback_outcome (templatePath outputPath : string)
    (mergedBuffer : fileData) (fs : gmap string fileData) :
  match mergeCallback templatePath outputPath mergedBuffer fs with
  | (inr p, fs') =>
      p = outputPath /\
      fs' !! tempOutputPathOf outputPath = None /\
      exists templateZip mergedZip documentXml,
        mergedBuffer = ZipFile mergedZip /\
        templated templateZip mergedZip !! documentPath = Some documentXml /\
        fs' !! outputPath =
          Some (ZipFile (putFile (templated templateZip mergedZip) documentPath
                           (processTableReferences documentXml 1)))
  | (inl e, fs') =>
      fs' !! tempOutputPathOf outputPath = Some mergedBuffer /\
      (fs' !! outputPath = fs !! outputPath \/
       exists templateZip mergedZip,
         mergedBuffer = ZipFile mergedZip /\
         e = NullPart documentPath /\
         templated templateZip mergedZip !! documentPath = None /\
         fs' !! outputPath = Some (ZipFile (templated templateZip mergedZip)))
  end.
Proof.
  pose proof (tempOutputPath_fresh outputPath) as Hne.
  unfold mergeCallback, applyTemplate, processTablesInDocument, bind,
    writeFileSync, readFileSync, existsSync, unlinkSync, ret.
  set (temp := tempOutputPathOf outputPath) in *.
  set (fs1 := <[temp := mergedBuffer]> fs).
  assert (Htemp : fs1 !! temp = Some mergedBuffer) by apply lookup_insert_eq.
  assert (Hout : fs1 !! outputPath = fs !! outputPath) by (apply lookup_insert_ne; exact Hne).
  destruct (fs1 !! templatePath) as [templateContent|] eqn:Et.
  2: { split; [exact Htemp | left; exact Hout]. }
  rewrite Htemp.
  destruct templateContent as [templateZip | raw]; simpl.
  2: { split; [exact Htemp | left; exact Hout]. }
  destruct mergedBuffer as [mergedZip | raw]; simpl.
  2: { split; [exact Htemp | left; exact Hout]. }
  set (T := templated templateZip mergedZip).
  rewrite lookup_insert_eq. simpl.
  destruct (T !! documentPath) as [documentXml|] eqn:Ed; simpl.
  - rewrite bool_decide_eq_true_2.
    + simpl. split; [reflexivity|]. split; [apply lookup_delete_eq|].
      exists templateZip, mergedZip, documentXml. repeat split; [exact Ed|].
      rewrite lookup_delete_ne by exact Hne. apply lookup_insert_eq.
    + rewrite !lookup_insert_ne by (intros H; apply Hne; now symmetry).
      rewrite Htemp. eauto.
  - split.
    + rewrite lookup_insert_ne by (intros H; apply Hne; now symmetry). exact Htemp.
    + right. exists templateZip, mergedZip. repeat split; [exact Ed|].
      apply lookup_insert_eq.
Qed.

Lemma checkDocuments_frame (documentPaths : list string) (fs : gmap string fileData) :
  (checkDocuments documentPaths fs).2 = fs.
Proof.
  induction documentPaths as [|d ds IH]; simpl; [reflexivity|].
  unfold bind, existsSync. simpl.
  destruct (bool_decide (is_Some (fs !! d))); [exact IH | reflexivity].
Qed.

Lemma readDocuments_frame (documentPaths : list string) (fs : gmap string fileData) :
  (readDocuments documentPaths fs).2 = fs.
Proof.
  induction documentPaths as [|d ds IH]; simpl; [reflexivity|].
  unfold bind, readFileSync. destruct (fs !! d) as [c|]; [|reflexivity].
  destruct (readDocuments ds fs) as [[e|bs] fs0] eqn:E; simpl in *; exact IH.
Qed.

(** Until the callback runs, [mergeDocuments] only reads: it either rejects
    with the file system untouched or hands the buffer that docx-merger made
    from the documents to the callback. *)
Lemma mergeDocuments_cases (docxMerger : list fileData -> option fileData)
    (templatePath : string) (documentPaths : list string) (outputPath : string)
    (fs : gmap string fileData) :
  (exists e, mergeDocuments docxMerger templatePath documentPaths outputPath fs = (inl e, fs)) \/
  (exists buffers mergedBuffer,
      readDocuments documentPaths fs = (inr buffers, fs) /\
      docxMerger buffers = Some mergedBuffer /\
      mergeDocuments docxMerger templatePath documentPaths outputPath fs
        = mergeCallback templatePath outputPath mergedBuffer fs).
Proof.
  assert (G : forall r,
             mergeDocuments docxMerger templatePath documentPaths outputPath fs = r ->
             (exists e, r = (inl e, fs)) \/
             (exists buffers mergedBuffer,
                 readDocuments documentPaths fs = (inr buffers, fs) /\
                 docxMerger buffers = Some mergedBuffer /\
                 r = mergeCallback templatePath outputPath mergedBuffer fs)).
  { intros r Hr. unfold mergeDocuments, bind, existsSync, ret, throw, readFileSync in Hr.
    destruct (bool_decide (is_Some (fs !! templatePath))); [|left; eauto].
    pose proof (checkDocuments_frame documentPaths fs) as Hc.
    destruct (checkDocuments documentPaths fs) as [[e|[]] fs0]; simpl in Hc; subst fs0;
      [left; eauto|].
    pose proof (readDocuments_frame documentPaths fs) as Hd.
    destruct (readDocuments documentPaths fs) as [[e|buffers] fs0]; simpl in Hd; subst fs0;
      [left; eauto|].
    destruct (fs !! templatePath) as [templateBuffer|]; [|left; eauto].
    destruct (docxMerger buffers) as [mergedBuffer|] eqn:Em; [|left; eauto].
    right. exists buffers, mergedBuffer. repeat split; [exact Em | now symmetry]. }
  destruct (G _ eq_refl) as [[e He] | (b & m & H1 & H2 & H3)]; [left | right]; eauto.
Qed.

(** There is no rename in the code: template application writes the final
    path itself and numbering rewrites it.  Were the callback handed a
    package without a main document part, which docx-merger does not
    deliver, template application would have written the final path when
    numbering raises its error. *)
Example package_without_main_part_stays_unnumbered :
  let fs : gmap string fileData :=
    {[ "template.docx" := ZipFile {[ "word/header1.xml" := "<w:hdr/>" ]} ]} in
  let r := mergeCallback "template.docx" "out.docx"
             (ZipFile {[ "word/styles.xml" := "<w:styles/>" ]}) fs in
  fs !! "out.docx" = None /\
  r.1 = inl (NullPart "word/document.xml") /\
  r.2 !! "out.docx" =
    Some (ZipFile {[ "word/header1.xml" := "<w:hdr/>"; "word/styles.xml" := "<w:styles/>" ]}).
Proof. vm_compute. repeat split. Qed.

(** C9, as the code has it.  The route gives every request the same output
    path, and with it the same temporary path; only the uploads have names
    of their own.  When two merges resolve one after the other, the shared
    final path holds the package made from the uploads of the second. *)
Theorem C9_requests_share_their_paths (docxMerger : list fileData -> option fileData)
    (dirname : string) (req1 req2 : request) :
  outputPath dirname req1 = outputPath dirname req2 /\
  tempOutputPathOf (outputPath dirname req1) = tempOutputPathOf (outputPath dirname req2) /\
  (forall (fs fs1 fs2 : gmap string fileData) (p1 p2 : string),
      mergeDocuments docxMerger (templatePath dirname req1) (documentPaths req1)
        (outputPath dirname req1) fs = (inr p1, fs1) ->
      mergeDocuments docxMerger (templatePath dirname req2) (documentPaths req2)
        (outputPath dirname req2) fs1 = (inr p2, fs2) ->
      p1 = p2 /\
      exists buffers templateZip mergedZip documentXml,
        readDocuments (documentPaths req2) fs1 = (inr buffers, fs1) /\
        docxMerger buffers = Some (ZipFile mergedZip) /\
        templated templateZip mergedZip !! documentPath = Some documentXml /\
        fs2 !! p1 =
          Some (ZipFile (putFile (templated templateZip mergedZip) documentPath
                           (processTableReferences documentXml 1)))).
Proof.
  split; [reflexivity|]. split; [reflexivity|].
  intros fs fs1 fs2 p1 p2 H1 H2.
  destruct (mergeDocuments_cases docxMerger (templatePath dirname req1) (documentPaths req1)
              (outputPath dirname req1) fs) as [[e He] | (b1 & m1 & _ & _ & Hc1)];
    [rewrite H1 in He; discriminate|].
  destruct (mergeDocuments_cases docxMerger (templatePath dirname req2) (documentPaths req2)
              (outputPath dirname req2) fs1) as [[e He] | (b2 & m2 & Hr2 & Hm2 & Hc2)];
    [rewrite H2 in He; discriminate|].
  pose proof (mergeCallback_outcome
                (templatePath dirname req1) (outputPath dirname req1) m1 fs) as G1.
  pose proof (mergeCallback_outcome
                (templatePath dirname req2) (outputPath dirname req2) m2 fs1) as G2.
  rewrite <- Hc1, H1 in G1. rewrite <- Hc2, H2 in G2.
  destruct G1 as (-> & _). destruct G2 as (-> & _ & tz & mz & doc & -> & Hd & Hf).
  split; [reflexivity|]. exists b2, tz, mz, doc. repeat split; assumption.
Qed.

(** The theorem at two requests served one after the other. *)
Lemma C9_second_request_takes_the_final_path :
  let fs1 := (mergeDocuments Samples.handThrough (templatePath "/srv/app" Samples.requestA)
                (documentPaths Samples.requestA) (outputPath "/srv/app" Samples.requestA)
                Samples.uploadedFiles).2 in
  let fs2 := (mergeDocuments Samples.handThrough (templatePath "/srv/app" Samples.requestB)
                (documentPaths Samples.requestB) (outputPath "/srv/app" Samples.requestB)
                fs1).2 in
  outputPath "/srv/app" Samples.requestA = outputPath "/srv/app" Samples.requestB /\
  exists buffers templateZip mergedZip documentXml,
    readDocuments (documentPaths Samples.requestB) fs1 = (inr buffers, fs1) /\
    Samples.handThrough buffers = Some (ZipFile mergedZip) /\
    templated templateZip mergedZip !! documentPath = Some documentXml /\
    fs2 !! outputPath "/srv/app" Samples.requestA =
      Some (ZipFile (putFile (templated templateZip mergedZip) documentPath
                       (processTableReferences documentXml 1))).
Proof.
  cbv zeta.
  destruct (C9_requests_share_their_paths Samples.handThrough "/srv/app"
              Samples.requestA Samples.requestB) as (H1 & _ & H3).
  split; [exact H1|].
  refine (proj2 (H3 Samples.uploadedFiles _ _
                    (outputPath "/srv/app" Samples.requestA)
                    (outputPath "/srv/app" Samples.requestB) _ _));
    vm_compute; reflexivity.
Defined.

(** C9, as the specification states it, fails: two requests with different
    uploads are given one and the same output path and temporary path. *)
Lemma C9_output_path_is_not_request_scoped :
  files Samples.requestA <> files Samples.requestB /\
  outputPath "/srv/app" Samples.requestA = outputPath "/srv/app" Samples.requestB /\
  tempOutputPathOf (outputPath "/srv/app" Samples.requestA)
    = tempOutputPathOf (outputPath "/srv/app" Samples.requestB).
Proof. split; [intros [=] | split; reflexivity]. Qed.

End Orchestration.

(** ** Marks and consumed numbers *)

Section MarksAndNumbers.

Import JS TableHandler Spec.

Lemma occurrences_cons (lit : string) (c : ascii) (t : string) :
  occurrences lit (String c t) =
  (if startsWith lit (String c t) then 1 else 0) + occurrences lit t.
Proof. reflexivity. Qed.

Lemma startsWith_tail_lt (l x z z' : string) :
  noLt l = true ->
  startsWith "<" z = true -> startsWith "<" z' = true ->
  startsWith l (x ++ z) = startsWith l (x ++ z').
Proof.
  revert x; induction l as [|a l IH]; intros x Hl Hz Hz'; [reflexivity|].
  simpl in Hl. apply andb_true_iff in Hl as [Ha Hl].
  destruct x as [|b x]; simpl.
  - destruct z as [|c z]; [simpl in Hz; discriminate Hz|].
    destruct z' as [|c' z']; [simpl in Hz'; discriminate Hz'|].
    change (startsWith "<" (String c z)) with (if Ascii.eqb "<" c then true else false) in Hz.
    change (startsWith "<" (String c' z')) with (if Ascii.eqb "<" c' then true else false) in Hz'.
    destruct (Ascii.eqb "<" c) eqn:Ec; [|discriminate Hz].
    destruct (Ascii.eqb "<" c') eqn:Ec'; [|discriminate Hz'].
    apply Ascii.eqb_eq in Ec, Ec'. subst c c'.
    apply negb_true_iff in Ha. now rewrite Ha.
  - destruct (Ascii.eqb a b); [now apply IH | reflexivity].
Qed.

(** The places in front of a text that begins with [<] hold the same marks
    whatever that text is. *)
Lemma occurrences_front (x z z' : string) :
  startsWith "<" z = true -> startsWith "<" z' = true ->
  occurrences REF_NUMBER_ADDED (x ++ z) + occurrences REF_NUMBER_ADDED z' =
  occurrences REF_NUMBER_ADDED (x ++ z') + occurrences REF_NUMBER_ADDED z.
Proof.
  intros Hz Hz'. induction x as [|c x IH]; [simpl; lia|].
  change (occurrences REF_NUMBER_ADDED (String c x ++ z))
    with ((if startsWith REF_NUMBER_ADDED (String c (x ++ z)) then 1 else 0)
          + occurrences REF_NUMBER_ADDED (x ++ z)).
  change (occurrences REF_NUMBER_ADDED (String c x ++ z'))
    with ((if startsWith REF_NUMBER_ADDED (String c (x ++ z')) then 1 else 0)
          + occurrences REF_NUMBER_ADDED (x ++ z')).
  assert (E : startsWith REF_NUMBER_ADDED (String c (x ++ z))
              = startsWith REF_NUMBER_ADDED (String c (x ++ z'))).
  { unfold REF_NUMBER_ADDED.
    change (startsWith "<REF_NUMBER_ADDED>" (String c (x ++ z)))
      with (if Ascii.eqb "<" c then startsWith "REF_NUMBER_ADDED>" (x ++ z) else false).
    change (startsWith "<REF_NUMBER_ADDED>" (String c (x ++ z')))
      with (if Ascii.eqb "<" c then startsWith "REF_NUMBER_ADDED>" (x ++ z') else false).
    destruct (Ascii.eqb "<" c); [|reflexivity].
    now apply startsWith_tail_lt. }
  rewrite E. lia.
Qed.

(** A text in which no [<R] occurs and which ends with [>] adds no mark in
    front of anything. *)
Lemma occurrences_quiet (p0 y : string) :
  includes "<R" (p0 ++ ">") = false ->
  occurrences REF_NUMBER_ADDED ((p0 ++ ">") ++ y) = occurrences REF_NUMBER_ADDED y.
Proof.
  induction p0 as [|c p IH]; intros Hq.
  - reflexivity.
  - change (occurrences REF_NUMBER_ADDED ((String c p ++ ">") ++ y))
      with ((if startsWith REF_NUMBER_ADDED (String c ((p ++ ">") ++ y)) then 1 else 0)
            + occurrences REF_NUMBER_ADDED ((p ++ ">") ++ y)).
    rewrite IH by exact (includes_cons_false _ _ _ Hq).
    destruct (startsWith REF_NUMBER_ADDED (String c ((p ++ ">") ++ y))) eqn:E; [exfalso|reflexivity].
    assert (Hs : startsWith "<R" (String c (p ++ ">")) = true).
    { assert (E2 : startsWith "<R" (String c ((p ++ ">") ++ y)) = true)
        by (apply (startsWith_trans _ REF_NUMBER_ADDED); [reflexivity | exact E]).
      assert (Hlen : String.length "<R" <= String.length (String c (p ++ ">")))
        by (simpl; rewrite append_length; simpl; lia).
      pose proof (startsWith_local "<R" (String c (p ++ ">")) EmptyString y Hlen) as L.
      rewrite append_nil_r in L. rewrite L. exact E2. }
    change (String c p ++ ">") with (String c (p ++ ">")) in Hq.
    rewrite (startsWith_includes _ _ Hs) in Hq. discriminate.
Qed.

(** The mark itself counts once. *)
Lemma occurrences_mark (y : string) :
  occurrences REF_NUMBER_ADDED (REF_NUMBER_ADDED ++ y) = 1 + occurrences REF_NUMBER_ADDED y.
Proof. reflexivity. Qed.

(** Digits add no mark. *)
Lemma occurrences_number (n : nat) (y : string) :
  occurrences REF_NUMBER_ADDED (numberToString n ++ y) = occurrences REF_NUMBER_ADDED y.
Proof.
  unfold numberToString. generalize (Nat.to_uint n).
  induction u; simpl; auto.
Qed.

(** A text without [<R] holds no mark. *)
Lemma occurrences_none (s : string) :
  includes "<R" s = false -> occurrences REF_NUMBER_ADDED s = 0.
Proof.
  induction s as [|c s IH]; intros Hq; [reflexivity|].
  rewrite occurrences_cons, IH by exact (includes_cons_false _ _ _ Hq).
  destruct (startsWith REF_NUMBER_ADDED (String c s)) eqn:E; [exfalso|reflexivity].
  assert (E2 : startsWith "<R" (String c s) = true)
    by (apply (startsWith_trans _ REF_NUMBER_ADDED); [reflexivity | exact E]).
  rewrite (startsWith_includes _ _ E2) in Hq. discriminate.
Qed.

(** The scan for marks counts the places at which a mark begins. *)
Lemma countFrom_occurrences (s : string) (k : nat) :
  countFrom REF_NUMBER_ADDED k s = occurrences REF_NUMBER_ADDED (drop k s).
Proof.
  revert k; induction s as [|c t IH]; intros k.
  - destruct k; reflexivity.
  - destruct k as [|k]; [|simpl; apply IH].
    change (drop 0 (String c t)) with (String c t).
    rewrite occurrences_cons.
    change (countFrom REF_NUMBER_ADDED 0 (String c t))
      with (if startsWith REF_NUMBER_ADDED (String c t)
            then S (countFrom REF_NUMBER_ADDED (String.length REF_NUMBER_ADDED - 1) t)
            else countFrom REF_NUMBER_ADDED 0 t).
    destruct (startsWith REF_NUMBER_ADDED (String c t)) eqn:E.
    + rewrite IH. pose proof (startsWith_inv _ _ E) as Hs.
      unfold REF_NUMBER_ADDED in Hs. simpl in Hs. injection Hs as _ Ht.
      rewrite Ht. reflexivity.
    + rewrite IH. reflexivity.
Qed.

Lemma countMatches_occurrences (s : string) :
  countMatches REF_NUMBER_ADDED s = occurrences REF_NUMBER_ADDED s.
Proof. unfold countMatches. now rewrite countFrom_occurrences. Qed.

(** A literal that is found in a text is found at the same place when more
    text follows. *)
Lemma splitOn_app_l (pat a y b x : string) :
  splitOn pat a = Some (b, x) -> splitOn pat (a ++ y) = Some (b, x ++ y).
Proof.
  revert b; induction a as [|c a IH]; intros b; rewrite splitOn_eq.
  - destruct (startsWith pat EmptyString) eqn:E; [|discriminate].
    intros [= <- <-]. destruct pat; [|discriminate E].
    simpl. rewrite splitOn_eq. reflexivity.
  - destruct (startsWith pat (String c a)) eqn:E.
    + intros [= <- <-]. pose proof (startsWith_inv _ _ E) as Hp.
      rewrite Hp at 1. rewrite append_assoc. apply splitOn_prefix.
    + destruct (splitOn pat a) as [[b' x']|] eqn:E'; [|discriminate].
      intros [= <- <-].
      change (String c a ++ y) with (String c (a ++ y)).
      rewrite splitOn_eq, (IH _ eq_refl).
      replace (startsWith pat (String c (a ++ y))) with false; [reflexivity|].
      rewrite <- E. symmetry.
      change (String c (a ++ y)) with (String c a ++ y).
      rewrite <- (append_nil_r (String c a)) at 2.
      apply startsWith_local.
      rewrite (splitOn_inv _ _ _ _ E'). simpl. rewrite !append_length. lia.
Qed.

Lemma matchAllFrom_skip (l0 : string) (lits : list string) (s : string) (k : nat) :
  matchAllFrom l0 lits k s = matchAllFrom l0 lits 0 (drop k s).
Proof.
  revert k; induction s as [|c t IH]; intros k.
  - destruct k; reflexivity.
  - destruct k as [|k]; [reflexivity | simpl; apply IH].
Qed.

(** The first of all matches, the text in front of it and the text behind
    it, in which the scan goes on. *)
Lemma matchAll_cons (l0 : string) (lits : list string) (s m : string) (ms : list string) :
  l0 <> EmptyString ->
  matchAll l0 lits s = m :: ms ->
  exists g rest, s = g ++ m ++ rest /\ matchAll l0 lits rest = ms.
Proof.
  intros Hl0. unfold matchAll. induction s as [|c t IH]; [discriminate|].
  simpl. destruct (matchAt l0 lits (String c t)) as [m0|] eqn:E.
  - intros [= <- <-].
    destruct (matchAt_inv _ _ _ _ E) as (m' & r & Hm & Hs & _).
    exists EmptyString, r. split; [exact Hs|].
    destruct m0 as [|a m0]; [destruct l0; [contradiction | discriminate]|].
    simpl in Hs. injection Hs as _ ->.
    rewrite (matchAllFrom_skip l0 lits (m0 ++ r)).
    replace (String.length (String a m0) - 1) with (String.length m0)
      by (simpl; lia).
    rewrite drop_app. reflexivity.
  - intros H. destruct (IH H) as (g & rest & -> & Hr).
    exists (String c g), rest. split; [reflexivity | exact Hr].
Qed.

Lemma matchAll_In (l0 : string) (lits : list string) (s m : string) :
  l0 <> EmptyString ->
  In m (matchAll l0 lits s) -> exists b a, s = b ++ m ++ a.
Proof.
  intros Hl0.
  remember (matchAll l0 lits s) as ms eqn:E. revert s E.
  induction ms as [|m0 ms IH]; intros s E Hin; [contradiction|].
  symmetry in E. destruct (matchAll_cons _ _ _ _ _ Hl0 E) as (g & rest & -> & Hr).
  destruct Hin as [<- | Hin].
  - now exists g, rest.
  - destruct (IH rest (eq_sym Hr) Hin) as (b & a & ->).
    exists (g ++ m0 ++ b), a. rewrite !append_assoc. reflexivity.
Qed.

Lemma matchFirst_shape (l0 l1 s m : string) :
  matchFirst l0 [l1] s = Some m -> exists mid, m = l0 ++ mid ++ l1.
Proof.
  induction s as [|c s IH]; rewrite matchFirst_eq.
  - destruct (matchAt l0 [l1] EmptyString) as [m0|] eqn:E; [|discriminate].
    intros [= <-]. destruct (matchAt_inv _ _ _ _ E) as (m' & r & -> & _ & Hc).
    simpl in Hc. destruct (splitOn l1 _) as [[gap rest]|]; [|discriminate].
    injection Hc as <- _. exists gap. now rewrite append_nil_r.
  - destruct (matchAt l0 [l1] (String c s)) as [m0|] eqn:E; [|exact IH].
    intros [= <-]. destruct (matchAt_inv _ _ _ _ E) as (m' & r & -> & _ & Hc).
    simpl in Hc. destruct (splitOn l1 _) as [[gap rest]|]; [|discriminate].
    injection Hc as <- _. exists gap. now rewrite append_nil_r.
Qed.

Lemma numberToString_noDollar (n : nat) : noDollar (numberToString n) = true.
Proof. unfold numberToString. generalize (Nat.to_uint n). induction u; simpl; auto. Qed.

Lemma numberRun_noDollar (n : nat) : noDollar (numberRun n) = true.
Proof.
  unfold numberRun. simpl. rewrite noDollar_app, numberToString_noDollar. reflexivity.
Qed.

(** The serial-number run brings exactly one mark. *)
Lemma occurrences_numberRun (n : nat) (z : string) :
  occurrences REF_NUMBER_ADDED (numberRun n ++ z) = 1 + occurrences REF_NUMBER_ADDED z.
Proof.
  unfold numberRun. rewrite !append_assoc.
  change (occurrences REF_NUMBER_ADDED
            ("<w:r><w:t>" ++ numberToString n ++ "</w:t></w:r></w:p><REF_NUMBER_ADDED>" ++ z))
    with (occurrences REF_NUMBER_ADDED
            (numberToString n ++ "</w:t></w:r></w:p><REF_NUMBER_ADDED>" ++ z)).
  rewrite occurrences_number. reflexivity.
Qed.

(** A first cell whose paragraph has a properties block that is followed by
    the characters the code searches for. *)
Lemma processRowFirstCell_properties_found (rowXml cell paragraph pPr b a : string) (n : nat) :
  matchFirst "<w:tc>" ["</w:tc>"] rowXml = Some cell ->
  matchFirst "<w:p" ["</w:p>"] cell = Some paragraph ->
  matchFirst "<w:pPr>" ["</w:pPr>"] paragraph = Some pPr ->
  splitOn (pPr ++ "[sS]*?</w:p>") paragraph = Some (b, a) ->
  noDollar cell = true ->
  exists rb ra cb ca,
    rowXml = rb ++ cell ++ ra /\ cell = cb ++ paragraph ++ ca /\
    processRowFirstCell rowXml n =
      rb ++ (cb ++ (b ++ (pPr ++ numberRun n) ++ a) ++ ca) ++ ra.
Proof.
  intros Hc Hp Hq E Hdc. unfold processRowFirstCell. rewrite Hc, Hp, Hq.
  destruct (matchFirst_substring _ _ _ _ Hp) as (cb0 & ca0 & Hcell).
  assert (Hdp : noDollar paragraph = true)
    by (rewrite Hcell in Hdc; exact (noDollar_sub _ _ _ Hdc)).
  destruct (matchFirst_substring _ _ _ _ Hq) as (pb & pa & Hpar).
  assert (Hdq : noDollar pPr = true)
    by (rewrite Hpar in Hdp; exact (noDollar_sub _ _ _ Hdp)).
  assert (Hnum : noDollar (pPr ++ numberRun n) = true)
    by (rewrite noDollar_app, Hdq, numberRun_noDollar; reflexivity).
  rewrite (replace_found _ _ _ _ _ E Hnum).
  pose proof (splitOn_inv _ _ _ _ E) as Hpb.
  assert (Hnp : noDollar (b ++ (pPr ++ numberRun n) ++ a) = true).
  { rewrite Hpb in Hdp. exact (noDollar_swap _ _ _ _ Hdp Hnum). }
  destruct (replace_match _ _ _ _ _ Hp Hnp) as (cb & ca & Hcell' & _ & ->).
  assert (Hnc : noDollar (cb ++ (b ++ (pPr ++ numberRun n) ++ a) ++ ca) = true).
  { rewrite Hcell' in Hdc. exact (noDollar_swap _ _ _ _ Hdc Hnp). }
  destruct (replace_match _ _ _ _ _ Hc Hnc) as (rb & ra & Hrow & _ & ->).
  exists rb, ra, cb, ca. repeat split; assumption.
Qed.

(** What the writer does to a row without a dollar sign and without [<R]:
    it leaves the row as it is, or it puts a text with exactly one mark in
    the place of a text without a mark. *)
Lemma changed_row_shape (rowXml : string) (n : nat) :
  noDollar rowXml = true -> includes "<R" rowXml = false ->
  processRowFirstCell rowXml n = rowXml \/
  (noDollar (processRowFirstCell rowXml n) = true /\
   exists x p w y,
     rowXml = x ++ p ++ y /\ processRowFirstCell rowXml n = x ++ w ++ y /\
     startsWith "<" p = true /\ startsWith "<" w = true /\
     (forall z, occurrences REF_NUMBER_ADDED (p ++ z) = occurrences REF_NUMBER_ADDED z) /\
     (forall z, occurrences REF_NUMBER_ADDED (w ++ z) = 1 + occurrences REF_NUMBER_ADDED z)).
Proof.
  intros Hd Hq.
  destruct (matchFirst "<w:tc>" ["</w:tc>"] rowXml) as [cell|] eqn:Hc.
  2: { left. unfold processRowFirstCell. now rewrite Hc. }
  destruct (matchFirst_substring _ _ _ _ Hc) as (rb0 & ra0 & Hrow0).
  assert (Hdc : noDollar cell = true) by (rewrite Hrow0 in Hd; exact (noDollar_sub _ _ _ Hd)).
  assert (Hqc : includes "<R" cell = false)
    by (rewrite Hrow0 in Hq; exact (includes_sub_false _ _ _ _ Hq)).
  destruct (matchFirst "<w:p" ["</w:p>"] cell) as [paragraph|] eqn:Hp.
  2: { right.
       destruct (processRowFirstCell_empty_cell _ _ n Hc Hp Hdc)
         as (rb & ra & rest & Hrow & Hcell & Hres).
       split.
       - rewrite Hres. rewrite Hrow in Hd. apply (noDollar_swap _ _ _ _ Hd).
         rewrite Hcell in Hdc. simpl in Hdc |- *.
         rewrite noDollar_app, numberToString_noDollar. simpl. exact Hdc.
       - exists rb, "<w:tc>", ("<w:tc><w:p>" ++ numberRun n), (rest ++ ra).
         split; [rewrite Hrow, Hcell; now rewrite !append_assoc|].
         split; [rewrite Hres; unfold numberRun; now flatten_appends|].
         split; [reflexivity|]. split; [reflexivity|]. split.
         + intros z. reflexivity.
         + intros z. rewrite append_assoc.
           change (occurrences REF_NUMBER_ADDED ("<w:tc><w:p>" ++ numberRun n ++ z))
             with (occurrences REF_NUMBER_ADDED (numberRun n ++ z)).
           apply occurrences_numberRun. }
  destruct (matchFirst_substring _ _ _ _ Hp) as (cb0 & ca0 & Hcell0).
  assert (Hdp : noDollar paragraph = true)
    by (rewrite Hcell0 in Hdc; exact (noDollar_sub _ _ _ Hdc)).
  assert (Hqp : includes "<R" paragraph = false)
    by (rewrite Hcell0 in Hqc; exact (includes_sub_false _ _ _ _ Hqc)).
  destruct (matchFirst_shape _ _ _ _ Hp) as (pmid & Hpshape).
  destruct (matchFirst "<w:pPr>" ["</w:pPr>"] paragraph) as [pPr|] eqn:Hpp.
  2: { right.
       destruct (processRowFirstCell_plain _ _ _ n Hc Hp Hpp Hdc)
         as (rb & ra & cb & ca & Hrow & Hcell & Hres).
       assert (Hw : "<w:p><w:r><w:t>" ++ numberToString n
                      ++ "</w:t></w:r></w:p><REF_NUMBER_ADDED>" = "<w:p>" ++ numberRun n)
         by reflexivity.
       rewrite Hw in Hres.
       split.
       - rewrite Hres. rewrite Hrow in Hd. apply (noDollar_swap _ _ _ _ Hd).
         rewrite Hcell in Hdc. apply (noDollar_swap _ _ _ _ Hdc).
         simpl. apply numberRun_noDollar.
       - exists (rb ++ cb), paragraph, ("<w:p>" ++ numberRun n), (ca ++ ra).
         split; [rewrite Hrow, Hcell; now rewrite !append_assoc|].
         split; [rewrite Hres; now rewrite !append_assoc|].
         split; [rewrite Hpshape; reflexivity|]. split; [reflexivity|]. split.
         + intros z.
           assert (Hgt : paragraph = ("<w:p" ++ pmid ++ "</w:p") ++ ">")
             by (rewrite Hpshape, !append_assoc; reflexivity).
           rewrite Hgt. apply occurrences_quiet. rewrite <- Hgt. exact Hqp.
         + intros z. rewrite append_assoc.
           change (occurrences REF_NUMBER_ADDED ("<w:p>" ++ numberRun n ++ z))
             with (occurrences REF_NUMBER_ADDED (numberRun n ++ z)).
           apply occurrences_numberRun. }
  destruct (matchFirst_substring _ _ _ _ Hpp) as (pb0 & pa0 & Hpar0).
  assert (Hqq : includes "<R" pPr = false)
    by (rewrite Hpar0 in Hqp; exact (includes_sub_false _ _ _ _ Hqp)).
  destruct (matchFirst_shape _ _ _ _ Hpp) as (qmid & Hqshape).
  destruct (splitOn (pPr ++ "[sS]*?</w:p>") paragraph) as [[b a]|] eqn:E.
  - right.
    destruct (processRowFirstCell_properties_found _ _ _ _ _ _ n Hc Hp Hpp E Hdc)
      as (rb & ra & cb & ca & Hrow & Hcell & Hres).
    pose proof (splitOn_inv _ _ _ _ E) as Hpar.
    assert (Hdq : noDollar pPr = true)
      by (rewrite Hpar0 in Hdp; exact (noDollar_sub _ _ _ Hdp)).
    assert (Hnum : noDollar (pPr ++ numberRun n) = true)
      by (rewrite noDollar_app, Hdq, numberRun_noDollar; reflexivity).
    split.
    + rewrite Hres. rewrite Hrow in Hd. apply (noDollar_swap _ _ _ _ Hd).
      rewrite Hcell in Hdc. apply (noDollar_swap _ _ _ _ Hdc).
      rewrite Hpar in Hdp. exact (noDollar_swap _ _ _ _ Hdp Hnum).
    + exists (rb ++ cb ++ b), (pPr ++ "[sS]*?</w:p>"), (pPr ++ numberRun n), (a ++ ca ++ ra).
      split; [rewrite Hrow, Hcell, Hpar; now rewrite !append_assoc|].
      split; [rewrite Hres; now rewrite !append_assoc|].
      split; [rewrite Hqshape; reflexivity|]. split; [rewrite Hqshape; reflexivity|].
      assert (Hquiet : forall z, occurrences REF_NUMBER_ADDED (pPr ++ z)
                                 = occurrences REF_NUMBER_ADDED z).
      { intros z.
        assert (Hgt : pPr = ("<w:pPr>" ++ qmid ++ "</w:pPr") ++ ">")
          by (rewrite Hqshape, !append_assoc; reflexivity).
        rewrite Hgt. apply occurrences_quiet. rewrite <- Hgt. exact Hqq. }
      split.
      * intros z. rewrite append_assoc, Hquiet. reflexivity.
      * intros z. rewrite append_assoc, Hquiet. apply occurrences_numberRun.
  - left. unfold processRowFirstCell. rewrite Hc, Hp, Hpp.
    rewrite (replace_absent _ _ _ E).
    rewrite (replace_self cell paragraph Hdp). apply replace_self, Hdc.
Qed.

Lemma startsWith_app_r (l p z : string) :
  startsWith l p = true -> startsWith l (p ++ z) = true.
Proof.
  intros H. rewrite (startsWith_inv _ _ H), append_assoc. apply startsWith_app.
Qed.

(** A row that the writer changes gains exactly one mark, wherever it
    stands. *)
Lemma changed_row_adds_one_mark (rowXml : string) (n : nat) (b a : string) :
  noDollar rowXml = true -> includes "<R" rowXml = false ->
  processRowFirstCell rowXml n <> rowXml ->
  noDollar (processRowFirstCell rowXml n) = true /\
  occurrences REF_NUMBER_ADDED (b ++ processRowFirstCell rowXml n ++ a)
    = occurrences REF_NUMBER_ADDED (b ++ rowXml ++ a) + 1.
Proof.
  intros Hd Hq Hne.
  destruct (changed_row_shape rowXml n Hd Hq) as [Heq | (Hdp & x & p & w & y & Hrow & Hres & Hp & Hw & Hop & How)];
    [contradiction|].
  split; [exact Hdp|].
  rewrite Hres. rewrite Hrow.
  replace (b ++ (x ++ w ++ y) ++ a) with ((b ++ x) ++ (w ++ y ++ a))
    by (rewrite !append_assoc; reflexivity).
  replace (b ++ (x ++ p ++ y) ++ a) with ((b ++ x) ++ (p ++ y ++ a))
    by (rewrite !append_assoc; reflexivity).
  pose proof (occurrences_front (b ++ x) (p ++ y ++ a) (w ++ y ++ a)
                (startsWith_app_r _ _ _ Hp) (startsWith_app_r _ _ _ Hw)) as G.
  rewrite Hop, How in G. lia.
Qed.

(** The row loop keeps the count of marks and the counter in step. *)
Lemma processRows_marks (start : nat) (rows : list string) :
  forall (i : nat) (U R xml : string) (n : nat),
    xml = U ++ R ->
    tableRows R = rows ->
    noDollar R = true -> includes "<R" R = false ->
    occurrences REF_NUMBER_ADDED xml + start = n ->
    occurrences REF_NUMBER_ADDED (fst (processRows rows i (xml, n))) + start
      = snd (processRows rows i (xml, n)).
Proof.
  induction rows as [|m ms IH]; intros i U R xml n Hxml Hrows Hd Hq Hocc; [exact Hocc|].
  assert (Hne : "<w:tr" <> EmptyString) by discriminate.
  destruct (matchAll_cons _ _ _ _ _ Hne Hrows) as (g & rest & HR & Hrest).
  assert (Hdm : noDollar m = true) by (rewrite HR in Hd; exact (noDollar_sub _ _ _ Hd)).
  assert (Hqm : includes "<R" m = false)
    by (rewrite HR in Hq; exact (includes_sub_false _ _ _ _ Hq)).
  assert (Hdr : noDollar rest = true).
  { rewrite HR, !noDollar_app, !andb_true_iff in Hd. tauto. }
  assert (Hqr : includes "<R" rest = false).
  { rewrite HR in Hq. rewrite <- (append_nil_r rest) in Hq.
    rewrite <- append_assoc in Hq. exact (includes_sub_false _ _ _ _ Hq). }
  assert (Hkeep : occurrences REF_NUMBER_ADDED (fst (processRows ms (S i) (xml, n))) + start
                  = snd (processRows ms (S i) (xml, n))).
  { apply (IH (S i) (U ++ g ++ m) rest); try assumption.
    rewrite Hxml, HR, !append_assoc. reflexivity. }
  simpl processRows. unfold processRow.
  destruct (isHeaderRow (i + 1)); [exact Hkeep|].
  unfold numberRow. simpl fst. simpl snd.
  destruct (String.eqb (processRowFirstCell m n) m) eqn:Eq; simpl negb; cbv iota;
    [exact Hkeep|].
  apply String.eqb_neq in Eq.
  destruct (splitOn m ((U ++ g) ++ m ++ EmptyString)) as [[b a]|] eqn:Es;
    [|now apply splitOn_complete in Es].
  pose proof (splitOn_inv _ _ _ _ Es) as Hba.
  pose proof (splitOn_app_l _ _ rest _ _ Es) as Es'.
  assert (Hx : xml = ((U ++ g) ++ m ++ EmptyString) ++ rest).
  { rewrite Hxml, HR, append_nil_r, !append_assoc. reflexivity. }
  destruct (changed_row_adds_one_mark m n b (a ++ rest) Hdm Hqm Eq) as [Hdp Hone].
  rewrite Hx, (replace_found _ _ _ _ _ Es' Hdp).
  apply (IH (S i) (b ++ processRowFirstCell m n ++ a) rest); try assumption.
  - rewrite !append_assoc. reflexivity.
  - rewrite Hone. rewrite Hx, Hba, !append_assoc in Hocc. lia.
Qed.

(** The places of the processed table at which a mark begins, and the
    counter of the row loop. *)
Lemma processTableState_marks (tableXml : string) (start : nat) :
  noDollar tableXml = true -> includes "<R" tableXml = false ->
  occurrences REF_NUMBER_ADDED (fst (processTableState tableXml start)) + start
    = snd (processTableState tableXml start).
Proof.
  intros Hd Hq. unfold processTableState.
  destruct (tableRows tableXml) as [|r rows] eqn:E.
  - simpl. rewrite (occurrences_none _ Hq). lia.
  - pose proof (processRows_marks start (r :: rows) 0 EmptyString tableXml tableXml start
                  eq_refl E Hd Hq) as G.
    rewrite (occurrences_none _ Hq) in G. exact (G eq_refl).
Qed.

(** X3: in a table without a dollar sign and without [<R], the marks of the
    processed table are as many as the numbers the row loop has consumed. *)
Theorem marks_count_consumed_numbers (tableXml : string) (tableIndex start : nat) :
  noDollar tableXml = true -> includes "<R" tableXml = false ->
  snd (processTableState tableXml start)
    = start + countMatches REF_NUMBER_ADDED (processTable tableXml tableIndex start).
Proof.
  intros Hd Hq. unfold processTable. rewrite countMatches_occurrences.
  pose proof (processTableState_marks tableXml start Hd Hq) as G. lia.
Qed.

Lemma marks_of_a_plain_table :
  snd (processTableState Samples.plainTable 1)
    = 1 + countMatches REF_NUMBER_ADDED (processTable Samples.plainTable 1 1).
Proof.
  apply marks_count_consumed_numbers; vm_compute; reflexivity.
Defined.

End MarksAndNumbers.

Section NoMarkLeft.

Import JS TableHandler Spec Marks Samples Cases.

(** *** Text without [<R] *)

Lemma quiet_cons (c : ascii) (s : string) :
  includes "<R" (String c s) = false <->
  startsWith "<R" (String c s) = false /\ includes "<R" s = false.
Proof.
  unfold includes. rewrite (splitOn_eq "<R" (String c s)).
  destruct (startsWith "<R" (String c s)).
  - split; [discriminate | intros [H _]; discriminate].
  - destruct (splitOn "<R" s) as [[b a]|]; split; try discriminate; auto.
    intros [_ H]; discriminate.
Qed.

Lemma quiet_prefix (x y : string) :
  includes "<R" (x ++ y) = false -> includes "<R" x = false.
Proof.
  intros H. apply (includes_sub_false "<R" EmptyString x y). exact H.
Qed.

Lemma quiet_suffix (x y : string) :
  includes "<R" (x ++ y) = false -> includes "<R" y = false.
Proof.
  intros H. apply (includes_sub_false "<R" x y EmptyString).
  rewrite append_nil_r. exact H.
Qed.

(** Joining two texts without [<R] gives one unless the first ends in [<]
    and the second begins with [R]. *)
Lemma quiet_app_lt (x z : string) :
  includes "<R" x = false -> includes "<R" z = false -> startsWith "<" z = true ->
  includes "<R" (x ++ z) = false.
Proof.
  intros Hx Hz Hlt. induction x as [|c x IH]; [exact Hz|].
  apply quiet_cons in Hx. destruct Hx as [Hc Hx].
  change (String c x ++ z) with (String c (x ++ z)).
  apply quiet_cons. split; [|exact (IH Hx)].
  change (startsWith "<R" (String c (x ++ z)))
    with (if Ascii.eqb "<" c then startsWith "R" (x ++ z) else false).
  change (startsWith "<R" (String c x))
    with (if Ascii.eqb "<" c then startsWith "R" x else false) in Hc.
  destruct (Ascii.eqb "<" c); [|reflexivity].
  destruct x as [|d x].
  - destruct z as [|e z]; [discriminate|].
    change (startsWith "<" (String e z)) with (if Ascii.eqb "<" e then true else false) in Hlt.
    change (startsWith "R" (EmptyString ++ String e z))
      with (if Ascii.eqb "R" e then true else false).
    destruct (Ascii.eqb "<" e) eqn:E; [|discriminate].
    apply Ascii.eqb_eq in E. subst e. reflexivity.
  - change (startsWith "R" (String d x ++ z)) with (if Ascii.eqb "R" d then true else false).
    change (startsWith "R" (String d x)) with (if Ascii.eqb "R" d then true else false) in Hc.
    exact Hc.
Qed.

Lemma quiet_app_gt (a z : string) :
  includes "<R" (a ++ ">") = false -> includes "<R" z = false ->
  includes "<R" ((a ++ ">") ++ z) = false.
Proof.
  intros Ha Hz. induction a as [|c a IH].
  - change ((EmptyString ++ ">") ++ z) with (String ">" z).
    apply quiet_cons. split; [reflexivity | exact Hz].
  - change (String c a ++ ">") with (String c (a ++ ">")) in Ha.
    apply quiet_cons in Ha. destruct Ha as [Hc Ha].
    change ((String c a ++ ">") ++ z) with (String c ((a ++ ">") ++ z)).
    apply quiet_cons. split; [|exact (IH Ha)].
    change (startsWith "<R" (String c ((a ++ ">") ++ z)))
      with (if Ascii.eqb "<" c then startsWith "R" ((a ++ ">") ++ z) else false).
    change (startsWith "<R" (String c (a ++ ">")))
      with (if Ascii.eqb "<" c then startsWith "R" (a ++ ">") else false) in Hc.
    destruct (Ascii.eqb "<" c); [|reflexivity].
    destruct a as [|d a]; [reflexivity|].
    change (startsWith "R" ((String d a ++ ">") ++ z))
      with (if Ascii.eqb "R" d then true else false).
    change (startsWith "R" (String d a ++ ">"))
      with (if Ascii.eqb "R" d then true else false) in Hc.
    exact Hc.
Qed.

Lemma quiet_no_mark (s : string) :
  includes "<R" s = false -> includes REF_NUMBER_ADDED s = false.
Proof.
  intros H. destruct (includes REF_NUMBER_ADDED s) eqn:E; [|reflexivity].
  apply includes_inv in E. destruct E as (b & a & ->).
  change (REF_NUMBER_ADDED ++ a) with ("<R" ++ ("EF_NUMBER_ADDED>" ++ a)) in H.
  rewrite includes_app in H. discriminate.
Qed.

(** *** Text that ends with [>] *)

Lemma closes_app (s t : string) : closes t -> closes (s ++ t).
Proof. intros [t0 ->]. exists (s ++ t0). now rewrite append_assoc. Qed.

Lemma closes_suffix (s t : string) : closes (s ++ t) -> t <> EmptyString -> closes t.
Proof.
  intros [u Hu] Ht. revert u Hu. induction s as [|c s IH]; intros u Hu.
  - exists u. exact Hu.
  - destruct u as [|d u].
    + simpl in Hu. injection Hu as _ Hu. destruct s; [|discriminate].
      simpl in Hu. contradiction.
    + simpl in Hu. injection Hu as _ Hu. exact (IH u Hu).
Qed.

Lemma closes_not_lt (a : string) : ~ closes (a ++ "<").
Proof.
  intros [u Hu]. revert u Hu. induction a as [|c a IH]; intros u Hu.
  - destruct u as [|d u]; [discriminate|]. simpl in Hu. injection Hu as _ Hu.
    destruct u; discriminate.
  - destruct u as [|d u].
    + simpl in Hu. injection Hu as _ Hu. destruct a; discriminate.
    + simpl in Hu. injection Hu as _ Hu. exact (IH u Hu).
Qed.

(** *** Removing the marks *)

Lemma removeAllFrom_skip (lit : string) (s : string) (k : nat) :
  removeAllFrom lit k s = removeAllFrom lit 0 (drop k s).
Proof.
  revert k; induction s as [|c s IH]; intros k; [destruct k; reflexivity|].
  destruct k as [|k]; [reflexivity|]. simpl. apply IH.
Qed.

Lemma removeAll_mark (s : string) :
  removeAll REF_NUMBER_ADDED (REF_NUMBER_ADDED ++ s) = removeAll REF_NUMBER_ADDED s.
Proof.
  unfold removeAll.
  change (removeAllFrom REF_NUMBER_ADDED 0 (REF_NUMBER_ADDED ++ s))
    with (removeAllFrom REF_NUMBER_ADDED 17 ("REF_NUMBER_ADDED>" ++ s)).
  rewrite removeAllFrom_skip. reflexivity.
Qed.

Lemma removeAll_step (c : ascii) (s : string) :
  startsWith "<R" (String c s) = false ->
  removeAll REF_NUMBER_ADDED (String c s) = String c (removeAll REF_NUMBER_ADDED s).
Proof.
  intros H. unfold removeAll. cbn [removeAllFrom].
  destruct (startsWith REF_NUMBER_ADDED (String c s)) eqn:E; [|reflexivity].
  assert (G : startsWith "<R" (String c s) = true)
    by (apply (startsWith_trans "<R" REF_NUMBER_ADDED); [reflexivity | exact E]).
  congruence.
Qed.

(** A front without [<R] that ends with [>] is kept as it is. *)
Lemma removeAll_quiet_front (a z : string) :
  includes "<R" (a ++ ">") = false ->
  removeAll REF_NUMBER_ADDED ((a ++ ">") ++ z) = (a ++ ">") ++ removeAll REF_NUMBER_ADDED z.
Proof.
  intros Ha. induction a as [|c a IH].
  - change ((EmptyString ++ ">") ++ z) with (String ">" z).
    rewrite removeAll_step by reflexivity. reflexivity.
  - change (String c a ++ ">") with (String c (a ++ ">")) in Ha.
    apply quiet_cons in Ha. destruct Ha as [Hc Ha].
    change ((String c a ++ ">") ++ z) with (String c ((a ++ ">") ++ z)).
    rewrite removeAll_step.
    + rewrite (IH Ha). reflexivity.
    + change (startsWith "<R" (String c ((a ++ ">") ++ z)))
        with (if Ascii.eqb "<" c then startsWith "R" ((a ++ ">") ++ z) else false).
      change (startsWith "<R" (String c (a ++ ">")))
        with (if Ascii.eqb "<" c then startsWith "R" (a ++ ">") else false) in Hc.
      destruct (Ascii.eqb "<" c); [|reflexivity].
      destruct a as [|d a]; [reflexivity|].
      change (startsWith "R" ((String d a ++ ">") ++ z))
        with (if Ascii.eqb "R" d then true else false).
      change (startsWith "R" (String d a ++ ">"))
        with (if Ascii.eqb "R" d then true else false) in Hc.
      exact Hc.
Qed.

Lemma removeAll_quiet (s : string) :
  includes "<R" s = false -> removeAll REF_NUMBER_ADDED s = s.
Proof.
  induction s as [|c s IH]; intros H; [reflexivity|].
  apply quiet_cons in H. destruct H as [Hc Hs].
  rewrite removeAll_step by exact Hc. now rewrite (IH Hs).
Qed.

Lemma removeAllFrom_noDollar (lit : string) (s : string) (k : nat) :
  noDollar s = true -> noDollar (removeAllFrom lit k s) = true.
Proof.
  revert k; induction s as [|c s IH]; intros k H; [reflexivity|].
  simpl in H. apply andb_true_iff in H. destruct H as [Hc Hs].
  cbn [removeAllFrom]. destruct k as [|k]; [|apply IH; exact Hs].
  destruct (startsWith lit (String c s)); [apply IH; exact Hs|].
  simpl. rewrite Hc. apply IH; exact Hs.
Qed.

(** With the marks removed, marked text holds no [<R]; if it ended with
    [>] it still does, or nothing is left of it. *)
Lemma marked_stripped (s : string) :
  marked s ->
  includes "<R" (removeAll REF_NUMBER_ADDED s) = false /\
  (closes s -> removeAll REF_NUMBER_ADDED s = EmptyString \/
               closes (removeAll REF_NUMBER_ADDED s)).
Proof.
  induction 1 as [b Hb | b s Hb Hcl Hs [IH1 IH2]].
  - rewrite (removeAll_quiet _ Hb). auto.
  - assert (Hstrip : removeAll REF_NUMBER_ADDED (b ++ REF_NUMBER_ADDED ++ s)
                     = b ++ removeAll REF_NUMBER_ADDED s).
    { destruct Hcl as [-> | [b0 ->]].
      - simpl append. apply removeAll_mark.
      - rewrite (removeAll_quiet_front _ _ Hb), removeAll_mark. reflexivity. }
    rewrite Hstrip. split.
    + destruct Hcl as [-> | [b0 ->]]; [exact IH1 | exact (quiet_app_gt _ _ Hb IH1)].
    + intros Hx.
      assert (Htail : removeAll REF_NUMBER_ADDED s = EmptyString \/
                      closes (removeAll REF_NUMBER_ADDED s)).
      { destruct s as [|c s']; [left; reflexivity|].
        apply IH2. rewrite <- append_assoc in Hx.
        apply (closes_suffix _ _ Hx). discriminate. }
      destruct Htail as [-> | Ht].
      * rewrite append_nil_r. destruct Hcl as [-> | Hc]; [left; reflexivity | right; exact Hc].
      * right. apply closes_app. exact Ht.
Qed.

(** *** Where a row can be found in marked text *)

Lemma startsWith_app_split (m a z : string) :
  startsWith m (a ++ z) = true ->
  startsWith m a = true \/
  exists r, r <> EmptyString /\ m = a ++ r /\ startsWith r z = true.
Proof.
  revert m; induction a as [|c a IH]; intros m H.
  - destruct m as [|d m]; [left; reflexivity|].
    right. exists (String d m). repeat split; [discriminate | exact H].
  - destruct m as [|d m]; [left; reflexivity|].
    change (startsWith (String d m) (String c a ++ z))
      with (if Ascii.eqb d c then startsWith m (a ++ z) else false) in H.
    change (startsWith (String d m) (String c a))
      with (if Ascii.eqb d c then startsWith m a else false).
    destruct (Ascii.eqb d c) eqn:E; [|discriminate].
    apply Ascii.eqb_eq in E. subst d.
    destruct (IH m H) as [Hl | (r & Hr & -> & Hz)]; [left; exact Hl|].
    right. exists r. repeat split; auto.
Qed.

Lemma rowLike_not_at_mark (m s : string) :
  rowLike m -> startsWith m (REF_NUMBER_ADDED ++ s) = false.
Proof.
  intros (_ & Hw & _). destruct (startsWith m (REF_NUMBER_ADDED ++ s)) eqn:E; [|reflexivity].
  pose proof (startsWith_trans _ _ _ Hw E) as G. discriminate G.
Qed.

Lemma rowLike_not_across (m b s : string) :
  rowLike m -> startsWith m b = false ->
  startsWith m (b ++ REF_NUMBER_ADDED ++ s) = false.
Proof.
  intros (Hq & Hw & Hc) Hb.
  destruct (startsWith m (b ++ REF_NUMBER_ADDED ++ s)) eqn:E; [|reflexivity].
  apply startsWith_app_split in E.
  destruct E as [E | (r & Hr & -> & Hz)]; [congruence|].
  exfalso. destruct r as [|c1 r]; [contradiction|].
  change (startsWith (String c1 r) (REF_NUMBER_ADDED ++ s))
    with (if Ascii.eqb c1 "<" then startsWith r ("REF_NUMBER_ADDED>" ++ s) else false) in Hz.
  destruct (Ascii.eqb c1 "<") eqn:E1; [|discriminate].
  apply Ascii.eqb_eq in E1. subst c1.
  destruct r as [|c2 r].
  - exact (closes_not_lt b Hc).
  - change (startsWith (String c2 r) ("REF_NUMBER_ADDED>" ++ s))
      with (if Ascii.eqb c2 "R" then startsWith r ("EF_NUMBER_ADDED>" ++ s) else false) in Hz.
    destruct (Ascii.eqb c2 "R") eqn:E2; [|discriminate].
    apply Ascii.eqb_eq in E2. subst c2.
    change (b ++ String "<" (String "R" r)) with (b ++ "<R" ++ r) in Hq.
    rewrite includes_app in Hq. discriminate.
Qed.

Lemma splitOn_cons_miss (m : string) (c : ascii) (s : string) :
  startsWith m (String c s) = false ->
  splitOn m (String c s) =
  match splitOn m s with
  | Some (b, a) => Some (String c b, a)
  | None => None
  end.
Proof. intros H. rewrite splitOn_eq, H. reflexivity. Qed.

Lemma splitOn_none_cons (m : string) (c : ascii) (s : string) :
  splitOn m (String c s) = None ->
  startsWith m (String c s) = false /\ splitOn m s = None.
Proof.
  rewrite splitOn_eq. destruct (startsWith m (String c s)); [discriminate|].
  destruct (splitOn m s) as [[b a]|]; [discriminate | auto].
Qed.

(** A row never begins inside a mark. *)
Lemma splitOn_behind_mark (m s : string) :
  rowLike m ->
  splitOn m (REF_NUMBER_ADDED ++ s) =
  match splitOn m s with
  | Some (b, a) => Some (REF_NUMBER_ADDED ++ b, a)
  | None => None
  end.
Proof.
  intros Hm. pose proof (rowLike_not_at_mark m s Hm) as H0.
  destruct Hm as (_ & Hw & _).
  destruct m as [|c m]; [discriminate|].
  change (startsWith "<w" (String c m))
    with (if Ascii.eqb "<" c then startsWith "w" m else false) in Hw.
  destruct (Ascii.eqb "<" c) eqn:E; [|discriminate].
  apply Ascii.eqb_eq in E. subst c.
  unfold REF_NUMBER_ADDED in *. cbn [String.append] in *.
  rewrite splitOn_cons_miss by exact H0.
  do 17 (rewrite splitOn_cons_miss by reflexivity).
  destruct (splitOn (String "<" m) s) as [[b a]|]; reflexivity.
Qed.

(** A row that is not found in the front of marked text is looked for
    behind the first mark. *)
Lemma splitOn_behind_front (m b s : string) :
  rowLike m -> splitOn m b = None ->
  splitOn m (b ++ REF_NUMBER_ADDED ++ s) =
  match splitOn m s with
  | Some (u, v) => Some (b ++ REF_NUMBER_ADDED ++ u, v)
  | None => None
  end.
Proof.
  intros Hm. induction b as [|c b IH]; intros Hb.
  - exact (splitOn_behind_mark m s Hm).
  - apply splitOn_none_cons in Hb. destruct Hb as [Hc Hb].
    change (String c b ++ REF_NUMBER_ADDED ++ s) with (String c (b ++ REF_NUMBER_ADDED ++ s)).
    rewrite splitOn_cons_miss.
    + rewrite (IH Hb). destruct (splitOn m s) as [[u v]|]; reflexivity.
    + exact (rowLike_not_across m (String c b) s Hm Hc).
Qed.

(** *** The row loop keeps the text marked *)

Lemma replace_noDollar (s m repl : string) :
  noDollar s = true -> noDollar repl = true -> noDollar (replace s m repl) = true.
Proof.
  intros Hs Hr. destruct (splitOn m s) as [[b a]|] eqn:E.
  - rewrite (replace_found _ _ _ _ _ E Hr).
    rewrite (splitOn_inv _ _ _ _ E) in Hs. exact (noDollar_swap _ _ _ _ Hs Hr).
  - now rewrite (replace_absent _ _ _ E).
Qed.

Lemma rowLike_nonempty (m : string) : rowLike m -> m <> EmptyString.
Proof. intros (_ & Hw & _) ->. discriminate. Qed.

(** Writing a number into the first place at which a row is found keeps
    marked text marked. *)
Lemma marked_replace (X m x p y w0 : string) :
  marked X -> rowLike m -> m = x ++ p ++ y ->
  startsWith "<" w0 = true -> includes "<R" (w0 ++ ">") = false ->
  noDollar (x ++ (w0 ++ ">") ++ REF_NUMBER_ADDED ++ y) = true ->
  marked (replace X m (x ++ (w0 ++ ">") ++ REF_NUMBER_ADDED ++ y)).
Proof.
  intros HX Hm Hrow Hw Hq Hd.
  assert (Hfront : forall u v, includes "<R" (u ++ m ++ v) = false ->
                               includes "<R" ((u ++ x) ++ (w0 ++ ">")) = false).
  { intros u v H. apply quiet_app_lt; [| exact Hq | apply startsWith_app_r; exact Hw].
    rewrite Hrow in H.
    replace (u ++ (x ++ p ++ y) ++ v) with ((u ++ x) ++ (p ++ y ++ v)) in H
      by (rewrite !append_assoc; reflexivity).
    exact (quiet_prefix _ _ H). }
  assert (Hback : forall u v, includes "<R" (u ++ m ++ v) = false ->
                              includes "<R" (y ++ v) = false).
  { intros u v H. rewrite Hrow in H.
    replace (u ++ (x ++ p ++ y) ++ v) with ((u ++ x ++ p) ++ (y ++ v)) in H
      by (rewrite !append_assoc; reflexivity).
    exact (quiet_suffix _ _ H). }
  assert (Hshape : forall u t,
             u ++ (x ++ (w0 ++ ">") ++ REF_NUMBER_ADDED ++ y) ++ t
             = ((u ++ x) ++ (w0 ++ ">")) ++ REF_NUMBER_ADDED ++ (y ++ t))
    by (intros u t; rewrite !append_assoc; reflexivity).
  assert (Hcl' : forall u, closes ((u ++ x) ++ (w0 ++ ">")))
    by (intros u; exists ((u ++ x) ++ w0); rewrite !append_assoc; reflexivity).
  induction HX as [b Hb | b s Hb Hcl Hs IH].
  - destruct (splitOn m b) as [[u v]|] eqn:E.
    + rewrite (replace_found _ _ _ _ _ E Hd).
      pose proof (splitOn_inv _ _ _ _ E) as Hbuv. rewrite Hbuv in Hb.
      rewrite Hshape. apply marked_more.
      * exact (Hfront u v Hb).
      * right. apply Hcl'.
      * apply marked_last. exact (Hback u v Hb).
    + rewrite (replace_absent _ _ _ E). now apply marked_last.
  - destruct (splitOn m b) as [[u v]|] eqn:E.
    + pose proof (splitOn_app_l _ _ (REF_NUMBER_ADDED ++ s) _ _ E) as E'.
      rewrite (replace_found _ _ _ _ _ E' Hd).
      pose proof (splitOn_inv _ _ _ _ E) as Hbuv.
      assert (Hb' := Hb). rewrite Hbuv in Hb'.
      rewrite Hshape. apply marked_more.
      * exact (Hfront u v Hb').
      * right. apply Hcl'.
      * rewrite <- append_assoc. apply marked_more.
        -- exact (Hback u v Hb').
        -- destruct (y ++ v) as [|c t] eqn:Eyv; [left; reflexivity|].
           right. destruct Hcl as [-> | Hc].
           ++ exfalso. destruct u; [|discriminate].
              simpl in Hbuv. apply (rowLike_nonempty m Hm).
              destruct m; [reflexivity | discriminate].
           ++ rewrite Hbuv, Hrow in Hc.
              replace (u ++ (x ++ p ++ y) ++ v) with ((u ++ x ++ p) ++ (y ++ v)) in Hc
                by (rewrite !append_assoc; reflexivity).
              rewrite Eyv in Hc. apply (closes_suffix _ _ Hc). discriminate.
        -- exact Hs.
    + pose proof (splitOn_behind_front m b s Hm E) as E'.
      destruct (splitOn m s) as [[u v]|] eqn:Es.
      * rewrite (replace_found _ _ _ _ _ E' Hd).
        rewrite (replace_found _ _ _ _ _ Es Hd) in IH.
        rewrite (append_assoc b), (append_assoc REF_NUMBER_ADDED).
        apply marked_more; assumption.
      * rewrite (replace_absent _ _ _ E'). apply marked_more; assumption.
Qed.

(** *** What the writer puts into a row *)

Lemma numberToString_quiet (n : nat) : includes "<R" (numberToString n) = false.
Proof.
  unfold numberToString. generalize (Nat.to_uint n).
  induction u; simpl NilEmpty.string_of_uint; try reflexivity;
    (apply quiet_cons; split; [reflexivity | assumption]).
Qed.

Lemma numberRun_split (n : nat) :
  numberRun n = (numberParagraph n ++ ">") ++ REF_NUMBER_ADDED.
Proof. unfold numberRun, numberParagraph. flatten_appends. reflexivity. Qed.

Lemma numberParagraph_quiet (n : nat) : includes "<R" (numberParagraph n ++ ">") = false.
Proof.
  replace (numberParagraph n ++ ">")
    with (("<w:r><w:t" ++ ">") ++ (numberToString n ++ "</w:t></w:r></w:p>"))
    by (unfold numberParagraph; flatten_appends; reflexivity).
  apply quiet_app_gt; [reflexivity|].
  apply quiet_app_lt; [apply numberToString_quiet | reflexivity | reflexivity].
Qed.

Lemma numberParagraph_opened_quiet (n : nat) :
  includes "<R" (("<w:p>" ++ numberParagraph n) ++ ">") = false.
Proof.
  replace (("<w:p>" ++ numberParagraph n) ++ ">")
    with (("<w:p" ++ ">") ++ (numberParagraph n ++ ">"))
    by (flatten_appends; reflexivity).
  apply quiet_app_gt; [reflexivity | apply numberParagraph_quiet].
Qed.

Lemma includes_miss (pat : string) (c : ascii) (s : string) :
  startsWith pat (String c s) = false -> includes pat (String c s) = includes pat s.
Proof.
  intros H. unfold includes. rewrite (splitOn_cons_miss _ _ _ H).
  destruct (splitOn pat s) as [[b a]|]; reflexivity.
Qed.

Lemma numberToString_holds_no_tag (pat z : string) :
  startsWith "<" pat = true ->
  forall n, includes pat (numberToString n ++ z) = includes pat z.
Proof.
  intros Hp n. unfold numberToString. generalize (Nat.to_uint n).
  destruct pat as [|p0 pat]; [discriminate|].
  change (startsWith "<" (String p0 pat)) with (if Ascii.eqb "<" p0 then true else false) in Hp.
  destruct (Ascii.eqb "<" p0) eqn:E; [|discriminate].
  apply Ascii.eqb_eq in E. subst p0.
  induction u; cbn [NilEmpty.string_of_uint String.append]; try reflexivity;
    (rewrite includes_miss by reflexivity; exact IHu).
Qed.

Lemma numberParagraph_holds_no_row_end (n : nat) :
  includes "</w:tr>" (numberParagraph n ++ ">") = false.
Proof.
  replace (numberParagraph n ++ ">")
    with ("<w:r><w:t>" ++ numberToString n ++ "</w:t></w:r></w:p>")
    by (unfold numberParagraph; flatten_appends; reflexivity).
  cbn [String.append].
  do 10 (rewrite includes_miss by reflexivity).
  rewrite numberToString_holds_no_tag by reflexivity. reflexivity.
Qed.

Lemma numberParagraph_opened_holds_no_row_end (n : nat) :
  includes "</w:tr>" (("<w:p>" ++ numberParagraph n) ++ ">") = false.
Proof.
  replace (("<w:p>" ++ numberParagraph n) ++ ">")
    with ("<w:p>" ++ (numberParagraph n ++ ">"))
    by (flatten_appends; reflexivity).
  cbn [String.append].
  do 5 (rewrite includes_miss by reflexivity).
  apply numberParagraph_holds_no_row_end.
Qed.

(** The writer leaves a row as it is or puts a paragraph with the number
    and the mark behind it in the place of a piece of the row. *)
Lemma written_row_form (rowXml : string) (n : nat) :
  noDollar rowXml = true -> includes "<R" rowXml = false ->
  processRowFirstCell rowXml n = rowXml \/
  exists x p y w0,
    rowXml = x ++ p ++ y /\
    processRowFirstCell rowXml n = x ++ (w0 ++ ">") ++ REF_NUMBER_ADDED ++ y /\
    startsWith "<" w0 = true /\
    includes "<R" (w0 ++ ">") = false /\
    noDollar (x ++ (w0 ++ ">") ++ REF_NUMBER_ADDED ++ y) = true /\
    startsWith "<w" w0 = true /\
    includes "</w:tr>" (w0 ++ ">") = false.
Proof.
  intros Hd Hq.
  destruct (changed_row_shape rowXml n Hd Hq) as [Hsame | [Hnd _]]; [left; exact Hsame|].
  destruct (matchFirst "<w:tc>" ["</w:tc>"] rowXml) as [cell|] eqn:Hc.
  2: { left. unfold processRowFirstCell. now rewrite Hc. }
  destruct (matchFirst_substring _ _ _ _ Hc) as (rb0 & ra0 & Hrow0).
  assert (Hdc : noDollar cell = true) by (rewrite Hrow0 in Hd; exact (noDollar_sub _ _ _ Hd)).
  destruct (matchFirst "<w:p" ["</w:p>"] cell) as [paragraph|] eqn:Hp.
  2: { right.
       destruct (processRowFirstCell_empty_cell _ _ n Hc Hp Hdc)
         as (rb & ra & rest & Hrow & Hcell & Hres).
       exists (rb ++ "<w:tc>"), EmptyString, (rest ++ ra), ("<w:p>" ++ numberParagraph n).
       assert (Hform : processRowFirstCell rowXml n =
                       (rb ++ "<w:tc>") ++ (("<w:p>" ++ numberParagraph n) ++ ">")
                         ++ REF_NUMBER_ADDED ++ rest ++ ra).
       { rewrite Hres. unfold numberParagraph. flatten_appends. reflexivity. }
       split; [rewrite Hrow, Hcell; flatten_appends; reflexivity|].
       split; [exact Hform|]. split; [reflexivity|].
       split; [apply numberParagraph_opened_quiet|].
       split; [rewrite <- Hform; exact Hnd|].
       split; [reflexivity | apply numberParagraph_opened_holds_no_row_end]. }
  destruct (matchFirst "<w:pPr>" ["</w:pPr>"] paragraph) as [pPr|] eqn:Hpp.
  2: { right.
       destruct (processRowFirstCell_plain _ _ _ n Hc Hp Hpp Hdc)
         as (rb & ra & cb & ca & Hrow & Hcell & Hres).
       exists (rb ++ cb), paragraph, (ca ++ ra), ("<w:p>" ++ numberParagraph n).
       assert (Hform : processRowFirstCell rowXml n =
                       (rb ++ cb) ++ (("<w:p>" ++ numberParagraph n) ++ ">")
                         ++ REF_NUMBER_ADDED ++ ca ++ ra).
       { rewrite Hres. unfold numberParagraph. flatten_appends. reflexivity. }
       split; [rewrite Hrow, Hcell; flatten_appends; reflexivity|].
       split; [exact Hform|]. split; [reflexivity|].
       split; [apply numberParagraph_opened_quiet|].
       split; [rewrite <- Hform; exact Hnd|].
       split; [reflexivity | apply numberParagraph_opened_holds_no_row_end]. }
  destruct (splitOn (pPr ++ "[sS]*?</w:p>") paragraph) as [[b a]|] eqn:E.
  - right.
    destruct (processRowFirstCell_properties_found _ _ _ _ _ _ n Hc Hp Hpp E Hdc)
      as (rb & ra & cb & ca & Hrow & Hcell & Hres).
    pose proof (splitOn_inv _ _ _ _ E) as Hpar.
    exists (rb ++ cb ++ b ++ pPr), "[sS]*?</w:p>", (a ++ ca ++ ra), (numberParagraph n).
    assert (Hform : processRowFirstCell rowXml n =
                    (rb ++ cb ++ b ++ pPr) ++ (numberParagraph n ++ ">")
                      ++ REF_NUMBER_ADDED ++ a ++ ca ++ ra).
    { rewrite Hres, numberRun_split. rewrite !append_assoc. reflexivity. }
    split; [rewrite Hrow, Hcell, Hpar; rewrite !append_assoc; reflexivity|].
    split; [exact Hform|]. split; [reflexivity|].
    split; [apply numberParagraph_quiet|].
    split; [rewrite <- Hform; exact Hnd|].
    split; [reflexivity | apply numberParagraph_holds_no_row_end].
  - left. unfold processRowFirstCell. rewrite Hc, Hp, Hpp.
    assert (Hdp : noDollar paragraph = true).
    { destruct (matchFirst_substring _ _ _ _ Hp) as (cb0 & ca0 & Hcell0).
      rewrite Hcell0 in Hdc. exact (noDollar_sub _ _ _ Hdc). }
    rewrite (replace_absent _ _ _ E).
    rewrite (replace_self cell paragraph Hdp). apply replace_self, Hdc.
Qed.

(** *** Rows and tables *)

Lemma matchAll_first (l0 : string) (lits : list string) (s m : string) (ms : list string) :
  l0 <> EmptyString ->
  matchAll l0 lits s = m :: ms ->
  exists g rest, s = g ++ m ++ rest /\ matchAt l0 lits (m ++ rest) = Some m /\
                 matchAll l0 lits rest = ms.
Proof.
  intros Hl0. unfold matchAll. induction s as [|c t IH]; [discriminate|].
  simpl. destruct (matchAt l0 lits (String c t)) as [m0|] eqn:E.
  - intros [= <- <-].
    destruct (matchAt_inv _ _ _ _ E) as (m' & r & Hm & Hs & _).
    exists EmptyString, r. split; [exact Hs|]. split; [rewrite <- Hs; exact E|].
    destruct m0 as [|a m0]; [destruct l0; [contradiction | discriminate]|].
    simpl in Hs. injection Hs as _ ->.
    rewrite (matchAllFrom_skip l0 lits (m0 ++ r)).
    replace (String.length (String a m0) - 1) with (String.length m0)
      by (simpl; lia).
    rewrite drop_app. reflexivity.
  - intros H. destruct (IH H) as (g & rest & -> & Hat & Hr).
    exists (String c g), rest. split; [reflexivity | split; assumption].
Qed.

Lemma matchAll_In_at (l0 : string) (lits : list string) (s m : string) :
  l0 <> EmptyString ->
  In m (matchAll l0 lits s) ->
  exists b a, s = b ++ m ++ a /\ matchAt l0 lits (m ++ a) = Some m.
Proof.
  intros Hl0.
  remember (matchAll l0 lits s) as ms eqn:E. revert s E.
  induction ms as [|m0 ms IH]; intros s E Hin; [contradiction|].
  symmetry in E. destruct (matchAll_first _ _ _ _ _ Hl0 E) as (g & rest & -> & Hat & Hr).
  destruct Hin as [<- | Hin].
  - now exists g, rest.
  - destruct (IH rest (eq_sym Hr) Hin) as (b & a & -> & Ha).
    exists (g ++ m0 ++ b), a. rewrite !append_assoc. split; [reflexivity | exact Ha].
Qed.

Lemma matchAt_shape (l0 l1 s m : string) :
  matchAt l0 [l1] s = Some m -> exists mid, m = l0 ++ mid ++ l1.
Proof.
  intros E. destruct (matchAt_inv _ _ _ _ E) as (m' & r & -> & _ & Hc).
  simpl in Hc. destruct (splitOn l1 _) as [[gap rest]|]; [|discriminate].
  injection Hc as <- _. exists gap. now rewrite append_nil_r.
Qed.

Lemma tableRows_rowOk (tableXml m : string) :
  noDollar tableXml = true -> includes "<R" tableXml = false ->
  In m (tableRows tableXml) -> rowOk m.
Proof.
  intros Hd Hq Hin.
  assert (Hne : "<w:tr" <> EmptyString) by discriminate.
  destruct (matchAll_In_at _ _ _ _ Hne Hin) as (b & a & Ht & Hat).
  destruct (matchAt_shape _ _ _ _ Hat) as (mid & Hm).
  rewrite Ht in Hd, Hq.
  split; [exact (noDollar_sub _ _ _ Hd)|]. split; [|rewrite Hm; reflexivity].
  split; [exact (includes_sub_false _ _ _ _ Hq)|]. split; [rewrite Hm; reflexivity|].
  exists ("<w:tr" ++ mid ++ "</w:tr"). rewrite Hm. rewrite !append_assoc. reflexivity.
Qed.

(** A row never begins inside the opening tag of its table. *)
Lemma splitOn_behind_table_tag (m X : string) :
  startsWith "<w:tr" m = true ->
  splitOn m ("<w:tbl>" ++ X) =
  match splitOn m X with
  | Some (b, a) => Some ("<w:tbl>" ++ b, a)
  | None => None
  end.
Proof.
  intros Hm. rewrite (startsWith_inv _ _ Hm).
  generalize (drop (String.length "<w:tr") m). intros m2.
  cbn [String.append].
  do 7 (rewrite splitOn_cons_miss by reflexivity).
  destruct (splitOn _ X) as [[b a]|]; reflexivity.
Qed.

Lemma replace_behind_table_tag (m X repl : string) :
  startsWith "<w:tr" m = true -> noDollar repl = true ->
  replace ("<w:tbl>" ++ X) m repl = "<w:tbl>" ++ replace X m repl.
Proof.
  intros Hm Hr. pose proof (splitOn_behind_table_tag m X Hm) as E.
  destruct (splitOn m X) as [[b a]|] eqn:Ex.
  - rewrite (replace_found _ _ _ _ _ E Hr), (replace_found _ _ _ _ _ Ex Hr).
    rewrite !append_assoc. reflexivity.
  - rewrite (replace_absent _ _ _ E), (replace_absent _ _ _ Ex). reflexivity.
Qed.

Lemma closes_replace (X m x p y w0 : string) :
  closes X -> closes m -> m = x ++ p ++ y ->
  noDollar (x ++ (w0 ++ ">") ++ REF_NUMBER_ADDED ++ y) = true ->
  closes (replace X m (x ++ (w0 ++ ">") ++ REF_NUMBER_ADDED ++ y)).
Proof.
  intros HX Hm Hrow Hd.
  destruct (splitOn m X) as [[b a]|] eqn:E.
  - rewrite (replace_found _ _ _ _ _ E Hd).
    pose proof (splitOn_inv _ _ _ _ E) as HXba.
    apply closes_app.
    destruct a as [|c a].
    + rewrite append_nil_r. apply closes_app. apply closes_app.
      destruct y as [|c y].
      * exists "<REF_NUMBER_ADDED". reflexivity.
      * apply closes_app. rewrite Hrow, <- append_assoc in Hm.
        apply (closes_suffix _ _ Hm). discriminate.
    + apply closes_app. rewrite HXba, <- append_assoc in HX.
      apply (closes_suffix _ _ HX). discriminate.
  - rewrite (replace_absent _ _ _ E). exact HX.
Qed.

(** The row loop keeps the table marked. *)
Lemma processRows_marked (rows : list string) :
  Forall rowOk rows ->
  forall (i : nat) (X : string) (n : nat),
    marked X -> noDollar X = true -> closes X ->
    exists X', fst (processRows rows i ("<w:tbl>" ++ X, n)) = "<w:tbl>" ++ X' /\
               marked X' /\ noDollar X' = true /\ closes X'.
Proof.
  induction 1 as [|m ms Hm _ IH]; intros i X n HX Hd Hc; [exists X; auto|].
  cbn [processRows]. unfold processRow.
  destruct (isHeaderRow (i + 1)); [apply IH; assumption|].
  unfold numberRow. cbn [fst snd].
  destruct (String.eqb (processRowFirstCell m n) m) eqn:Eq; cbn [negb];
    [apply IH; assumption|].
  apply String.eqb_neq in Eq.
  destruct Hm as (Hdm & Hlike & Htr).
  destruct (written_row_form m n Hdm (proj1 Hlike))
    as [Hsame | (x & p & y & w0 & Hrow & Hres & Hw & Hq & Hnd & _)]; [contradiction|].
  rewrite Hres. rewrite (replace_behind_table_tag _ _ _ Htr Hnd).
  apply IH.
  - exact (marked_replace X m x p y w0 HX Hlike Hrow Hw Hq Hnd).
  - exact (replace_noDollar _ _ _ Hd Hnd).
  - exact (closes_replace X m x p y w0 Hc (proj2 (proj2 Hlike)) Hrow Hnd).
Qed.

(** A processed table with its marks removed. *)
Lemma cleaned_table (tableXml : string) (tableIndex n : nat) :
  noDollar tableXml = true -> includes "<R" tableXml = false ->
  (exists mid, tableXml = "<w:tbl>" ++ mid ++ "</w:tbl>") ->
  let cleaned := removeAll REF_NUMBER_ADDED (processTable tableXml tableIndex n) in
  includes "<R" cleaned = false /\ startsWith "<" cleaned = true /\
  closes cleaned /\ noDollar cleaned = true.
Proof.
  intros Hd Hq [mid Ht]. cbv zeta.
  assert (HX : exists X', processTable tableXml tableIndex n = "<w:tbl>" ++ X' /\
                          marked X' /\ noDollar X' = true /\ closes X').
  { assert (Hq0 : includes "<R" (mid ++ "</w:tbl>") = false)
      by (rewrite Ht in Hq; exact (quiet_suffix _ _ Hq)).
    assert (Hd0 : noDollar (mid ++ "</w:tbl>") = true)
      by (rewrite Ht, noDollar_app in Hd; apply andb_true_iff in Hd; tauto).
    assert (Hc0 : closes (mid ++ "</w:tbl>"))
      by (exists (mid ++ "</w:tbl"); rewrite append_assoc; reflexivity).
    unfold processTable, processTableState.
    destruct (tableRows tableXml) as [|r rows] eqn:E.
    - exists (mid ++ "</w:tbl>"). split; [exact Ht|]. split; [now apply marked_last | auto].
    - assert (Hrows : Forall rowOk (r :: rows)).
      { apply Forall_forall. intros m Hin. apply list_elem_of_In in Hin.
        rewrite <- E in Hin. exact (tableRows_rowOk _ _ Hd Hq Hin). }
      rewrite Ht.
      apply (processRows_marked _ Hrows 0 (mid ++ "</w:tbl>") n);
        [now apply marked_last | assumption | assumption]. }
  destruct HX as (X' & -> & HmX & HdX & HcX).
  destruct (marked_stripped X' HmX) as [Hs1 Hs2].
  assert (Hstrip : removeAll REF_NUMBER_ADDED ("<w:tbl>" ++ X')
                   = ("<w:tbl" ++ ">") ++ removeAll REF_NUMBER_ADDED X')
    by (apply (removeAll_quiet_front "<w:tbl" X'); reflexivity).
  rewrite Hstrip. split; [apply quiet_app_gt; [reflexivity | exact Hs1]|].
  split; [reflexivity|]. split.
  - destruct (Hs2 HcX) as [-> | Hc]; [exists "<w:tbl"; reflexivity | apply closes_app; exact Hc].
  - change (noDollar (("<w:tbl" ++ ">") ++ removeAll REF_NUMBER_ADDED X'))
      with (noDollar (removeAll REF_NUMBER_ADDED X')).
    apply removeAllFrom_noDollar. exact HdX.
Qed.

Lemma quiet_replace (xml t c : string) :
  includes "<R" xml = false ->
  includes "<R" c = false -> startsWith "<" c = true -> closes c -> noDollar c = true ->
  includes "<R" (replace xml t c) = false.
Proof.
  intros Hx Hc Hlt [c0 Hcl] Hd.
  destruct (splitOn t xml) as [[b a]|] eqn:E.
  - rewrite (replace_found _ _ _ _ _ E Hd).
    rewrite (splitOn_inv _ _ _ _ E) in Hx.
    assert (Hb : includes "<R" b = false) by exact (quiet_prefix _ _ Hx).
    assert (Ha : includes "<R" a = false).
    { rewrite <- append_assoc in Hx. exact (quiet_suffix _ _ Hx). }
    pose proof (quiet_app_lt b c Hb Hc Hlt) as Hbc.
    rewrite <- append_assoc. rewrite Hcl in Hbc |- *.
    rewrite <- append_assoc in Hbc |- *.
    exact (quiet_app_gt _ _ Hbc Ha).
  - now rewrite (replace_absent _ _ _ E).
Qed.

Lemma processTables_quiet (tables : list string) :
  Forall (fun t => noDollar t = true /\ includes "<R" t = false /\
                   exists mid, t = "<w:tbl>" ++ mid ++ "</w:tbl>") tables ->
  forall (i : nat) (xml : string) (n : nat),
    includes "<R" xml = false ->
    includes "<R" (fst (processTables tables i (xml, n))) = false.
Proof.
  induction 1 as [|t ts (Hd & Hq & Hshape) _ IH]; intros i xml n Hx; [exact Hx|].
  cbn [processTables]. unfold processOneTable. cbn [fst snd].
  apply IH.
  destruct (cleaned_table t (i + 1) n Hd Hq Hshape) as (H1 & H2 & H3 & H4).
  exact (quiet_replace _ _ _ Hx H1 H2 H3 H4).
Qed.

(** X5: the mark [<REF_NUMBER_ADDED>] that the writer puts behind every
    number never reaches the stored document: for a main part without a
    dollar sign and without the text [<R], the numbered part holds no mark
    (and still no [<R]). *)
Theorem no_mark_is_left_in_the_document (docXml : string) (startNumber : nat) :
  noDollar docXml = true -> includes "<R" docXml = false ->
  includes REF_NUMBER_ADDED (processTableReferences docXml startNumber) = false /\
  includes "<R" (processTableReferences docXml startNumber) = false.
Proof.
  intros Hd Hq.
  assert (G : includes "<R" (processTableReferences docXml startNumber) = false).
  { unfold processTableReferences.
    destruct (documentTables docXml) as [|t ts] eqn:E; [exact Hq|].
    apply processTables_quiet; [|exact Hq].
    apply Forall_forall. intros t' Hin. apply list_elem_of_In in Hin. rewrite <- E in Hin.
    assert (Hne : "<w:tbl>" <> EmptyString) by discriminate.
    destruct (matchAll_In_at _ _ _ _ Hne Hin) as (b & a & Hdoc & Hat).
    rewrite Hdoc in Hd, Hq.
    split; [exact (noDollar_sub _ _ _ Hd)|].
    split; [exact (includes_sub_false _ _ _ _ Hq)|].
    exact (matchAt_shape _ _ _ _ Hat). }
  split; [apply quiet_no_mark; exact G | exact G].
Qed.

Lemma two_tables_without_a_mark :
  includes REF_NUMBER_ADDED (processTableReferences twoTables 1) = false /\
  includes "<R" (processTableReferences twoTables 1) = false.
Proof.
  apply no_mark_is_left_in_the_document; vm_compute; reflexivity.
Defined.

End NoMarkLeft.

Section RowsInPlace.

Import JS Text TableHandler Spec Marks Layout Samples Cases.

(** *** Two ways to cut one text *)

Lemma append_eq_app (a b c d : string) :
  a ++ b = c ++ d ->
  (exists e, c = a ++ e /\ b = e ++ d) \/ (exists e, a = c ++ e /\ d = e ++ b).
Proof.
  revert c; induction a as [|x a IH]; intros c H.
  - left. exists c. split; [reflexivity | exact H].
  - destruct c as [|y c].
    + right. exists (String x a). split; [reflexivity | symmetry; exact H].
    + simpl in H. injection H as -> H.
      destruct (IH c H) as [(e & -> & ->) | (e & -> & ->)].
      * left. exists e. split; reflexivity.
      * right. exists e. split; reflexivity.
Qed.

Lemma splitOn_min (pat s b a : string) :
  splitOn pat s = Some (b, a) ->
  forall u v, s = u ++ pat ++ v -> String.length b <= String.length u.
Proof.
  revert b; induction s as [|c s IH]; intros b H u v Hs; rewrite splitOn_eq in H.
  - destruct (startsWith pat EmptyString); [|discriminate].
    injection H as <- _. simpl. lia.
  - destruct (startsWith pat (String c s)) eqn:E.
    + injection H as <- _. simpl. lia.
    + destruct (splitOn pat s) as [[b' a']|] eqn:E'; [|discriminate].
      injection H as <- <-.
      destruct u as [|x u].
      * simpl in Hs. rewrite Hs, startsWith_app in E. discriminate.
      * simpl in Hs. injection Hs as _ Hs.
        simpl. apply le_n_S. exact (IH b' eq_refl u v Hs).
Qed.

Lemma endsWith_spec (m r : string) :
  endsWith m r = true <-> exists pre, r = pre ++ m.
Proof.
  unfold endsWith. rewrite String.eqb_eq. split.
  - intros H. revert H. generalize (String.length r - String.length m). intros k.
    revert r; induction k as [|k IH]; intros r H.
    + exists EmptyString. simpl in H. now subst.
    + destruct r as [|c r]; simpl in H.
      * exists EmptyString. now subst.
      * destruct (IH r H) as [pre ->]. exists (String c pre). reflexivity.
  - intros [pre ->]. rewrite append_length.
    replace (String.length pre + String.length m - String.length m) with (String.length pre) by lia.
    apply drop_app.
Qed.

(** *** Texts in which no occurrence of a row begins *)

Lemma lift_lift (A B : string) (o : option (string * string)) :
  lift A (lift B o) = lift (A ++ B) o.
Proof. destruct o as [[b a]|]; simpl; [now rewrite append_assoc | reflexivity]. Qed.

Lemma skips_nil (m : string) : skips EmptyString m.
Proof. intros s. simpl. destruct (splitOn m s) as [[b a]|]; reflexivity. Qed.

Lemma skips_app (A B m : string) : skips A m -> skips B m -> skips (A ++ B) m.
Proof.
  intros HA HB s. rewrite append_assoc, HA, HB. apply lift_lift.
Qed.

Lemma skips_before_tag (A g B m : string) :
  skips A m -> skipsBeforeTag g m -> skips B m -> startsWith "<" B = true ->
  skips (A ++ g ++ B) m.
Proof.
  intros HA Hg HB Hlt s. rewrite !append_assoc, HA, Hg, HB.
  - rewrite !lift_lift, !append_assoc. reflexivity.
  - apply startsWith_app_r. exact Hlt.
Qed.

(** No occurrence begins within [V], whatever follows. *)
Lemma skips_by_places (V m : string) :
  (forall V1 V2 s, V = V1 ++ V2 -> V2 <> EmptyString -> startsWith m (V2 ++ s) = false) ->
  skips V m.
Proof.
  induction V as [|c V IH]; intros H; [apply skips_nil|].
  intros s. change (String c V ++ s) with (String c (V ++ s)).
  rewrite splitOn_cons_miss.
  - rewrite IH.
    + destruct (splitOn m s) as [[b a]|]; reflexivity.
    + intros V1 V2 s' -> Hne. apply (H (String c V1) V2 s'); [reflexivity | exact Hne].
  - apply (H EmptyString (String c V) s); [reflexivity | discriminate].
Qed.

Lemma skipsBeforeTag_by_places (g m : string) :
  (forall g1 g2 s, g = g1 ++ g2 -> g2 <> EmptyString -> startsWith "<" s = true ->
                   startsWith m (g2 ++ s) = false) ->
  skipsBeforeTag g m.
Proof.
  induction g as [|c g IH]; intros H s Hs.
  - simpl. destruct (splitOn m s) as [[b a]|]; reflexivity.
  - change (String c g ++ s) with (String c (g ++ s)).
    rewrite splitOn_cons_miss.
    + rewrite IH; [destruct (splitOn m s) as [[b a]|]; reflexivity | | exact Hs].
      intros g1 g2 s' -> Hne Hs'. apply (H (String c g1) g2 s'); [reflexivity | exact Hne | exact Hs'].
    + apply (H EmptyString (String c g) s); [reflexivity | discriminate | exact Hs].
Qed.

(** *** Tags begin with their only [<] *)

Lemma noLt_app (a b : string) : noLt (a ++ b) = noLt a && noLt b.
Proof.
  induction a as [|c a IH]; [reflexivity|].
  simpl. rewrite IH. now rewrite andb_assoc.
Qed.

Lemma tag_start (tail u e : string) :
  noLt tail = true -> String "<" tail = u ++ e -> startsWith "<" e = true ->
  u = EmptyString.
Proof.
  intros Ht H He. destruct u as [|c u]; [reflexivity|]. exfalso.
  simpl in H. injection H as _ H. rewrite H, noLt_app in Ht.
  apply andb_true_iff in Ht. destruct Ht as [_ Ht].
  destruct e as [|d e]; [discriminate|].
  change (startsWith "<" (String d e)) with (if Ascii.eqb "<" d then true else false) in He.
  destruct (Ascii.eqb "<" d) eqn:E; [|discriminate].
  apply Ascii.eqb_eq in E. subst d. discriminate Ht.
Qed.

Lemma first_char (c : ascii) (a b t : string) :
  String c a = b ++ t -> b <> EmptyString -> exists b', b = String c b'.
Proof.
  intros H Hb. destruct b as [|d b]; [contradiction|].
  simpl in H. injection H as -> _. now exists b.
Qed.

(** *** A row holds its closing tag once *)

Lemma matched_row_shape (m a : string) :
  matchAt "<w:tr" ["</w:tr>"] (m ++ a) = Some m ->
  exists gap, m = "<w:tr" ++ gap ++ "</w:tr>" /\
              splitOn "</w:tr>" ((gap ++ "</w:tr>") ++ a) = Some (gap, a).
Proof.
  intros E. destruct (matchAt_inv _ _ _ _ E) as (m' & r & Hm & Hs & Hc).
  apply append_inv_head in Hs. subst r.
  assert (Hdrop : drop (String.length "<w:tr") (m ++ a) = m' ++ a).
  { rewrite Hm, append_assoc. apply drop_app. }
  rewrite Hdrop in Hc. cbn [chainFrom] in Hc.
  destruct (splitOn "</w:tr>" (m' ++ a)) as [[gap rest]|] eqn:Es; [|discriminate].
  injection Hc as Hm' ->. rewrite ?append_nil_r in Hm'. cbn [String.append] in Hm'.
  exists gap. split; [rewrite Hm, <- Hm'; reflexivity|].
  rewrite <- Hm' in Es. exact Es.
Qed.

Lemma matched_row_closedOnce (m a : string) :
  matchAt "<w:tr" ["</w:tr>"] (m ++ a) = Some m -> closedOnce m.
Proof.
  intros E. destruct (matched_row_shape m a E) as (gap & Hm & Hs).
  intros u v Huv. rewrite Hm in Huv.
  assert (Hin : forall e, gap ++ "</w:tr>" = e ++ "</w:tr>" ++ v -> v = EmptyString).
  { intros e He.
    assert (Hlen : String.length gap <= String.length e).
    { apply (splitOn_min _ _ _ _ Hs e (v ++ a)). rewrite He, !append_assoc. reflexivity. }
    apply (f_equal String.length) in He. rewrite !append_length in He. simpl in He.
    destruct v; [reflexivity | simpl in He; lia]. }
  destruct (append_eq_app _ _ _ _ Huv) as [(e & Hu & He) | (e & Ho & He)].
  - exact (Hin e He).
  - destruct e as [|c e].
    + rewrite append_nil_r in Ho. simpl in He. apply (Hin EmptyString). symmetry. exact He.
    + exfalso.
      assert (Hc : c = "<"%char) by (simpl in He; now injection He).
      subst c.
      assert (Hu : u = EmptyString) by (apply (tag_start "w:tr" u (String "<" e)); auto).
      subst u. simpl in Ho. injection Ho as <-. discriminate He.
Qed.

(** *** Rows that no later row can be found in *)

(** Behind any cut of a row [R], a row [m] that does not end [R] is not
    found to begin. *)
Lemma row_tail_skips (R X Y m : string) :
  R = X ++ Y -> rowFacts R -> rowFacts m -> endsWith m R = false -> skips Y m.
Proof.
  intros HR (_ & HRonce & R0 & HR0) ((_ & (_ & Hmw & _) & _) & Hmonce & m0 & Hm0) Hsuf.
  apply skips_by_places. intros V1 V2 s HY Hne.
  destruct (startsWith m (V2 ++ s)) eqn:E; [exfalso | reflexivity].
  apply startsWith_app_split in E. destruct E as [E | (r & Hr & Hmr & Hrs)].
  - pose proof (startsWith_inv _ _ E) as HV2.
    set (t := drop (String.length m) V2) in HV2.
    assert (Ht : t = EmptyString).
    { apply (HRonce (X ++ V1 ++ m0) t).
      rewrite HR, HY, HV2, Hm0, !append_assoc. reflexivity. }
    rewrite Ht, append_nil_r in HV2.
    assert (Hends : endsWith m R = true).
    { apply endsWith_spec. exists (X ++ V1). rewrite HR, HY, HV2, append_assoc. reflexivity. }
    congruence.
  - assert (Hcut : (X ++ V1) ++ V2 = R0 ++ "</w:tr>")
      by (rewrite <- HR0, HR, HY, append_assoc; reflexivity).
    destruct (append_eq_app _ _ _ _ Hcut) as [(e & He & HV2) | (e & He & HC)].
    + apply Hr. apply (Hmonce e r). rewrite Hmr, HV2, append_assoc. reflexivity.
    + assert (HV2lt : startsWith "<" V2 = true).
      { pose proof (startsWith_inv "<" m (startsWith_trans "<" "<w" m eq_refl Hmw)) as Hm1.
        rewrite Hmr in Hm1 at 1. simpl in Hm1. symmetry in Hm1.
        destruct (first_char _ _ V2 r Hm1 Hne) as [V2' ->]. reflexivity. }
      assert (e = EmptyString) by (apply (tag_start "/w:tr>" e V2); auto).
      subst e. simpl in HC. subst V2. rewrite Hmr in Hmw. discriminate Hmw.
Qed.

(** The closing tag of a row does not reach into the paragraph with the
    number. *)
Lemma row_end_before_number (x W u v : string) :
  x ++ W = u ++ "</w:tr>" ++ v ->
  startsWith "<w" W = true -> includes "</w:tr>" W = false ->
  exists v', x = u ++ "</w:tr>" ++ v'.
Proof.
  intros H HW Hno. rewrite <- append_assoc in H.
  destruct (append_eq_app _ _ _ _ H) as [(e & He & HWe) | (e & Hx & _)].
  - destruct (append_eq_app _ _ _ _ (eq_sym He)) as [(e' & Hu & He') | (e' & Hx & HC)].
    + exfalso. rewrite HWe, He', append_assoc, includes_app in Hno. discriminate.
    + destruct e as [|c e].
      * exists EmptyString. rewrite append_nil_r in HC. rewrite Hx, <- HC. reflexivity.
      * exfalso.
        assert (Hlt : startsWith "<" (String c e) = true).
        { rewrite HWe in HW.
          change (startsWith "<" (String c e)) with (if Ascii.eqb "<" c then true else false).
          change (startsWith "<w" (String c e ++ v))
            with (if Ascii.eqb "<" c then startsWith "w" (e ++ v) else false) in HW.
          destruct (Ascii.eqb "<" c); [reflexivity | discriminate]. }
        assert (e' = EmptyString) by (apply (tag_start "/w:tr>" e' (String c e)); auto).
        subst e'. simpl in HC. rewrite <- HC in HWe. rewrite HWe in HW. discriminate HW.
  - exists e. rewrite Hx, append_assoc. reflexivity.
Qed.

(** A row into which a number has been written. *)
Lemma written_row_skips (r x p y w0 m : string) :
  r = x ++ p ++ y -> rowFacts r ->
  startsWith "<w" w0 = true -> includes "</w:tr>" (w0 ++ ">") = false ->
  rowFacts m -> endsWith m r = false ->
  skips (x ++ (w0 ++ ">") ++ REF_NUMBER_ADDED ++ y) m.
Proof.
  intros Hr Hrf Hw Hno Hmf Hsuf.
  replace (x ++ (w0 ++ ">") ++ REF_NUMBER_ADDED ++ y)
    with (((x ++ (w0 ++ ">")) ++ REF_NUMBER_ADDED) ++ y)
    by (rewrite !append_assoc; reflexivity).
  apply skips_app.
  2: { apply (row_tail_skips r (x ++ p) y m); auto. rewrite Hr, append_assoc. reflexivity. }
  assert (Hlike : rowLike m) by (destruct Hmf as ((_ & H & _) & _); exact H).
  assert (Hnone : splitOn m (x ++ (w0 ++ ">")) = None).
  { destruct (splitOn m (x ++ (w0 ++ ">"))) as [[u v]|] eqn:E; [exfalso | reflexivity].
    apply splitOn_inv in E.
    destruct Hmf as (_ & _ & m0 & Hm0). destruct Hrf as (_ & Hronce & _).
    rewrite Hm0 in E.
    replace (u ++ (m0 ++ "</w:tr>") ++ v) with ((u ++ m0) ++ "</w:tr>" ++ v) in E
      by (rewrite !append_assoc; reflexivity).
    destruct (row_end_before_number x (w0 ++ ">") (u ++ m0) v E) as [v' Hx];
      [apply startsWith_app_r; exact Hw | exact Hno |].
    assert (Hv : v' ++ p ++ y = EmptyString).
    { apply (Hronce (u ++ m0) (v' ++ p ++ y)). rewrite Hr, Hx, !append_assoc. reflexivity. }
    assert (Hends : endsWith m r = true).
    { apply endsWith_spec. exists u.
      rewrite Hr, Hx, Hm0.
      replace (((u ++ m0) ++ "</w:tr>" ++ v') ++ p ++ y)
        with ((u ++ m0 ++ "</w:tr>") ++ (v' ++ p ++ y))
        by (rewrite !append_assoc; reflexivity).
      rewrite Hv, append_nil_r. reflexivity. }
    congruence. }
  intros s. rewrite append_assoc.
  rewrite (splitOn_behind_front m _ s Hlike Hnone).
  destruct (splitOn m s) as [[u v]|]; simpl; [rewrite !append_assoc|]; reflexivity.
Qed.

(** In the text between two rows no row begins. *)
Lemma gap_skips (g r rest m : string) :
  gapBefore g (r ++ rest) -> rowFacts r -> startsWith "<w:tr" m = true ->
  skipsBeforeTag g m.
Proof.
  intros Hg (_ & _ & r0 & Hr0) Hm.
  apply skipsBeforeTag_by_places. intros g1 g2 s Hcut Hne Hs.
  destruct (startsWith m (g2 ++ s)) eqn:E; [exfalso | reflexivity].
  pose proof (startsWith_trans _ _ _ Hm E) as EO.
  apply startsWith_app_split in EO. destruct EO as [EO | (o2 & Ho2 & HO & Hos)].
  - pose proof (Hg g1 g2 Hcut Hne) as Hnone. unfold matchAt in Hnone.
    rewrite (startsWith_app_r _ _ _ EO) in Hnone.
    pose proof (startsWith_inv _ _ EO) as Hg2.
    set (g3 := drop (String.length "<w:tr") g2) in Hg2.
    assert (Hdrop : drop (String.length "<w:tr") (g2 ++ r ++ rest)
                    = (g3 ++ r0) ++ "</w:tr>" ++ rest).
    { rewrite Hg2, Hr0, !append_assoc. apply (drop_app "<w:tr"). }
    rewrite Hdrop in Hnone. cbn [chainFrom] in Hnone.
    destruct (splitOn "</w:tr>" ((g3 ++ r0) ++ "</w:tr>" ++ rest)) as [[b a]|] eqn:Es;
      [discriminate|].
    exact (splitOn_complete _ _ _ Es).
  - assert (Hlt : startsWith "<" o2 = true).
    { destruct o2 as [|c o2]; [contradiction|].
      destruct s as [|d s]; [discriminate|].
      change (startsWith "<" (String d s)) with (if Ascii.eqb "<" d then true else false) in Hs.
      destruct (Ascii.eqb "<" d) eqn:Ed; [|discriminate]. apply Ascii.eqb_eq in Ed. subst d.
      change (startsWith (String c o2) (String "<" s))
        with (if Ascii.eqb c "<" then startsWith o2 s else false) in Hos.
      destruct (Ascii.eqb c "<") eqn:Ec; [|discriminate]. apply Ascii.eqb_eq in Ec. subst c.
      reflexivity. }
    apply Hne. apply (tag_start "w:tr" g2 o2); auto.
Qed.

(** *** The layout of a table *)

Lemma matchAll_first_gap (l0 : string) (lits : list string) (s m : string) (ms : list string) :
  l0 <> EmptyString ->
  matchAll l0 lits s = m :: ms ->
  exists g rest, s = g ++ m ++ rest /\ matchAt l0 lits (m ++ rest) = Some m /\
                 matchAll l0 lits rest = ms /\
                 (forall g1 g2, g = g1 ++ g2 -> g2 <> EmptyString ->
                                matchAt l0 lits (g2 ++ m ++ rest) = None).
Proof.
  intros Hl0. unfold matchAll. induction s as [|c t IH]; [discriminate|].
  simpl. destruct (matchAt l0 lits (String c t)) as [m0|] eqn:E.
  - intros [= <- <-].
    destruct (matchAt_inv _ _ _ _ E) as (m' & r & Hm & Hs & _).
    exists EmptyString, r. split; [exact Hs|]. split; [rewrite <- Hs; exact E|]. split.
    + destruct m0 as [|a m0]; [destruct l0; [contradiction | discriminate]|].
      simpl in Hs. injection Hs as _ ->.
      rewrite (matchAllFrom_skip l0 lits (m0 ++ r)).
      replace (String.length (String a m0) - 1) with (String.length m0)
        by (simpl; lia).
      rewrite drop_app. reflexivity.
    + intros g1 g2 Hg Hne. destruct g1; [simpl in Hg; subst g2; contradiction | discriminate].
  - intros H. destruct (IH H) as (g & rest & -> & Hat & Hr & Hgap).
    exists (String c g), rest. split; [reflexivity|]. split; [exact Hat|]. split; [exact Hr|].
    intros g1 g2 Hg Hne. destruct g1 as [|d g1].
    + simpl in Hg. subst g2. exact E.
    + simpl in Hg. injection Hg as _ Hg. exact (Hgap g1 g2 Hg Hne).
Qed.

Lemma rows_layout (rows : list string) :
  forall s, matchAll "<w:tr" ["</w:tr>"] s = rows ->
  exists gaps tail,
    List.length gaps = List.length rows /\ s = weave gaps rows tail /\ gapsOk gaps rows tail.
Proof.
  induction rows as [|r rs IH]; intros s Hs.
  - exists [], s. repeat split.
  - assert (Hne : "<w:tr" <> EmptyString) by discriminate.
    destruct (matchAll_first_gap _ _ _ _ _ Hne Hs) as (g & rest & -> & _ & Hr & Hgap).
    destruct (IH rest Hr) as (gs & tail & Hlen & Hrest & Hok).
    exists (g :: gs), tail. split; [simpl; now rewrite Hlen|].
    split; [simpl; now rewrite <- Hrest|].
    simpl. split; [|exact Hok]. rewrite <- Hrest. exact Hgap.
Qed.

Lemma tableRows_rowFacts (tableXml m : string) :
  noDollar tableXml = true -> includes "<R" tableXml = false ->
  In m (tableRows tableXml) -> rowFacts m.
Proof.
  intros Hd Hq Hin. split; [exact (tableRows_rowOk _ _ Hd Hq Hin)|].
  assert (Hne : "<w:tr" <> EmptyString) by discriminate.
  destruct (matchAll_In_at _ _ _ _ Hne Hin) as (b & a & _ & Hat).
  split; [exact (matched_row_closedOnce m a Hat)|].
  destruct (matched_row_shape m a Hat) as (gap & Hm & _).
  exists ("<w:tr" ++ gap). rewrite Hm, !append_assoc. reflexivity.
Qed.

(** *** The row loop writes in place *)

Lemma rowFacts_opens (m : string) : rowFacts m -> startsWith "<" m = true.
Proof.
  intros ((_ & (_ & Hw & _) & _) & _). exact (startsWith_trans "<" "<w" m eq_refl Hw).
Qed.

Lemma written_opens (r x p y W : string) :
  r = x ++ p ++ y -> startsWith "<" r = true -> startsWith "<" W = true ->
  startsWith "<" (x ++ W ++ y) = true.
Proof.
  intros Hr Hlt HW. destruct x as [|c x].
  - change (EmptyString ++ W ++ y) with (W ++ y). apply startsWith_app_r. exact HW.
  - rewrite Hr in Hlt. exact Hlt.
Qed.

Lemma processRows_in_place (rows : list string) :
  forall (gaps : list string) (tail : string) (i : nat) (V : string) (n : nat)
         (earlier : list string),
    List.length gaps = List.length rows ->
    gapsOk gaps rows tail ->
    Forall rowFacts rows ->
    aliasFreeFrom rows i earlier = true ->
    (forall m, rowFacts m -> forallb (fun e => negb (endsWith m e)) earlier = true ->
               skips V m) ->
    processRows rows i (V ++ weave gaps rows tail, n)
      = (V ++ weave gaps (fst (writeRows rows i n)) tail, snd (writeRows rows i n)).
Proof.
  induction rows as [|r rs IH]; intros gaps tail i V n earlier Hlen Hok Hrows Halias Hinv.
  - destruct gaps; [reflexivity | discriminate].
  - destruct gaps as [|g gs]; [discriminate|].
    simpl in Hlen. injection Hlen as Hlen.
    destruct Hok as [Hgap Hok].
    inversion Hrows as [|? ? Hr Hrs]; subst.
    cbn [aliasFreeFrom] in Halias. apply andb_true_iff in Halias.
    destruct Halias as [Hhere Hlater].
    (* what the text up to and with this row, written or not, lets through *)
    assert (Hnext : forall r',
               (forall m, rowFacts m -> endsWith m r = false -> skips r' m) ->
               startsWith "<" r' = true ->
               forall m, rowFacts m ->
                         forallb (fun e => negb (endsWith m e)) (r :: earlier) = true ->
                         skips ((V ++ g) ++ r') m).
    { intros r' Hskip Hopen m Hm Hnot. cbn [forallb] in Hnot.
      apply andb_true_iff in Hnot. destruct Hnot as [Hnr Hne].
      apply negb_true_iff in Hnr. rewrite append_assoc.
      apply skips_before_tag; [exact (Hinv m Hm Hne) | | exact (Hskip m Hm Hnr) | exact Hopen].
      apply (gap_skips g r (weave gs rs tail) m Hgap Hr).
      destruct Hm as ((_ & _ & Htr) & _). exact Htr. }
    assert (Hkeep : processRows rs (S i) (V ++ weave (g :: gs) (r :: rs) tail, n)
                    = (V ++ weave (g :: gs) (r :: fst (writeRows rs (S i) n)) tail,
                       snd (writeRows rs (S i) n))).
    { cbn [weave].
      replace (V ++ g ++ r ++ weave gs rs tail) with (((V ++ g) ++ r) ++ weave gs rs tail)
        by (rewrite !append_assoc; reflexivity).
      rewrite (IH gs tail (S i) ((V ++ g) ++ r) n (r :: earlier) Hlen Hok Hrs Hlater).
      - rewrite !append_assoc. reflexivity.
      - apply Hnext; [|exact (rowFacts_opens r Hr)].
        intros m Hm Hnr. apply (row_tail_skips r EmptyString r m); auto. }
    cbn [processRows writeRows]. unfold processRow.
    destruct (isHeaderRow (i + 1)) eqn:Hh.
    { rewrite String.eqb_refl. exact Hkeep. }
    unfold numberRow. cbn [fst snd].
    destruct (String.eqb (processRowFirstCell r n) r) eqn:Eq; cbn [negb].
    { apply String.eqb_eq in Eq. rewrite Eq. exact Hkeep. }
    apply String.eqb_neq in Eq. simpl in Hhere.
    destruct Hr as (Hrok & Hronce & Hrend).
    destruct Hrok as (Hdr & Hlike & Htr).
    destruct (written_row_form r n Hdr (proj1 Hlike))
      as [Hsame | (x & p & y & w0 & Hrow & Hres & Hw & Hq & Hnd & Hww & Hnc)]; [contradiction|].
    assert (Hr : rowFacts r) by exact (conj (conj Hdr (conj Hlike Htr)) (conj Hronce Hrend)).
    (* the row is found at its own place *)
    assert (Hfound : splitOn r (V ++ weave (g :: gs) (r :: rs) tail)
                     = Some (V ++ g, weave gs rs tail)).
    { cbn [weave]. rewrite (Hinv r Hr Hhere).
      rewrite (gap_skips g r (weave gs rs tail) r Hgap Hr Htr).
      - rewrite splitOn_prefix. simpl. rewrite append_nil_r. reflexivity.
      - apply startsWith_app_r. exact (rowFacts_opens r Hr). }
    rewrite Hres in *. rewrite (replace_found _ _ _ _ _ Hfound Hnd).
    rewrite <- (append_assoc (V ++ g)).
    rewrite (IH gs tail (S i) ((V ++ g) ++ x ++ (w0 ++ ">") ++ REF_NUMBER_ADDED ++ y) (S n)
               (r :: earlier) Hlen Hok Hrs Hlater).
    + cbn [weave fst snd]. rewrite !append_assoc. reflexivity.
    + apply Hnext.
      * intros m Hm Hnr. exact (written_row_skips r x p y w0 m Hrow Hr Hww Hnc Hm Hnr).
      * replace (x ++ (w0 ++ ">") ++ REF_NUMBER_ADDED ++ y)
          with (x ++ ((w0 ++ ">") ++ REF_NUMBER_ADDED) ++ y)
          by (rewrite !append_assoc; reflexivity).
        apply (written_opens r x p y); [exact Hrow | exact (rowFacts_opens r Hr)|].
        apply startsWith_app_r, startsWith_app_r. exact Hw.
Qed.

(** X1: in a table without a dollar sign and without [<R] in which no row
    at a data position ends the text of a row before it, every number is
    written where its row stands: the processed table is the table with
    each row replaced in place by what the writer made of it, the text
    between the rows untouched, header rows as they were, and the counter
    advanced by one for every row that the writer changed. *)
Theorem rows_are_numbered_in_place (tableXml : string) (start : nat) :
  noDollar tableXml = true -> includes "<R" tableXml = false ->
  aliasFree (tableRows tableXml) = true ->
  exists gaps tail,
    List.length gaps = List.length (tableRows tableXml) /\
    tableXml = weave gaps (tableRows tableXml) tail /\
    processTableState tableXml start
      = (weave gaps (fst (writeRows (tableRows tableXml) 0 start)) tail,
         snd (writeRows (tableRows tableXml) 0 start)).
Proof.
  intros Hd Hq Ha.
  destruct (rows_layout (tableRows tableXml) tableXml eq_refl) as (gaps & tail & Hlen & Ht & Hok).
  exists gaps, tail. split; [exact Hlen|]. split; [exact Ht|].
  unfold processTableState.
  assert (Hrows : Forall rowFacts (tableRows tableXml)).
  { apply Forall_forall. intros m Hin. apply list_elem_of_In in Hin.
    exact (tableRows_rowFacts _ _ Hd Hq Hin). }
  pose proof (processRows_in_place (tableRows tableXml) gaps tail 0 EmptyString start []
                Hlen Hok Hrows Ha (fun m _ _ => skips_nil m)) as G.
  simpl append in G. rewrite <- Ht in G.
  destruct (tableRows tableXml) as [|r rs] eqn:E; [|exact G].
  destruct gaps; [|discriminate]. simpl in Ht |- *. now rewrite <- Ht.
Qed.

Lemma inspection_table_in_place :
  exists gaps tail,
    List.length gaps = List.length (tableRows inspectionTable) /\
    inspectionTable = weave gaps (tableRows inspectionTable) tail /\
    processTableState inspectionTable 1
      = (weave gaps (fst (writeRows (tableRows inspectionTable) 0 1)) tail,
         snd (writeRows (tableRows inspectionTable) 0 1)).
Proof.
  apply rows_are_numbered_in_place; vm_compute; reflexivity.
Defined.

(** The table of an inspection form, numbered: both header rows are kept
    and the four rows between and behind them take the numbers 1 to 4. *)
Example inspection_table_numbered :
  aliasFree (tableRows inspectionTable) = true /\
  processTableState inspectionTable 1 =
    ("<w:tbl>" ++ headerRow
       ++ "<w:tr><w:tc><w:p><w:r><w:t>1</w:t></w:r></w:p><REF_NUMBER_ADDED></w:tc></w:tr>"
       ++ "<w:tr><w:tc><w:p><w:r><w:t>2</w:t></w:r></w:p><REF_NUMBER_ADDED></w:tc></w:tr>"
       ++ "<w:tr><w:tc><w:p><w:r><w:t>3</w:t></w:r></w:p><REF_NUMBER_ADDED></w:tc></w:tr>"
       ++ headerRow
       ++ "<w:tr><w:tc><w:p><w:r><w:t>4</w:t></w:r></w:p><REF_NUMBER_ADDED></w:tc></w:tr>"
       ++ "</w:tbl>", 5).
Proof. split; vm_compute; reflexivity. Qed.

End RowsInPlace.

Section NumbersConsumed.

Import JS TableHandler Spec Marks Layout Tables Samples Cases.

(** A row without a dollar sign and without [<R] comes back changed
    exactly when the writer can write into it, whatever the number. *)
Lemma changed_iff_writable (rowXml : string) (n : nat) :
  noDollar rowXml = true -> includes "<R" rowXml = false ->
  String.eqb (processRowFirstCell rowXml n) rowXml = negb (writable rowXml).
Proof.
  intros Hd Hq. unfold writable.
  assert (Hmarked : forall x y, processRowFirstCell rowXml n = x ++ numberRun n ++ y ->
                                String.eqb (processRowFirstCell rowXml n) rowXml = false).
  { intros x y H. apply String.eqb_neq. intros Heq.
    pose proof (numberRun_marked n x y) as Hm. rewrite <- H, Heq in Hm.
    rewrite (quiet_no_mark _ Hq) in Hm. discriminate. }
  destruct (matchFirst "<w:tc>" ["</w:tc>"] rowXml) as [cell|] eqn:Hc.
  2: { unfold processRowFirstCell. rewrite Hc. apply String.eqb_refl. }
  destruct (matchFirst_substring _ _ _ _ Hc) as (rb0 & ra0 & Hrow0).
  assert (Hdc : noDollar cell = true) by (rewrite Hrow0 in Hd; exact (noDollar_sub _ _ _ Hd)).
  destruct (matchFirst "<w:p" ["</w:p>"] cell) as [paragraph|] eqn:Hp.
  2: { destruct (processRowFirstCell_empty_cell _ _ n Hc Hp Hdc)
         as (rb & ra & rest & Hrow & Hcell & Hres).
       apply (Hmarked (rb ++ "<w:tc><w:p>") (rest ++ ra)).
       rewrite Hres. unfold numberRun. flatten_appends. reflexivity. }
  destruct (matchFirst "<w:pPr>" ["</w:pPr>"] paragraph) as [pPr|] eqn:Hpp.
  2: { destruct (processRowFirstCell_plain _ _ _ n Hc Hp Hpp Hdc)
         as (rb & ra & cb & ca & Hrow & Hcell & Hres).
       apply (Hmarked (rb ++ cb ++ "<w:p>") (ca ++ ra)).
       rewrite Hres. unfold numberRun. flatten_appends. reflexivity. }
  unfold includes.
  destruct (splitOn (pPr ++ "[sS]*?</w:p>") paragraph) as [[b a]|] eqn:E.
  - destruct (processRowFirstCell_properties_found _ _ _ _ _ _ n Hc Hp Hpp E Hdc)
      as (rb & ra & cb & ca & Hrow & Hcell & Hres).
    apply (Hmarked (rb ++ cb ++ b ++ pPr) (a ++ ca ++ ra)).
    rewrite Hres. rewrite !append_assoc. reflexivity.
  - assert (Hdp : noDollar paragraph = true).
    { destruct (matchFirst_substring _ _ _ _ Hp) as (cb0 & ca0 & Hcell0).
      rewrite Hcell0 in Hdc. exact (noDollar_sub _ _ _ Hdc). }
    apply String.eqb_eq. unfold processRowFirstCell. rewrite Hc, Hp, Hpp.
    rewrite (replace_absent _ _ _ E).
    rewrite (replace_self cell paragraph Hdp). apply replace_self, Hdc.
Qed.

Lemma numberRows_counter (rows : list (nat * string)) :
  Forall (fun kr => noDollar (snd kr) = true /\ includes "<R" (snd kr) = false) rows ->
  forall (xml : string) (n : nat),
    snd (fold_left (fun st kr => numberRow (snd kr) st) rows (xml, n))
      = n + List.length (List.filter (fun kr => writable (snd kr)) rows).
Proof.
  induction 1 as [|[k row] rest [Hd Hq] _ IH]; intros xml n; [simpl; lia|].
  cbn [fold_left List.filter snd]. unfold numberRow at 2. cbn [fst snd].
  rewrite (changed_iff_writable row n Hd Hq), negb_involutive.
  destruct (writable row).
  - rewrite IH. simpl. lia.
  - apply IH.
Qed.

(** X25: a table without a dollar sign and without [<R] consumes as many
    numbers as it has rows at data positions into which the writer can
    write: rows without a first cell and rows whose first paragraph has a
    properties block take none, every other data row takes exactly one. *)
Theorem numbers_consumed_by_a_table (tableXml : string) (start : nat) :
  noDollar tableXml = true -> includes "<R" tableXml = false ->
  snd (processTableState tableXml start)
    = start + List.length (List.filter (fun kr => writable (snd kr))
                             (dataRows (tableRows tableXml))).
Proof.
  intros Hd Hq. unfold processTableState.
  assert (Hrows : Forall (fun kr : nat * string =>
                            noDollar (snd kr) = true /\ includes "<R" (snd kr) = false)
                    (dataRows (tableRows tableXml))).
  { apply Forall_forall. intros [k row] Hin. apply list_elem_of_In in Hin.
    unfold dataRows in Hin. apply filter_In in Hin. destruct Hin as [Hin _].
    unfold positioned in Hin. apply in_combine_r in Hin. simpl.
    destruct (tableRows_rowOk _ _ Hd Hq Hin) as (H1 & (H2 & _) & _). auto. }
  destruct (tableRows tableXml) as [|r rows] eqn:E; [simpl; lia|].
  rewrite processRows_skip. simpl Nat.add.
  exact (numberRows_counter _ Hrows tableXml start).
Qed.

Lemma inspection_table_consumes_four_numbers :
  snd (processTableState inspectionTable 1) = 5.
Proof.
  rewrite (numbers_consumed_by_a_table inspectionTable 1); vm_compute; reflexivity.
Defined.

Lemma processTableState_counter (tableXml : string) (start : nat) :
  noDollar tableXml = true -> includes "<R" tableXml = false ->
  snd (processTableState tableXml start) = start + writableRows tableXml.
Proof.
  intros Hd Hq. unfold processTableState, writableRows.
  assert (Hrows : Forall (fun kr : nat * string =>
                            noDollar (snd kr) = true /\ includes "<R" (snd kr) = false)
                    (dataRows (tableRows tableXml))).
  { apply Forall_forall. intros [k row] Hin. apply list_elem_of_In in Hin.
    unfold dataRows in Hin. apply filter_In in Hin. destruct Hin as [Hin _].
    unfold positioned in Hin. apply in_combine_r in Hin. simpl.
    destruct (tableRows_rowOk _ _ Hd Hq Hin) as (H1 & (H2 & _) & _). auto. }
  destruct (tableRows tableXml) as [|r rows] eqn:E; [simpl; lia|].
  rewrite processRows_skip. simpl Nat.add.
  exact (numberRows_counter _ Hrows tableXml start).
Qed.

(** A turn of the table loop of the code is a turn as it is meant: the
    marks that the loop counts are as many as the rows that took a
    number. *)
Lemma processOneTable_numbers (i : nat) (tableXml : string) (st : string * nat) :
  noDollar tableXml = true -> includes "<R" tableXml = false ->
  processOneTable i tableXml st = numberTable st tableXml.
Proof.
  intros Hd Hq. unfold processOneTable, numberTable, processTable. f_equal.
  rewrite countMatches_occurrences.
  pose proof (processTableState_marks tableXml (snd st) Hd Hq) as Hm.
  pose proof (processTableState_counter tableXml (snd st) Hd Hq) as Hc.
  lia.
Qed.

Lemma processTables_numbers (tables : list string) :
  Forall (fun t => noDollar t = true /\ includes "<R" t = false) tables ->
  forall i st, processTables tables i st = fold_left numberTable tables st.
Proof.
  induction 1 as [|t ts [Hd Hq] _ IH]; intros i st; [reflexivity|].
  cbn [processTables fold_left].
  rewrite (processOneTable_numbers i t st Hd Hq). apply IH.
Qed.

Lemma numberTable_counter (tables : list string) (st : string * nat) :
  snd (fold_left numberTable tables st) = snd st + list_sum (List.map writableRows tables).
Proof.
  revert st; induction tables as [|t ts IH]; intros st; [simpl; lia|].
  cbn [fold_left List.map]. rewrite IH.
  change (list_sum (writableRows t :: List.map writableRows ts))
    with (writableRows t + list_sum (List.map writableRows ts)).
  unfold numberTable. cbn [snd]. lia.
Qed.

Lemma documentTables_plain (docXml : string) :
  noDollar docXml = true -> includes "<R" docXml = false ->
  Forall (fun t => noDollar t = true /\ includes "<R" t = false) (documentTables docXml).
Proof.
  intros Hd Hq. apply Forall_forall. intros t Hin. apply list_elem_of_In in Hin.
  assert (Hne : "<w:tbl>" <> EmptyString) by discriminate.
  destruct (matchAll_In _ _ _ _ Hne Hin) as (b & a & Hdoc).
  rewrite Hdoc in Hd, Hq.
  split; [exact (noDollar_sub _ _ _ Hd) | exact (includes_sub_false _ _ _ _ Hq)].
Qed.

(** X4: numbering runs on across the tables of a document without a dollar
    sign and without [<R].  Every table is numbered from the counter that
    it is handed, and the counter handed on is that counter plus the number
    of rows of the table that took a number; so the table behind the first
    [k] tables is handed the start number plus the number of rows that took
    a number in those [k] tables: the counter is never set back, and no
    number is left out or given twice. *)
Theorem running_counter_continues (docXml : string) (i start : nat) (xml : string) :
  noDollar docXml = true -> includes "<R" docXml = false ->
  processTables (documentTables docXml) i (xml, start)
    = fold_left numberTable (documentTables docXml) (xml, start)
  /\ forall k,
       snd (processTables (firstn k (documentTables docXml)) i (xml, start))
         = start + list_sum (List.map writableRows (firstn k (documentTables docXml))).
Proof.
  intros Hd Hq. pose proof (documentTables_plain docXml Hd Hq) as Hall.
  split; [exact (processTables_numbers _ Hall i (xml, start))|].
  intros k.
  assert (Hk : Forall (fun t => noDollar t = true /\ includes "<R" t = false)
                 (firstn k (documentTables docXml))).
  { rewrite Forall_forall in Hall |- *. intros t Hin. apply Hall.
    apply list_elem_of_In in Hin. apply list_elem_of_In.
    rewrite <- (firstn_skipn k (documentTables docXml)). apply in_or_app. now left. }
  rewrite (processTables_numbers _ Hk i (xml, start)).
  exact (numberTable_counter _ (xml, start)).
Qed.

Lemma counter_over_two_tables :
  (processTables (documentTables twoTables) 0 (twoTables, 1)
     = fold_left numberTable (documentTables twoTables) (twoTables, 1)
   /\ forall k,
        snd (processTables (firstn k (documentTables twoTables)) 0 (twoTables, 1))
          = 1 + list_sum (List.map writableRows (firstn k (documentTables twoTables))))
  /\ fold_left numberTable (documentTables twoTables) (twoTables, 1)
     = (inBody (("<w:tbl>" ++ headerRow ++ numberedRow "1" ++ "</w:tbl>")
                ++ ("<w:tbl>" ++ headerRow ++ numberedRow "2" ++ "</w:tbl>")), 3).
Proof.
  split; [apply running_counter_continues; vm_compute; reflexivity | vm_compute; reflexivity].
Defined.

End NumbersConsumed.

Section SectionsInPlace.

Import JS Text TemplateApplier Spec Marks Layout Samples Cases.

(** *** What the section pattern has matched *)

Lemma matched_block_like (m a : string) :
  matchAt "<w:sectPr" [">"; "</w:sectPr>"] (m ++ a) = Some m -> blockLike m.
Proof.
  intros E r. destruct (matchAt_inv _ _ _ _ E) as (m' & r0 & Hm & Hs & Hc).
  apply append_inv_head in Hs. subst r0.
  rewrite Hm, append_assoc in Hc. rewrite (drop_app "<w:sectPr") in Hc.
  unfold matchAt. rewrite Hm, append_assoc, startsWith_app, (drop_app "<w:sectPr").
  rewrite (chainFrom_local _ _ _ r Hc). reflexivity.
Qed.

Lemma blockLike_shape (m : string) :
  blockLike m -> exists x y, m = "<w:sectPr" ++ x ++ ">" ++ y ++ "</w:sectPr>".
Proof.
  intros H. specialize (H EmptyString).
  destruct (matchAt_inv _ _ _ _ H) as (m' & r & -> & _ & Hc).
  cbn [chainFrom] in Hc.
  destruct (splitOn ">" _) as [[x rest]|]; [|discriminate].
  destruct (splitOn "</w:sectPr>" rest) as [[y rest']|]; [|discriminate].
  injection Hc as <- _. exists x, y. reflexivity.
Qed.

Lemma blockLike_opens (m : string) : blockLike m -> startsWith "<w:sectPr" m = true.
Proof.
  intros H. destruct (blockLike_shape m H) as (x & y & ->). apply startsWith_app.
Qed.

Lemma blockLike_closes (m : string) : blockLike m -> exists m0, m = m0 ++ "</w:sectPr>".
Proof.
  intros H. destruct (blockLike_shape m H) as (x & y & ->).
  exists ("<w:sectPr" ++ x ++ ">" ++ y). now rewrite !append_assoc.
Qed.

Lemma sectPrs_blockLike (docXml m : string) : In m (sectPrs docXml) -> blockLike m.
Proof.
  intros Hin. assert (Hne : "<w:sectPr" <> EmptyString) by discriminate.
  destruct (matchAll_In_at _ _ _ _ Hne Hin) as (b & a & _ & Hat).
  exact (matched_block_like _ _ Hat).
Qed.

(** Two blocks that begin at one place are one block. *)
Lemma blockLike_same_start (m m' s : string) :
  blockLike m -> blockLike m' -> startsWith m' (m ++ s) = true -> m' = m.
Proof.
  intros Hm Hm' H. pose proof (startsWith_inv _ _ H) as Hs.
  pose proof (Hm s) as E. rewrite Hs, Hm' in E. congruence.
Qed.

(** *** The text between two blocks *)

Lemma chain_completes (front y rest : string) :
  chainFrom [">"; "</w:sectPr>"] (front ++ ">" ++ y ++ "</w:sectPr>" ++ rest) <> None.
Proof.
  cbn [chainFrom]. remember ("</w:sectPr>" ++ rest) as closing eqn:Hclosing.
  destruct (splitOn ">" (front ++ ">" ++ y ++ closing)) as [[u v]|] eqn:Eu.
  2: { intros _. exact (splitOn_complete _ _ _ Eu). }
  assert (Hv : exists z, v = z ++ closing).
  { pose proof (splitOn_inv _ _ _ _ Eu) as Hcut.
    destruct (append_eq_app _ _ _ _ Hcut) as [(e & Hu & He) | (e & Hfront & He)].
    - pose proof (splitOn_min _ _ _ _ Eu front (y ++ closing) eq_refl) as Hlen.
      rewrite Hu, append_length in Hlen.
      destruct e as [|c e]; [|simpl in Hlen; lia].
      exists y. change (String ">" (y ++ closing) = String ">" v) in He. congruence.
    - destruct e as [|c e].
      + exists y. change (String ">" v = String ">" (y ++ closing)) in He. congruence.
      + exists (e ++ ">" ++ y).
        change (String ">" v = String c (e ++ ">" ++ y ++ closing)) in He.
        injection He as _ ->. rewrite !append_assoc. reflexivity. }
  destruct Hv as (z & ->). subst closing.
  destruct (splitOn "</w:sectPr>" (z ++ "</w:sectPr>" ++ rest)) as [[p q]|] eqn:Ep;
    [discriminate|].
  intros _. exact (splitOn_complete _ _ _ Ep).
Qed.

Lemma gap_without_opening (g b rest : string) :
  gapBeforeSection g (b ++ rest) -> blockLike b -> includes "<w:sectPr" g = false.
Proof.
  intros Hg Hb. destruct (includes "<w:sectPr" g) eqn:E; [exfalso | reflexivity].
  destruct (includes_inv _ _ E) as (g1 & g3 & Hcut).
  assert (Hne : "<w:sectPr" ++ g3 <> EmptyString) by discriminate.
  pose proof (Hg g1 ("<w:sectPr" ++ g3) Hcut Hne) as Hnone.
  destruct (blockLike_shape b Hb) as (x & y & ->).
  unfold matchAt in Hnone. rewrite append_assoc, startsWith_app, (drop_app "<w:sectPr") in Hnone.
  replace (g3 ++ ("<w:sectPr" ++ x ++ ">" ++ y ++ "</w:sectPr>") ++ rest)
    with ((g3 ++ "<w:sectPr" ++ x) ++ ">" ++ y ++ "</w:sectPr>" ++ rest) in Hnone
    by (rewrite !append_assoc; reflexivity).
  pose proof (chain_completes (g3 ++ "<w:sectPr" ++ x) y rest) as Hc.
  destruct (chainFrom [">"; "</w:sectPr>"] _) as [[m r]|]; [discriminate | contradiction].
Qed.

Lemma section_gap_skips (g b rest m : string) :
  gapBeforeSection g (b ++ rest) -> blockLike b -> startsWith "<w:sectPr" m = true ->
  skipsBeforeTag g m.
Proof.
  intros Hg Hb Hm. pose proof (gap_without_opening _ _ _ Hg Hb) as Hq.
  apply skipsBeforeTag_by_places. intros g1 g2 s Hcut Hne Hs.
  destruct (startsWith m (g2 ++ s)) eqn:E; [exfalso | reflexivity].
  pose proof (startsWith_trans _ _ _ Hm E) as EO.
  apply startsWith_app_split in EO. destruct EO as [EO | (o2 & Ho2 & HO & Hos)].
  - rewrite Hcut, (startsWith_inv _ _ EO) in Hq.
    rewrite includes_app in Hq. discriminate.
  - assert (Hlt : startsWith "<" o2 = true).
    { destruct o2 as [|c o2]; [contradiction|].
      destruct s as [|d s]; [discriminate|].
      change (startsWith "<" (String d s)) with (if Ascii.eqb "<" d then true else false) in Hs.
      destruct (Ascii.eqb "<" d) eqn:Ed; [|discriminate]. apply Ascii.eqb_eq in Ed. subst d.
      change (startsWith (String c o2) (String "<" s))
        with (if Ascii.eqb c "<" then startsWith o2 s else false) in Hos.
      destruct (Ascii.eqb c "<") eqn:Ec; [|discriminate]. apply Ascii.eqb_eq in Ec. subst c.
      reflexivity. }
    apply Hne. apply (tag_start "w:sectPr" g2 o2); auto.
Qed.

(** *** The block of the template *)

(** Within the block of the template no other block begins, when the block
    holds the opening name at its start only. *)
Lemma template_block_skips (M m : string) :
  blockLike M -> includes "<w:sectPr" (drop 1 M) = false ->
  blockLike m -> m <> M -> skips M m.
Proof.
  intros HM Honce Hm Hdiff. apply skips_by_places. intros M1 M2 s Hcut Hne.
  destruct (startsWith m (M2 ++ s)) eqn:E; [exfalso | reflexivity].
  destruct M1 as [|c M1].
  - simpl in Hcut. subst M2. exact (Hdiff (blockLike_same_start _ _ _ HM Hm E)).
  - pose proof (startsWith_trans _ _ _ (blockLike_opens _ Hm) E) as EO.
    apply startsWith_app_split in EO. destruct EO as [EO | (o2 & Ho2 & HO & Hos)].
    + assert (Hin : includes "<w:sectPr" (drop 1 M) = true).
      { rewrite Hcut, (startsWith_inv _ _ EO). exact (includes_app "<w:sectPr" M1 _). }
      rewrite Hin in Honce. discriminate.
    + destruct (blockLike_closes _ HM) as (M0 & HM0).
      assert (Hlen : String.length M2 < 9).
      { apply (f_equal String.length) in HO. rewrite append_length in HO. simpl in HO.
        destruct o2; [contradiction | simpl in HO; lia]. }
      assert (Hlt : startsWith "<" M2 = true).
      { destruct M2 as [|d M2]; [contradiction|]. simpl in HO. injection HO as <- _. reflexivity. }
      rewrite HM0 in Hcut. symmetry in Hcut.
      destruct (append_eq_app _ _ _ _ Hcut) as [(e & _ & Hc) | (e & _ & Hc)].
      * (* [M2] begins within the block; it then holds the closing tag *)
        rewrite Hc, append_length in Hlen. simpl in Hlen. lia.
      * pose proof (tag_start "/w:sectPr>" e M2 eq_refl Hc Hlt) as ->.
        simpl in Hc. rewrite <- Hc in Hlen. simpl in Hlen. lia.
Qed.

(** *** The loop over the blocks *)

Lemma replaceSections_in_place (M : string) :
  noDollar M = true -> blockLike M -> includes "<w:sectPr" (drop 1 M) = false ->
  forall blocks gaps tail V,
    List.length gaps = List.length blocks ->
    sectionGapsOk gaps blocks tail ->
    Forall blockLike blocks ->
    (forall m, blockLike m -> m <> M -> skips V m) ->
    replaceSections blocks M (V ++ weave gaps blocks tail)
      = V ++ weave gaps (List.map (fun _ => M) blocks) tail.
Proof.
  intros Hd HM Honce. unfold replaceSections.
  induction blocks as [|b bs IH]; intros gaps tail V Hlen Hok Hall HV.
  - destruct gaps; [reflexivity | discriminate].
  - destruct gaps as [|g gs]; [discriminate|].
    injection Hlen as Hlen. destruct Hok as [Hg Hok].
    apply Forall_cons_iff in Hall. destruct Hall as [Hb Hall].
    cbn [fold_left weave List.map].
    assert (Hstep : replace (V ++ g ++ b ++ weave gs bs tail) b M
                    = (V ++ g ++ M) ++ weave gs bs tail).
    { destruct (String.eqb_spec b M) as [-> | Hdiff].
      - rewrite (replace_self _ M Hd), !append_assoc. reflexivity.
      - assert (Hs : splitOn b (V ++ g ++ b ++ weave gs bs tail)
                     = Some (V ++ g, weave gs bs tail)).
        { rewrite (HV b Hb Hdiff).
          rewrite (section_gap_skips _ _ _ b Hg Hb (blockLike_opens _ Hb)).
          - rewrite splitOn_prefix. simpl. now rewrite append_nil_r.
          - apply startsWith_app_r. apply (startsWith_trans "<" "<w:sectPr"); [reflexivity|].
            exact (blockLike_opens _ Hb). }
        rewrite (replace_found _ _ _ _ M Hs Hd), !append_assoc. reflexivity. }
    rewrite Hstep, (IH gs tail (V ++ g ++ M) Hlen Hok Hall).
    + rewrite !append_assoc. reflexivity.
    + intros m Hm Hdiff. apply skips_before_tag.
      * exact (HV m Hm Hdiff).
      * exact (section_gap_skips _ _ _ m Hg Hb (blockLike_opens _ Hm)).
      * exact (template_block_skips M m HM Honce Hm Hdiff).
      * apply (startsWith_trans "<" "<w:sectPr"); [reflexivity|]. exact (blockLike_opens _ HM).
Qed.

Lemma sections_layout (blocks : list string) :
  forall s, sectPrs s = blocks ->
  exists gaps tail,
    List.length gaps = List.length blocks /\ s = weave gaps blocks tail /\
    sectionGapsOk gaps blocks tail.
Proof.
  unfold sectPrs. induction blocks as [|b bs IH]; intros s Hs.
  - exists [], s. repeat split.
  - assert (Hne : "<w:sectPr" <> EmptyString) by discriminate.
    destruct (matchAll_first_gap _ _ _ _ _ Hne Hs) as (g & rest & -> & _ & Hr & Hgap).
    destruct (IH rest Hr) as (gs & tail & Hlen & Hrest & Hok).
    exists (g :: gs), tail. split; [simpl; now rewrite Hlen|].
    split; [simpl; now rewrite <- Hrest|].
    simpl. split; [|exact Hok]. rewrite <- Hrest. exact Hgap.
Qed.

Lemma gaps_without_opening (blocks : list string) :
  Forall blockLike blocks ->
  forall gaps tail, sectionGapsOk gaps blocks tail ->
                    Forall (fun g => includes "<w:sectPr" g = false) gaps.
Proof.
  induction 1 as [|b bs Hb _ IH]; intros [|g gs] tail Hok; simpl in Hok; try contradiction.
  - constructor.
  - destruct Hok as [Hg Hok]. constructor.
    + exact (gap_without_opening _ _ _ Hg Hb).
    + exact (IH gs tail Hok).
Qed.

(** X11: every section block of the merged document is replaced where it
    stands.  When the last section block of the template holds no dollar
    sign and holds [<w:sectPr] at its start only, the stored document is
    the merged document with that block in the place of each of its own
    section blocks; the text between the blocks, in which no [<w:sectPr]
    occurs, and the text behind the last block are kept. *)
Theorem every_section_takes_the_template_block (templateDoc mergedDoc : string) :
  sectPrs templateDoc <> [] ->
  sectPrs mergedDoc <> [] ->
  noDollar (List.last (sectPrs templateDoc) EmptyString) = true ->
  includes "<w:sectPr" (drop 1 (List.last (sectPrs templateDoc) EmptyString)) = false ->
  exists gaps tail,
    List.length gaps = List.length (sectPrs mergedDoc) /\
    Forall (fun g => includes "<w:sectPr" g = false) gaps /\
    mergedDoc = weave gaps (sectPrs mergedDoc) tail /\
    updatedDocument templateDoc mergedDoc
      = Some (weave gaps
                (List.map (fun _ => List.last (sectPrs templateDoc) EmptyString)
                          (sectPrs mergedDoc))
                tail).
Proof.
  intros Ht Hm Hd Honce.
  set (M := List.last (sectPrs templateDoc) EmptyString) in *.
  assert (HM : blockLike M).
  { apply (sectPrs_blockLike templateDoc). unfold M.
    destruct (exists_last Ht) as (l & a & ->). rewrite last_last. apply in_app_iff. right. now left. }
  assert (Hall : Forall blockLike (sectPrs mergedDoc)).
  { apply Forall_forall. intros m Hin. apply list_elem_of_In in Hin.
    exact (sectPrs_blockLike mergedDoc m Hin). }
  destruct (sections_layout (sectPrs mergedDoc) mergedDoc eq_refl) as (gaps & tail & Hlen & Hdoc & Hok).
  exists gaps, tail. split; [exact Hlen|].
  split; [exact (gaps_without_opening _ Hall gaps tail Hok)|].
  split; [exact Hdoc|].
  unfold updatedDocument. fold M.
  destruct (sectPrs templateDoc) as [|t ts] eqn:Et; [contradiction|].
  destruct (sectPrs mergedDoc) as [|b bs] eqn:Eb; [contradiction|].
  f_equal.
  pose proof (replaceSections_in_place M Hd HM Honce (b :: bs) gaps tail EmptyString
                Hlen Hok Hall (fun m _ _ => skips_nil m)) as H.
  simpl append in H. rewrite <- Hdoc in H. exact H.
Qed.

Lemma two_equal_sections_are_replaced :
  exists gaps tail,
    List.length gaps = List.length (sectPrs twoSections) /\
    Forall (fun g => includes "<w:sectPr" g = false) gaps /\
    twoSections = weave gaps (sectPrs twoSections) tail /\
    updatedDocument sectionTemplate twoSections
      = Some (weave gaps
                (List.map (fun _ => List.last (sectPrs sectionTemplate) EmptyString)
                          (sectPrs twoSections))
                tail).
Proof.
  apply every_section_takes_the_template_block;
    [vm_compute; discriminate | vm_compute; discriminate
    | vm_compute; reflexivity | vm_compute; reflexivity].
Defined.

End SectionsInPlace.

Section RelationshipEntries.

Import JS TemplateApplier Spec Layout Entries Samples Cases.

(** A literal without [>] is found in front of a [>] or not at all,
    whatever stands behind the [>]. *)
Lemma startsWith_upto_gt (l x z z' : string) :
  includes ">" l = false ->
  startsWith l (x ++ ">" ++ z) = startsWith l (x ++ ">" ++ z').
Proof.
  revert x; induction l as [|a l IH]; intros x Hl; [reflexivity|].
  assert (Ha : Ascii.eqb a ">" = false).
  { destruct (Ascii.eqb a ">") eqn:E; [|reflexivity].
    apply Ascii.eqb_eq in E. subst a. discriminate Hl. }
  pose proof (includes_cons_false _ _ _ Hl) as Hl'.
  destruct x as [|b x].
  - change (startsWith (String a l) (EmptyString ++ ">" ++ z))
      with (if Ascii.eqb a ">" then startsWith l z else false).
    change (startsWith (String a l) (EmptyString ++ ">" ++ z'))
      with (if Ascii.eqb a ">" then startsWith l z' else false).
    now rewrite Ha.
  - change (startsWith (String a l) (String b x ++ ">" ++ z))
      with (if Ascii.eqb a b then startsWith l (x ++ ">" ++ z) else false).
    change (startsWith (String a l) (String b x ++ ">" ++ z'))
      with (if Ascii.eqb a b then startsWith l (x ++ ">" ++ z') else false).
    destruct (Ascii.eqb a b); [apply IH; exact Hl' | reflexivity].
Qed.

Lemma dropDigits_keeps_gt (x : string) :
  exists d, forall z, dropDigits (x ++ ">" ++ z) = d ++ ">" ++ z.
Proof.
  induction x as [|c x [d IH]].
  - exists EmptyString. intros z. reflexivity.
  - destruct (isDigit c) eqn:E.
    + exists d. intros z.
      change (dropDigits (String c x ++ ">" ++ z))
        with (if isDigit c then dropDigits (x ++ ">" ++ z) else String c x ++ ">" ++ z).
      rewrite E. apply IH.
    + exists (String c x). intros z.
      change (dropDigits (String c x ++ ">" ++ z))
        with (if isDigit c then dropDigits (x ++ ">" ++ z) else String c x ++ ">" ++ z).
      rewrite E. reflexivity.
Qed.

Lemma targetAt_eq (s : string) :
  targetAt s =
  (startsWith (("Target=" ++ dq) ++ "header") s || startsWith (("Target=" ++ dq) ++ "footer") s)
  && digitsThenXml (drop (String.length (("Target=" ++ dq) ++ "header")) s).
Proof.
  unfold targetAt, digitsThenXml.
  destruct (startsWith (("Target=" ++ dq) ++ "header") s
            || startsWith (("Target=" ++ dq) ++ "footer") s); [|reflexivity].
  destruct (drop _ s); reflexivity.
Qed.

Lemma digitsThenXml_upto_gt (x z z' : string) :
  digitsThenXml (x ++ ">" ++ z) = digitsThenXml (x ++ ">" ++ z').
Proof.
  destruct x as [|c x]; [reflexivity|].
  change (digitsThenXml (String c x ++ ">" ++ z))
    with (isDigit c && startsWith (".xml" ++ dq) (dropDigits (String c x ++ ">" ++ z))).
  change (digitsThenXml (String c x ++ ">" ++ z'))
    with (isDigit c && startsWith (".xml" ++ dq) (dropDigits (String c x ++ ">" ++ z'))).
  destruct (dropDigits_keeps_gt (String c x)) as [d Hd]. rewrite !Hd.
  f_equal. apply startsWith_upto_gt. reflexivity.
Qed.

(** Whether a target name begins at a place in front of a [>] does not
    depend on what stands behind the [>]. *)
Lemma targetAt_upto_gt (x z z' : string) :
  targetAt (x ++ ">" ++ z) = targetAt (x ++ ">" ++ z').
Proof.
  rewrite !targetAt_eq.
  assert (Hlen : String.length (("Target=" ++ dq) ++ "header")
                 = String.length (("Target=" ++ dq) ++ "footer")) by reflexivity.
  assert (H : forall lit, includes ">" lit = false ->
                          startsWith lit (x ++ ">" ++ z') = true ->
                          digitsThenXml (drop (String.length lit) (x ++ ">" ++ z))
                          = digitsThenXml (drop (String.length lit) (x ++ ">" ++ z'))).
  { intros lit Hlit E. pose proof (startsWith_before _ _ _ Hlit E) as Hx.
    pose proof (startsWith_inv _ _ Hx) as Hcut.
    set (x' := drop (String.length lit) x) in Hcut.
    replace (x ++ ">" ++ z) with (lit ++ x' ++ ">" ++ z)
      by (rewrite Hcut at 1; rewrite append_assoc; reflexivity).
    replace (x ++ ">" ++ z') with (lit ++ x' ++ ">" ++ z')
      by (rewrite Hcut at 1; rewrite append_assoc; reflexivity).
    rewrite !drop_app. apply digitsThenXml_upto_gt. }
  assert (H1 : includes ">" (("Target=" ++ dq) ++ "header") = false) by reflexivity.
  assert (H2 : includes ">" (("Target=" ++ dq) ++ "footer") = false) by reflexivity.
  rewrite (startsWith_upto_gt _ x z z' H1), (startsWith_upto_gt _ x z z' H2).
  destruct (startsWith (("Target=" ++ dq) ++ "header") (x ++ ">" ++ z')) eqn:E1.
  - simpl orb. cbv iota. exact (H _ H1 E1).
  - destruct (startsWith (("Target=" ++ dq) ++ "footer") (x ++ ">" ++ z')) eqn:E2; [|reflexivity].
    simpl orb. cbv iota. rewrite Hlen. exact (H _ H2 E2).
Qed.

Lemma closesTag_cons (c : ascii) (t : string) :
  t <> EmptyString ->
  closesTag (String c t) = negb (Ascii.eqb c "<") && negb (Ascii.eqb c ">") && closesTag t.
Proof. destruct t; [contradiction | reflexivity]. Qed.

Lemma closesTag_ends (s : string) : closesTag s = true -> exists x, s = x ++ ">".
Proof.
  induction s as [|c t IH]; [discriminate|].
  destruct t as [|d t].
  - simpl. intros H. apply Ascii.eqb_eq in H. subst c. now exists EmptyString.
  - rewrite closesTag_cons by discriminate. intros H.
    apply andb_true_iff in H. destruct H as [_ H].
    destruct (IH H) as [x Hx]. exists (String c x). simpl. now rewrite <- Hx.
Qed.

Lemma closesTag_noLt (s : string) : closesTag s = true -> noLt s = true.
Proof.
  induction s as [|c t IH]; [reflexivity|].
  destruct t as [|d t].
  - simpl. intros H. apply Ascii.eqb_eq in H. subst c. reflexivity.
  - rewrite closesTag_cons by discriminate. intros H.
    apply andb_true_iff in H. destruct H as [H Ht].
    apply andb_true_iff in H. destruct H as [Hc _].
    change (noLt (String c (String d t))) with (negb (Ascii.eqb c "<") && noLt (String d t)).
    rewrite Hc, (IH Ht). reflexivity.
Qed.

(** The rest of an entry is the rest of a tag with a target exactly when a
    target name begins somewhere in it. *)
Lemma tagWithTarget_entry (body : string) :
  closesTag body = true ->
  forall seen rest,
    tagWithTarget seen (body ++ rest) =
    if seen || namesHeaderFooter body then Some body else None.
Proof.
  induction body as [|c t IH]; [discriminate|]. intros Hb seen rest.
  destruct t as [|d t].
  - simpl in Hb. apply Ascii.eqb_eq in Hb. subst c.
    change (tagWithTarget seen (">" ++ rest)) with (if seen then Some ">" else None).
    change (namesHeaderFooter ">") with false. rewrite orb_false_r. reflexivity.
  - rewrite closesTag_cons in Hb by discriminate.
    apply andb_true_iff in Hb. destruct Hb as [Hc Ht].
    apply andb_true_iff in Hc. destruct Hc as [_ Hgt].
    apply negb_true_iff in Hgt.
    change (tagWithTarget seen (String c (String d t) ++ rest))
      with (if Ascii.eqb c ">" then (if seen then Some ">" else None)
            else match tagWithTarget (seen || targetAt (String c (String d t) ++ rest))
                         (String d t ++ rest) with
                 | Some m => Some (String c m)
                 | None => None
                 end).
    rewrite Hgt, (IH Ht).
    change (namesHeaderFooter (String c (String d t)))
      with (targetAt (String c (String d t)) || namesHeaderFooter (String d t)).
    destruct (closesTag_ends _ Ht) as [x Hx].
    assert (Hloc : targetAt (String c (String d t) ++ rest) = targetAt (String c (String d t))).
    { rewrite Hx.
      change (String c (x ++ ">") ++ rest) with ((String c x ++ ">") ++ rest).
      change (String c (x ++ ">")) with (String c x ++ ">").
      rewrite append_assoc.
      rewrite <- (append_nil_r (String c x ++ ">")), append_assoc.
      apply targetAt_upto_gt. }
    rewrite Hloc, orb_assoc.
    destruct (seen || targetAt (String c (String d t)) || namesHeaderFooter (String d t));
      reflexivity.
Qed.

Lemma relationshipEntry_body (e : string) :
  relationshipEntry e = true ->
  exists body, e = "<Relationship " ++ body /\ closesTag body = true.
Proof.
  unfold relationshipEntry. intros H. apply andb_true_iff in H. destruct H as [Hs Hb].
  exists (drop (String.length "<Relationship ") e). split; [|exact Hb].
  exact (startsWith_inv _ _ Hs).
Qed.

(** The pattern, tried at the start of an entry, matches the entry when it
    names a header or footer target and nothing otherwise. *)
Lemma relAt_entry (e rest : string) :
  relationshipEntry e = true ->
  relAt (e ++ rest) = if namesHeaderFooter e then Some e else None.
Proof.
  intros He. destruct (relationshipEntry_body e He) as (body & -> & Hb).
  unfold relAt. rewrite append_assoc, startsWith_app, (drop_app "<Relationship ").
  rewrite (tagWithTarget_entry body Hb false rest).
  change (namesHeaderFooter ("<Relationship " ++ body)) with (namesHeaderFooter body).
  simpl orb. destruct (namesHeaderFooter body); reflexivity.
Qed.

Lemma headerFooterRelsFrom_skip (x rest : string) :
  headerFooterRelsFrom (String.length x) (x ++ rest) = headerFooterRelsFrom 0 rest.
Proof.
  induction x as [|c x IH]; [reflexivity|]. exact IH.
Qed.

(** Text in which the pattern matches at no place is passed over. *)
Lemma headerFooterRelsFrom_pass (g s : string) :
  (forall g1 g2, g = g1 ++ g2 -> g2 <> EmptyString -> relAt (g2 ++ s) = None) ->
  headerFooterRelsFrom 0 (g ++ s) = headerFooterRelsFrom 0 s.
Proof.
  induction g as [|c g IH]; intros H; [reflexivity|].
  change (headerFooterRelsFrom 0 (String c g ++ s))
    with (match relAt (String c g ++ s) with
          | Some m => m :: headerFooterRelsFrom (String.length m - 1) (g ++ s)
          | None => headerFooterRelsFrom 0 (g ++ s)
          end).
  rewrite (H EmptyString (String c g) eq_refl) by discriminate.
  apply IH. intros g1 g2 -> Hne. exact (H (String c g1) g2 eq_refl Hne).
Qed.

Lemma relAt_needs_lt (c : ascii) (s : string) :
  Ascii.eqb c "<" = false -> relAt (String c s) = None.
Proof.
  intros H. unfold relAt.
  change (startsWith "<Relationship " (String c s))
    with (if Ascii.eqb "<" c then startsWith "Relationship " s else false).
  rewrite Ascii.eqb_sym, H. reflexivity.
Qed.

(** Text without the opening name, in front of a tag or at the end. *)
Lemma gap_is_passed (g s : string) :
  includes "<Relationship " g = false ->
  s = EmptyString \/ startsWith "<" s = true ->
  headerFooterRelsFrom 0 (g ++ s) = headerFooterRelsFrom 0 s.
Proof.
  intros Hg Hs. apply headerFooterRelsFrom_pass. intros g1 g2 Hcut Hne.
  unfold relAt. destruct (startsWith "<Relationship " (g2 ++ s)) eqn:E; [exfalso | reflexivity].
  apply startsWith_app_split in E. destruct E as [E | (o2 & Ho2 & HO & Hos)].
  - rewrite Hcut, (startsWith_inv _ _ E), includes_app in Hg. discriminate.
  - destruct Hs as [-> | Hs].
    + destruct o2; [contradiction | discriminate].
    + assert (Hlt : startsWith "<" o2 = true).
      { destruct o2 as [|c o2]; [contradiction|].
        destruct s as [|d s]; [discriminate|].
        change (startsWith "<" (String d s)) with (if Ascii.eqb "<" d then true else false) in Hs.
        destruct (Ascii.eqb "<" d) eqn:Ed; [|discriminate]. apply Ascii.eqb_eq in Ed. subst d.
        change (startsWith (String c o2) (String "<" s))
          with (if Ascii.eqb c "<" then startsWith o2 s else false) in Hos.
        destruct (Ascii.eqb c "<") eqn:Ec; [|discriminate]. apply Ascii.eqb_eq in Ec. subst c.
        reflexivity. }
      apply Hne. apply (tag_start "Relationship " g2 o2); auto.
Qed.

(** An entry that names no header or footer target is passed over. *)
Lemma other_entry_is_passed (e s : string) :
  relationshipEntry e = true -> namesHeaderFooter e = false ->
  headerFooterRelsFrom 0 (e ++ s) = headerFooterRelsFrom 0 s.
Proof.
  intros He Hn. apply headerFooterRelsFrom_pass. intros g1 g2 Hcut Hne.
  destruct g1 as [|c g1].
  - simpl in Hcut. subst g2. rewrite (relAt_entry e s He), Hn. reflexivity.
  - destruct (relationshipEntry_body e He) as (body & Hbody & Hb).
    assert (Hno : noLt (g1 ++ g2) = true).
    { rewrite Hbody in Hcut. simpl in Hcut. injection Hcut as _ Hcut. rewrite <- Hcut.
      change (noLt ("Relationship " ++ body)) with (noLt body).
      exact (closesTag_noLt _ Hb). }
    rewrite noLt_app in Hno. apply andb_true_iff in Hno. destruct Hno as [_ Hno].
    destruct g2 as [|d g2]; [contradiction|].
    change (noLt (String d g2)) with (negb (Ascii.eqb d "<") && noLt g2) in Hno.
    apply andb_true_iff in Hno. destruct Hno as [Hd _]. apply negb_true_iff in Hd.
    exact (relAt_needs_lt d (g2 ++ s) Hd).
Qed.

Lemma entry_opens (e : string) : relationshipEntry e = true -> startsWith "<" e = true.
Proof.
  intros He. destruct (relationshipEntry_body e He) as (body & -> & _). reflexivity.
Qed.

(** The entries that the pattern finds in a part laid out as entries with
    text between them: all entries that name a header or footer target, in
    their order. *)
Lemma headerFooterRels_of_entries (entries : list string) :
  Forall (fun e => relationshipEntry e = true) entries ->
  forall gaps tail,
    List.length gaps = List.length entries ->
    Forall (fun g => includes "<Relationship " g = false) gaps ->
    includes "<Relationship " tail = false ->
    headerFooterRels (weave gaps entries tail) = List.filter namesHeaderFooter entries.
Proof.
  unfold headerFooterRels.
  induction 1 as [|e es He Hes IH]; intros gaps tail Hlen Hgaps Htail.
  - destruct gaps; [|discriminate]. simpl.
    rewrite <- (append_nil_r tail). rewrite (gap_is_passed tail EmptyString Htail); auto.
  - destruct gaps as [|g gs]; [discriminate|]. injection Hlen as Hlen.
    apply Forall_cons_iff in Hgaps. destruct Hgaps as [Hg Hgs].
    cbn [weave List.filter].
    rewrite (gap_is_passed g _ Hg).
    2:{ right. apply startsWith_app_r. exact (entry_opens e He). }
    specialize (IH gs tail Hlen Hgs Htail).
    destruct (namesHeaderFooter e) eqn:Hn.
    + destruct e as [|c e']; [discriminate He|].
      change (headerFooterRelsFrom 0 (String c e' ++ weave gs es tail))
        with (match relAt (String c e' ++ weave gs es tail) with
              | Some m => m :: headerFooterRelsFrom (String.length m - 1) (e' ++ weave gs es tail)
              | None => headerFooterRelsFrom 0 (e' ++ weave gs es tail)
              end).
      rewrite (relAt_entry (String c e') _ He), Hn.
      replace (String.length (String c e') - 1) with (String.length e') by (simpl; lia).
      rewrite headerFooterRelsFrom_skip, IH. reflexivity.
    + rewrite (other_entry_is_passed e _ He Hn). exact IH.
Qed.

(** C5, as the code has it.  Take a template part that is laid out as
    relationship entries with text between them that does not hold the
    opening name of an entry.  When the combined part is there as well and
    some entry of the template names a header or footer target
    ([headerN.xml], [footerN.xml]), all such entries are put, in their
    order, right before the first [</Relationships>] of the combined part,
    whatever ids the combined part already holds: no id is looked at.  When
    either part is absent or empty the package is left as it is.  Nothing
    else is ever put: every match of the pattern comes from the template
    part, is a [<Relationship ...>] tag and names a header or footer
    target. *)
Theorem C5_relationship_repair (templateZip mergedZip : gmap string string) :
  (forall gaps entries tail mergedRels b a,
      templateZip !! relsPath = Some (weave gaps entries tail) ->
      List.length gaps = List.length entries ->
      Forall (fun e => relationshipEntry e = true) entries ->
      Forall (fun g => includes "<Relationship " g = false) gaps ->
      includes "<Relationship " tail = false ->
      mergedZip !! relsPath = Some mergedRels ->
      splitOn "</Relationships>" mergedRels = Some (b, a) ->
      List.filter namesHeaderFooter entries <> [] ->
      noDollar (join (List.filter namesHeaderFooter entries)) = true ->
      preserveRelationships templateZip mergedZip =
        <[relsPath := b ++ (join (List.filter namesHeaderFooter entries) ++ "</Relationships>")
                        ++ a]> mergedZip)
  /\ (falsy (templateZip !! relsPath) = true \/ falsy (mergedZip !! relsPath) = true ->
      preserveRelationships templateZip mergedZip = mergedZip)
  /\ (forall templateRels e,
        In e (headerFooterRels templateRels) ->
        includes e templateRels = true /\
        startsWith "<Relationship " e = true /\
        includes ("Target=" ++ dq ++ "header") e || includes ("Target=" ++ dq ++ "footer") e = true).
Proof.
  destruct (preserveRelationships_by_cases templateZip mergedZip) as (Hstore & Hskip & Hsound).
  split; [|split; [exact Hskip | exact Hsound]].
  intros gaps entries tail mergedRels b a Ht Hlen Hall Hgaps Htail Hm Hs Hne Hd.
  pose proof (headerFooterRels_of_entries entries Hall gaps tail Hlen Hgaps Htail) as Hrels.
  rewrite <- Hrels in Hne, Hd |- *.
  apply (Hstore (weave gaps entries tail) mergedRels b a Ht Hm); try assumption.
  - intros Hempty. rewrite Hempty in Hne. apply Hne. reflexivity.
  - intros ->. discriminate Hs.
Qed.

(** The theorem at a template with a header entry, a styles entry and a
    footer entry and a combined part that binds another id: the header and
    the footer entry are put, the styles entry is not; and at a package
    without a relationship part. *)
Lemma C5_relationship_repair_witness :
  preserveRelationships {[ relsPath := threeRelationships ]} {[ relsPath := stylesRelationship ]}
  = <[relsPath := "<Relationships>" ++ relationship "rId7" "styles.xml"
                    ++ relationship "rId1" "header1.xml"
                    ++ relationship "rId3" "footer1.xml" ++ "</Relationships>"]>
      {[ relsPath := stylesRelationship ]}
  /\ preserveRelationships {[ relsPath := threeRelationships ]} ∅ = ∅.
Proof.
  split.
  - apply (proj1 (C5_relationship_repair _ _)
             ["<Relationships>"; EmptyString; EmptyString]
             [relationship "rId1" "header1.xml"; relationship "rId2" "styles.xml";
              relationship "rId3" "footer1.xml"]
             "</Relationships>" stylesRelationship
             ("<Relationships>" ++ relationship "rId7" "styles.xml") EmptyString);
      try reflexivity; try (repeat constructor); try (intros [=]).
  - apply (proj1 (proj2 (C5_relationship_repair _ _))). right. reflexivity.
Defined.

End RelationshipEntries.

Section SectionsAndVersion.

Import JS TableHandler TemplateApplier AppProperties Samples Cases.

(** X12: a merged document without a section block gets the last block of
    the template right in front of its first [</w:body>]; without a
    [</w:body>] it is stored as it is. *)
Theorem updatedDocument_without_sections (templateDoc mergedDoc : string) :
  sectPrs templateDoc <> [] ->
  sectPrs mergedDoc = [] ->
  noDollar (List.last (sectPrs templateDoc) EmptyString) = true ->
  updatedDocument templateDoc mergedDoc =
    Some (match splitOn "</w:body>" mergedDoc with
          | Some (b, a) => b ++ List.last (sectPrs templateDoc) EmptyString ++ "</w:body>" ++ a
          | None => mergedDoc
          end).
Proof.
  intros Ht Hm Hd. unfold updatedDocument.
  destruct (sectPrs templateDoc) as [|t ts] eqn:E; [contradiction|].
  rewrite Hm. f_equal.
  assert (Hd' : noDollar (List.last (t :: ts) EmptyString ++ "</w:body>") = true)
    by (rewrite noDollar_app, Hd; reflexivity).
  destruct (splitOn "</w:body>" mergedDoc) as [[b a]|] eqn:Es.
  - rewrite (replace_found _ _ _ _ _ Es Hd'). rewrite !append_assoc. reflexivity.
  - apply replace_absent. exact Es.
Qed.

Lemma section_is_added_to_a_plain_body :
  updatedDocument (inBody (textPara "t" ++ "<w:sectPr><w:cols/></w:sectPr>"))
    (inBody (textPara "m"))
  = Some ("<w:document><w:body>" ++ textPara "m"
            ++ "<w:sectPr><w:cols/></w:sectPr>" ++ "</w:body></w:document>").
Proof.
  rewrite (updatedDocument_without_sections
             (inBody (textPara "t" ++ "<w:sectPr><w:cols/></w:sectPr>"))
             (inBody (textPara "m")));
    [vm_compute; reflexivity | vm_compute; discriminate | vm_compute; reflexivity
    | vm_compute; reflexivity].
Defined.

Lemma captureFirst_eq (open close s : string) :
  captureFirst open close s =
  match captureAt open close s with
  | Some c => Some c
  | None => match s with
            | EmptyString => None
            | String _ t => captureFirst open close t
            end
  end.
Proof. destruct s; reflexivity. Qed.

Lemma captureFirst_none (open close s : string) :
  includes open s = false -> captureFirst open close s = None.
Proof.
  induction s as [|c s IH]; intros H; rewrite captureFirst_eq; unfold captureAt.
  - destruct (startsWith open EmptyString) eqn:E; [|reflexivity].
    apply startsWith_includes in E. congruence.
  - destruct (startsWith open (String c s)) eqn:E.
    + apply startsWith_includes in E. congruence.
    + apply IH. eapply includes_cons_false; exact H.
Qed.

Lemma captureFirst_found (open close s a r c r' : string) :
  splitOn open s = Some (a, r) ->
  splitOn close r = Some (c, r') ->
  noLineTerminator c = true ->
  captureFirst open close s = Some c.
Proof.
  intros Ho Hc Hn. revert a Ho. induction s as [|x s IH]; intros a Ho;
    rewrite captureFirst_eq; unfold captureAt; rewrite splitOn_eq in Ho.
  - destruct (startsWith open EmptyString); [|discriminate].
    injection Ho as _ <-. now rewrite Hc, Hn.
  - destruct (startsWith open (String x s)).
    + injection Ho as _ <-. now rewrite Hc, Hn.
    + destruct (splitOn open s) as [[a' r0]|]; [|discriminate].
      injection Ho as _ <-. exact (IH a' eq_refl).
Qed.

(** X13: [extractWordVersion] answers [Unknown] for a package without
    [docProps/app.xml], for an empty part, and for a part that holds
    neither an [<AppName>] nor an [<AppVersion>] tag; it never throws. *)
Theorem extractWordVersion_unknown (appXml : option string) :
  falsy appXml = true \/
  (exists x, appXml = Some x /\
             includes "<AppName>" x = false /\ includes "<AppVersion>" x = false) ->
  extractWordVersion appXml = "Unknown".
Proof.
  intros [H | (x & -> & Hn & Hv)].
  - destruct appXml as [x|]; [|reflexivity]. simpl in H. unfold extractWordVersion. now rewrite H.
  - unfold extractWordVersion. destruct (String.eqb x EmptyString); [reflexivity|].
    rewrite (captureFirst_none _ _ _ Hn), (captureFirst_none _ _ _ Hv). reflexivity.
Qed.

Lemma word_properties_are_unknown :
  extractWordVersion (Some wordProperties) = "Unknown".
Proof.
  apply extractWordVersion_unknown. right. exists wordProperties.
  repeat split; vm_compute; reflexivity.
Defined.

(** X14: where the part holds both elements on one line each, the answer is
    the text of the first [<AppName>] element, a blank and the text of the
    first [<AppVersion>] element, trimmed. *)
Theorem extractWordVersion_reads_both_elements
    (appXml a1 r1 name t1 a2 r2 version t2 : string) :
  splitOn "<AppName>" appXml = Some (a1, r1) ->
  splitOn "</AppName>" r1 = Some (name, t1) ->
  noLineTerminator name = true ->
  splitOn "<AppVersion>" appXml = Some (a2, r2) ->
  splitOn "</AppVersion>" r2 = Some (version, t2) ->
  noLineTerminator version = true ->
  extractWordVersion (Some appXml) = trim (name ++ " " ++ version).
Proof.
  intros H1 H2 H3 H4 H5 H6. unfold extractWordVersion.
  destruct (String.eqb appXml EmptyString) eqn:E.
  - apply String.eqb_eq in E. subst appXml. discriminate H1.
  - rewrite (captureFirst_found _ _ _ _ _ _ _ H1 H2 H3).
    rewrite (captureFirst_found _ _ _ _ _ _ _ H4 H5 H6). reflexivity.
Qed.

Lemma named_properties_are_read :
  extractWordVersion (Some namedProperties) = "Word 16.0".
Proof.
  rewrite (extractWordVersion_reads_both_elements namedProperties
             "<Properties>" "Word</AppName><AppVersion>16.0</AppVersion></Properties>"
             "Word" "<AppVersion>16.0</AppVersion></Properties>"
             "<Properties><AppName>Word</AppName>" "16.0</AppVersion></Properties>"
             "16.0" "</Properties>");
    vm_compute; reflexivity.
Defined.



End SectionsAndVersion.

Section PackageParts.

Import JS TemplateApplier Parts Samples Cases.

(** Storing a text under a path that is present keeps the set of parts. *)
Lemma putFile_present (z : gmap string string) (path content p : string) :
  is_Some (z !! path) -> (is_Some (putFile z path content !! p) <-> is_Some (z !! p)).
Proof.
  intros Hp. unfold putFile. destruct (decide (p = path)) as [->|Hne].
  - rewrite lookup_insert_eq. split; eauto.
  - rewrite lookup_insert_ne by congruence. reflexivity.
Qed.

Lemma putFile_other (z : gmap string string) (path content p : string) :
  p <> path -> putFile z path content !! p = z !! p.
Proof. intros Hne. unfold putFile. apply lookup_insert_ne. congruence. Qed.

Lemma preserveRelationships_parts (templateZip mergedZip : gmap string string) (p : string) :
  (is_Some (preserveRelationships templateZip mergedZip !! p) <-> is_Some (mergedZip !! p)) /\
  (p <> relsPath -> preserveRelationships templateZip mergedZip !! p = mergedZip !! p).
Proof.
  unfold preserveRelationships, getZipEntryText.
  destruct (templateZip !! relsPath) as [t|]; [|tauto].
  destruct (mergedZip !! relsPath) as [m|] eqn:Hm; [|tauto].
  destruct (String.eqb t EmptyString || String.eqb m EmptyString); [tauto|].
  destruct (headerFooterRels t); [tauto|].
  split; [apply putFile_present; eauto | apply putFile_other].
Qed.

Lemma preserveFile_parts (templateZip mergedZip : gmap string string) (filePath p : string) :
  (is_Some (preserveFile templateZip mergedZip filePath !! p) <-> is_Some (mergedZip !! p)) /\
  (p <> filePath -> preserveFile templateZip mergedZip filePath !! p = mergedZip !! p).
Proof.
  unfold preserveFile, getZipEntryText.
  destruct (templateZip !! filePath) as [t|]; [|tauto].
  destruct (mergedZip !! filePath) as [m|] eqn:Hm; [|tauto].
  destruct (String.eqb t EmptyString || String.eqb m EmptyString); [tauto|].
  destruct (includes "theme" filePath || includes "fontTable" filePath);
    [split; [apply putFile_present; eauto | apply putFile_other]|].
  destruct (String.eqb filePath "word/styles.xml");
    [split; [apply putFile_present; eauto | apply putFile_other] | tauto].
Qed.

Lemma preserveFile_styled (templateZip mergedZip : gmap string string) (filePath : string) :
  In filePath ["word/styles.xml"; "word/fontTable.xml"; "word/theme/theme1.xml"] ->
  preserveFile templateZip mergedZip filePath !! filePath
    = preservedPart templateZip mergedZip filePath.
Proof.
  intros Hin. unfold preserveFile, preservedPart, getZipEntryText.
  destruct (templateZip !! filePath) as [t|]; [|reflexivity].
  destruct (mergedZip !! filePath) as [m|] eqn:Hm; [|exact Hm].
  destruct (String.eqb t EmptyString || String.eqb m EmptyString); [exact Hm|].
  simpl in Hin. destruct Hin as [<-|[<-|[<-|[]]]]; vm_compute includes; simpl;
    unfold putFile; apply lookup_insert_eq.
Qed.

Lemma preserveFile_kept (templateZip mergedZip : gmap string string) (filePath : string) :
  In filePath ["word/settings.xml"; "[Content_Types].xml"] ->
  preserveFile templateZip mergedZip filePath = mergedZip.
Proof.
  intros Hin. unfold preserveFile, getZipEntryText.
  destruct (templateZip !! filePath) as [t|]; [|reflexivity].
  destruct (mergedZip !! filePath) as [m|] eqn:Hm; [|reflexivity].
  destruct (String.eqb t EmptyString || String.eqb m EmptyString); [reflexivity|].
  simpl in Hin. destruct Hin as [<-|[<-|[]]]; reflexivity.
Qed.

Lemma updateDocumentReferences_parts (templateZip mergedZip : gmap string string) (p : string) :
  (is_Some (updateDocumentReferences templateZip mergedZip !! p) <-> is_Some (mergedZip !! p)) /\
  (p <> documentPath -> updateDocumentReferences templateZip mergedZip !! p = mergedZip !! p).
Proof.
  unfold updateDocumentReferences, getZipEntryText.
  destruct (templateZip !! documentPath) as [t|]; [|tauto].
  destruct (mergedZip !! documentPath) as [m|] eqn:Hm; [|tauto].
  destruct (String.eqb t EmptyString || String.eqb m EmptyString); [tauto|].
  destruct (updatedDocument t m); [|tauto].
  split; [apply putFile_present; eauto | apply putFile_other].
Qed.

Lemma removeBlankFirstPage_parts (mergedZip : gmap string string) (p : string) :
  (is_Some (removeBlankFirstPage mergedZip !! p) <-> is_Some (mergedZip !! p)) /\
  (p <> documentPath -> removeBlankFirstPage mergedZip !! p = mergedZip !! p).
Proof.
  unfold removeBlankFirstPage, getZipEntryText.
  destruct (mergedZip !! documentPath) as [m|] eqn:Hm; [|tauto].
  destruct (String.eqb m EmptyString); [tauto|].
  destruct (blankFirstPage m); [|tauto].
  split; [apply putFile_present; eauto | apply putFile_other].
Qed.

Lemma copyHeaderFooterFiles_lookup (templateZip mergedZip : gmap string string) (p : string) :
  copyHeaderFooterFiles templateZip mergedZip !! p =
  if isHeaderFooterPath p
  then match templateZip !! p with Some c => Some c | None => mergedZip !! p end
  else mergedZip !! p.
Proof.
  unfold copyHeaderFooterFiles.
  destruct (isHeaderFooterPath p) eqn:Hp.
  - destruct (templateZip !! p) as [c|] eqn:Ht.
    + apply lookup_union_Some_l. apply map_lookup_filter_Some. split; [exact Ht | exact Hp].
    + apply lookup_union_r. apply map_lookup_filter_None. left. exact Ht.
  - apply lookup_union_r. apply map_lookup_filter_None. right.
    intros x _. simpl. rewrite Hp. discriminate.
Qed.

Lemma preserveStyles_parts (templateZip mergedZip : gmap string string) (p : string) :
  (is_Some (preserveStyles templateZip mergedZip !! p) <-> is_Some (mergedZip !! p)) /\
  (~ In p [relsPath; "word/styles.xml"; "word/fontTable.xml"; "word/theme/theme1.xml"] ->
   preserveStyles templateZip mergedZip !! p = mergedZip !! p).
Proof.
  unfold preserveStyles, filesToPreserve. cbn [fold_left].
  rewrite !(preserveFile_kept _ _ "word/settings.xml") by (simpl; auto).
  rewrite !(preserveFile_kept _ _ "[Content_Types].xml") by (simpl; auto).
  split.
  - rewrite (proj1 (preserveFile_parts _ _ _ _)), (proj1 (preserveFile_parts _ _ _ _)),
      (proj1 (preserveFile_parts _ _ _ _)).
    apply preserveRelationships_parts.
  - intros Hp. simpl in Hp.
    rewrite (proj2 (preserveFile_parts _ _ _ _)) by (intros ->; apply Hp; auto 10).
    rewrite (proj2 (preserveFile_parts _ _ _ _)) by (intros ->; apply Hp; auto 10).
    rewrite (proj2 (preserveFile_parts _ _ _ _)) by (intros ->; apply Hp; auto 10).
    apply preserveRelationships_parts. intros ->; apply Hp; auto 10.
Qed.

(** X7: [applyTemplate] never drops a part of the merged package, and the
    only parts it adds are the header and footer parts of the template. *)
Theorem templated_keeps_every_part (templateZip mergedZip : gmap string string) (p : string) :
  is_Some (templated templateZip mergedZip !! p) <->
  is_Some (mergedZip !! p) \/ (isHeaderFooterPath p = true /\ is_Some (templateZip !! p)).
Proof.
  unfold templated.
  rewrite (proj1 (removeBlankFirstPage_parts _ _)).
  rewrite (proj1 (updateDocumentReferences_parts _ _ _)).
  rewrite (proj1 (preserveStyles_parts _ _ _)).
  rewrite copyHeaderFooterFiles_lookup.
  destruct (isHeaderFooterPath p); [|intuition congruence].
  destruct (templateZip !! p) as [c|]; [intuition eauto|].
  split; [tauto|]. intros [H|[_ [x Hx]]]; [exact H | discriminate].
Qed.

Lemma templated_outside (templateZip mergedZip : gmap string string) (p : string) :
  ~ In p rewrittenPaths ->
  templated templateZip mergedZip !! p = copyHeaderFooterFiles templateZip mergedZip !! p.
Proof.
  intros Hp. unfold rewrittenPaths in Hp. simpl in Hp. unfold templated.
  rewrite (proj2 (removeBlankFirstPage_parts _ _)) by (intros ->; apply Hp; auto 10).
  rewrite (proj2 (updateDocumentReferences_parts _ _ _)) by (intros ->; apply Hp; auto 10).
  rewrite (proj2 (preserveStyles_parts _ _ _)) by (simpl; intuition auto 10).
  reflexivity.
Qed.

(** X8: a part that is neither a header or footer part nor one of the five
    rewritten paths leaves [applyTemplate] as the merged package held it; in
    particular [word/settings.xml] and [[Content_Types].xml] are never taken
    from the template. *)
Theorem templated_leaves_other_parts (templateZip mergedZip : gmap string string) (p : string) :
  ~ In p rewrittenPaths -> isHeaderFooterPath p = false ->
  templated templateZip mergedZip !! p = mergedZip !! p.
Proof.
  intros Hp Hhf. rewrite templated_outside by exact Hp.
  rewrite copyHeaderFooterFiles_lookup, Hhf. reflexivity.
Qed.

Lemma settings_are_kept :
  templated templatePackage mergedPackage !! "word/settings.xml"
    = Some "<w:settings>merged</w:settings>".
Proof.
  rewrite (templated_leaves_other_parts templatePackage mergedPackage "word/settings.xml");
    [reflexivity | unfold rewrittenPaths; simpl; intuition discriminate | reflexivity].
Defined.

Lemma headerFooter_not_rewritten (p : string) :
  isHeaderFooterPath p = true -> ~ In p rewrittenPaths.
Proof.
  intros Hp Hin. unfold rewrittenPaths in Hin. simpl in Hin.
  destruct Hin as [<-|[<-|[<-|[<-|[<-|[]]]]]]; vm_compute in Hp; discriminate.
Qed.

(** X9: every header and footer part of the template is in the result with
    the template's content, whatever the merged package held under that
    path; a header or footer part that only the merged package has stays. *)
Theorem templated_header_footer_parts (templateZip mergedZip : gmap string string) (p : string) :
  isHeaderFooterPath p = true ->
  templated templateZip mergedZip !! p =
    match templateZip !! p with
    | Some c => Some c
    | None => mergedZip !! p
    end.
Proof.
  intros Hp. rewrite templated_outside by (apply headerFooter_not_rewritten; exact Hp).
  rewrite copyHeaderFooterFiles_lookup, Hp. reflexivity.
Qed.

Lemma header_is_replaced :
  templated templatePackage mergedPackage !! "word/header1.xml"
    = Some "<w:hdr>template</w:hdr>".
Proof.
  rewrite (templated_header_footer_parts templatePackage mergedPackage "word/header1.xml");
    reflexivity.
Defined.

Lemma preservedPart_ext (templateZip z z' : gmap string string) (filePath : string) :
  z !! filePath = z' !! filePath ->
  preservedPart templateZip z filePath = preservedPart templateZip z' filePath.
Proof. intros H. unfold preservedPart. rewrite H. reflexivity. Qed.

Lemma preserveStyles_styled (templateZip mergedZip : gmap string string) (filePath : string) :
  In filePath ["word/styles.xml"; "word/fontTable.xml"; "word/theme/theme1.xml"] ->
  preserveStyles templateZip mergedZip !! filePath = preservedPart templateZip mergedZip filePath.
Proof.
  intros Hin. unfold preserveStyles, filesToPreserve. cbn [fold_left].
  rewrite !(preserveFile_kept _ _ "word/settings.xml") by (simpl; auto).
  rewrite !(preserveFile_kept _ _ "[Content_Types].xml") by (simpl; auto).
  simpl in Hin. destruct Hin as [<-|[<-|[<-|[]]]].
  - rewrite (proj2 (preserveFile_parts _ _ _ _)) by discriminate.
    rewrite (proj2 (preserveFile_parts _ _ _ _)) by discriminate.
    rewrite preserveFile_styled by (simpl; auto).
    apply preservedPart_ext. apply preserveRelationships_parts. discriminate.
  - rewrite (proj2 (preserveFile_parts _ _ _ _)) by discriminate.
    rewrite preserveFile_styled by (simpl; auto).
    apply preservedPart_ext.
    rewrite (proj2 (preserveFile_parts _ _ _ _)) by discriminate.
    apply preserveRelationships_parts. discriminate.
  - rewrite preserveFile_styled by (simpl; auto).
    apply preservedPart_ext.
    rewrite (proj2 (preserveFile_parts _ _ _ _)) by discriminate.
    rewrite (proj2 (preserveFile_parts _ _ _ _)) by discriminate.
    apply preserveRelationships_parts. discriminate.
Qed.

(** X10: the styles, the font table and the theme of the result are the
    template's whenever both packages hold a non-empty part under that path;
    otherwise the merged package keeps what it had. *)
Theorem templated_styles_come_from_the_template (templateZip mergedZip : gmap string string)
    (filePath : string) :
  In filePath ["word/styles.xml"; "word/fontTable.xml"; "word/theme/theme1.xml"] ->
  templated templateZip mergedZip !! filePath = preservedPart templateZip mergedZip filePath.
Proof.
  intros Hin. unfold templated.
  assert (Hdoc : filePath <> documentPath)
    by (simpl in Hin; destruct Hin as [<-|[<-|[<-|[]]]]; discriminate).
  assert (Hhf : isHeaderFooterPath filePath = false)
    by (simpl in Hin; destruct Hin as [<-|[<-|[<-|[]]]]; reflexivity).
  rewrite (proj2 (removeBlankFirstPage_parts _ _)) by exact Hdoc.
  rewrite (proj2 (updateDocumentReferences_parts _ _ _)) by exact Hdoc.
  rewrite preserveStyles_styled by exact Hin.
  apply preservedPart_ext. rewrite copyHeaderFooterFiles_lookup, Hhf. reflexivity.
Qed.

Lemma styles_are_replaced :
  templated templatePackage mergedPackage !! "word/styles.xml"
    = Some "<w:styles>template</w:styles>".
Proof.
  rewrite (templated_styles_come_from_the_template templatePackage mergedPackage
             "word/styles.xml"); [reflexivity | simpl; auto].
Defined.

End PackageParts.

Section FilesOfAMerge.

Import JS TableHandler TemplateApplier WordMerger Samples Cases.

Lemma matchAllFrom_none (l0 : string) (lits : list string) (s : string) (k : nat) :
  includes l0 s = false -> matchAllFrom l0 lits k s = [].
Proof.
  revert k; induction s as [|c s IH]; intros k H; [reflexivity|].
  cbn [matchAllFrom]. destruct k as [|k].
  - unfold matchAt.
    destruct (startsWith l0 (String c s)) eqn:E.
    + apply startsWith_includes in E. congruence.
    + apply IH. eapply includes_cons_false; exact H.
  - apply IH. eapply includes_cons_false; exact H.
Qed.

Lemma processTableReferences_no_table (docXml : string) (n : nat) :
  includes "<w:tbl>" docXml = false -> processTableReferences docXml n = docXml.
Proof.
  intros H. unfold processTableReferences, documentTables, matchAll.
  rewrite matchAllFrom_none by exact H. reflexivity.
Qed.

(** What [applyTemplate] does to the file system. *)
Lemma applyTemplate_cases (templatePath mergedPath outputPath : string)
    (fs : gmap string fileData) :
  (exists e, applyTemplate templatePath mergedPath outputPath fs = (inl e, fs) /\
             (forall templateZip mergedZip,
                 fs !! templatePath = Some (ZipFile templateZip) ->
                 fs !! mergedPath = Some (ZipFile mergedZip) -> False)) \/
  (exists templateZip mergedZip,
      fs !! templatePath = Some (ZipFile templateZip) /\
      fs !! mergedPath = Some (ZipFile mergedZip) /\
      applyTemplate templatePath mergedPath outputPath fs
        = (inr tt, <[outputPath := ZipFile (templated templateZip mergedZip)]> fs)).
Proof.
  unfold applyTemplate, bind, readFileSync, loadAsync, writeFileSync, ret, throw.
  destruct (fs !! templatePath) as [[T|b]|] eqn:Ht;
    destruct (fs !! mergedPath) as [[M|b']|] eqn:Hm;
    try (left; eexists; split; [reflexivity | intros ? ? ? ?; congruence]).
  right. exists T, M. auto.
Qed.

Lemma processTablesInDocument_cases (outputPath : string) (fs : gmap string fileData) :
  (exists e, processTablesInDocument outputPath fs = (inl e, fs) /\
             (forall z documentXml,
                 fs !! outputPath = Some (ZipFile z) ->
                 z !! documentPath = Some documentXml -> False)) \/
  (exists z documentXml,
      fs !! outputPath = Some (ZipFile z) /\
      z !! documentPath = Some documentXml /\
      processTablesInDocument outputPath fs
        = (inr tt, <[outputPath :=
                       ZipFile (putFile z documentPath (processTableReferences documentXml 1))]> fs)).
Proof.
  unfold processTablesInDocument, bind, readFileSync, loadAsync, writeFileSync, ret, throw.
  destruct (fs !! outputPath) as [[z|b]|] eqn:Ho;
    try (left; eexists; split; [reflexivity | intros ? ? ? ?; congruence]).
  destruct (z !! documentPath) as [d|] eqn:Hd.
  - right. exists z, d. auto.
  - left; eexists; split; [reflexivity | intros ? ? ? ?; congruence].
Qed.

(** X6: [processTablesInDocument] changes nothing but the main part of the
    package at [outputPath]: every other file and every other part of the
    package stay, whatever the main part holds; on a failure no file is
    touched.  For a main part that is well-formed UTF-8 the part it stores
    is the numbered text, and when that text holds no [<w:tbl>] the package
    is written back with the parts it had. *)
Theorem processTablesInDocument_rewrites_the_main_part (outputPath : string)
    (fs : gmap string fileData) :
  match processTablesInDocument outputPath fs with
  | (inr _, fs') =>
      exists z z' documentXml,
        fs !! outputPath = Some (ZipFile z) /\
        z !! documentPath = Some documentXml /\
        fs' = <[outputPath := ZipFile z']> fs /\
        (forall p, p <> documentPath -> z' !! p = z !! p) /\
        is_Some (z' !! documentPath) /\
        (Utf8.wellFormed documentXml = true ->
         z' !! documentPath = Some (processTableReferences documentXml 1) /\
         (includes "<w:tbl>" documentXml = false -> fs' = fs))
  | (inl _, fs') => fs' = fs
  end.
Proof.
  destruct (processTablesInDocument_cases outputPath fs)
    as [(e & -> & _)|(z & d & Ho & Hd & ->)]; [reflexivity|].
  exists z, (putFile z documentPath (processTableReferences d 1)), d.
  split; [exact Ho|]. split; [exact Hd|]. split; [reflexivity|].
  split; [intros p Hp; apply lookup_insert_ne; congruence|].
  split; [unfold putFile; rewrite lookup_insert_eq; eauto|].
  intros _. split; [apply lookup_insert_eq|].
  intros Hno. rewrite processTableReferences_no_table by exact Hno.
  unfold putFile. rewrite (insert_id z documentPath d Hd).
  apply insert_id. exact Ho.
Qed.

(** A package whose main part is text without a table. *)
Example package_without_a_table_is_written_back :
  Utf8.wellFormed (inBody (textPara "one")) = true /\
  processTablesInDocument "uploads/1700000000000-1.docx" uploadedFiles
    = (inr tt, uploadedFiles).
Proof. vm_compute. split; reflexivity. Qed.

(** Files other than the output path and the temporary path. *)
Lemma mergeCallback_frame (templatePath outputPath : string) (mergedBuffer : fileData)
    (fs : gmap string fileData) (q : string) :
  q <> outputPath -> q <> tempOutputPathOf outputPath ->
  (mergeCallback templatePath outputPath mergedBuffer fs).2 !! q = fs !! q.
Proof.
  intros Hq Ht. unfold mergeCallback.
  unfold bind at 1. unfold writeFileSync at 1.
  set (fs1 := <[tempOutputPathOf outputPath := mergedBuffer]> fs).
  assert (H1 : fs1 !! q = fs !! q) by (apply lookup_insert_ne; congruence).
  unfold bind at 1.
  destruct (applyTemplate_cases templatePath (tempOutputPathOf outputPath) outputPath fs1)
    as [(e & -> & _)|(T & M & _ & _ & ->)]; [exact H1|].
  set (fs2 := <[outputPath := ZipFile (templated T M)]> fs1).
  assert (H2 : fs2 !! q = fs !! q)
    by (unfold fs2; rewrite lookup_insert_ne by congruence; exact H1).
  unfold bind at 1.
  destruct (processTablesInDocument_cases outputPath fs2)
    as [(e & -> & _)|(z & d & _ & _ & ->)]; [exact H2|].
  set (fs3 := <[outputPath := _]> fs2).
  assert (H3 : fs3 !! q = fs !! q)
    by (unfold fs3; rewrite lookup_insert_ne by congruence; exact H2).
  unfold bind, existsSync, unlinkSync, ret.
  case_bool_decide; simpl; [|exact H3].
  rewrite lookup_delete_ne by congruence. exact H3.
Qed.

(** X16: whatever its outcome, [mergeDocuments] creates, changes or removes
    no file other than the output path and the temporary path: the template
    and the input documents stay on disk as they were. *)
Theorem mergeDocuments_touches_two_paths (docxMerger : list fileData -> option fileData)
    (templatePath : string) (documentPaths : list string) (outputPath : string)
    (fs : gmap string fileData) (q : string) :
  q <> outputPath -> q <> tempOutputPathOf outputPath ->
  (mergeDocuments docxMerger templatePath documentPaths outputPath fs).2 !! q = fs !! q.
Proof.
  intros Hq Ht.
  destruct (mergeDocuments_cases docxMerger templatePath documentPaths outputPath fs)
    as [(e & ->)|(buffers & mergedBuffer & _ & _ & ->)]; [reflexivity|].
  apply mergeCallback_frame; assumption.
Qed.

Lemma template_survives_a_merge :
  (mergeDocuments handThrough "/srv/app/sample/template.docx"
     ["uploads/1700000000000-1.docx"] "/srv/app/uploads/merged-document.docx"
     uploadedFiles).2 !! "/srv/app/sample/template.docx"
  = uploadedFiles !! "/srv/app/sample/template.docx".
Proof.
  apply mergeDocuments_touches_two_paths; vm_compute; discriminate.
Defined.

End FilesOfAMerge.

Section OutcomeOfAMerge.

Import JS TableHandler TemplateApplier WordMerger Samples Cases.

Lemma readDocuments_result (documentPaths : list string) (fs : gmap string fileData) :
  match (readDocuments documentPaths fs).1 with
  | inr buffers => Forall2 (fun path b => fs !! path = Some b) documentPaths buffers
  | inl e => exists path, In path documentPaths /\ fs !! path = None /\ e = NoSuchFile path
  end.
Proof.
  induction documentPaths as [|d rest IH]; [constructor|].
  cbn [readDocuments]. unfold bind at 1. unfold readFileSync at 1.
  destruct (fs !! d) as [b|] eqn:Hd.
  - unfold bind. destruct (readDocuments rest fs) as [[e|bs] fs1]; simpl in *.
    + destruct IH as (path & Hin & Hp & ->). exists path. auto.
    + constructor; assumption.
  - simpl. exists d. auto.
Qed.

Lemma checkDocuments_result (documentPaths : list string) (fs : gmap string fileData) :
  match (checkDocuments documentPaths fs).1 with
  | inr _ => Forall (fun path => is_Some (fs !! path)) documentPaths
  | inl e =>
      exists before missing after,
        documentPaths = (before ++ missing :: after)%list /\
        Forall (fun path => is_Some (fs !! path)) before /\
        fs !! missing = None /\
        e = MissingInput ("Document file does not exist: " ++ missing)
  end.
Proof.
  induction documentPaths as [|d rest IH]; [constructor|].
  cbn [checkDocuments]. unfold bind, existsSync. case_bool_decide as E.
  - destruct (checkDocuments rest fs) as [[e|u] fs1]; simpl in *.
    + destruct IH as (b & m & a & -> & Hb & Hm & ->).
      exists (d :: b), m, a. repeat split; auto.
    + constructor; assumption.
  - simpl. exists [], d, rest. repeat split; auto.
    destruct (fs !! d) eqn:F; [exfalso; apply E; eauto | reflexivity].
Qed.

(** A successful callback, with the file system it leaves. *)
Lemma mergeCallback_success (templatePath outputPath : string) (mergedBuffer : fileData)
    (fs fs' : gmap string fileData) (p : string) :
  mergeCallback templatePath outputPath mergedBuffer fs = (inr p, fs') ->
  p = outputPath /\
  exists mergedZip templateZip documentXml,
    mergedBuffer = ZipFile mergedZip /\
    <[tempOutputPathOf outputPath := mergedBuffer]> fs !! templatePath
      = Some (ZipFile templateZip) /\
    templated templateZip mergedZip !! documentPath = Some documentXml /\
    fs' = <[outputPath :=
              ZipFile (<[documentPath := processTableReferences documentXml 1]>
                         (templated templateZip mergedZip))]>
            (delete (tempOutputPathOf outputPath) fs).
Proof.
  unfold mergeCallback.
  unfold bind at 1. unfold writeFileSync at 1.
  set (fs1 := <[tempOutputPathOf outputPath := mergedBuffer]> fs).
  unfold bind at 1.
  destruct (applyTemplate_cases templatePath (tempOutputPathOf outputPath) outputPath fs1)
    as [(e & -> & _)|(T & M & HT & HM & ->)]; [discriminate|].
  unfold fs1 in HM. rewrite lookup_insert_eq in HM. injection HM as HM.
  set (fs2 := <[outputPath := ZipFile (templated T M)]> fs1).
  unfold bind at 1.
  destruct (processTablesInDocument_cases outputPath fs2)
    as [(e & -> & _)|(z & d & Hz & Hd & ->)]; [discriminate|].
  unfold fs2 in Hz. rewrite lookup_insert_eq in Hz. injection Hz as <-.
  unfold bind, existsSync, unlinkSync, ret.
  pose proof (tempOutputPath_fresh outputPath) as Hfresh.
  rewrite bool_decide_eq_true_2.
  2:{ rewrite lookup_insert_ne by congruence. unfold fs2.
      rewrite lookup_insert_ne by congruence. unfold fs1.
      rewrite lookup_insert_eq. eauto. }
  intros [= <- <-]. split; [reflexivity|].
  exists M, T, d. repeat split; auto.
  unfold fs2, putFile. rewrite insert_insert_eq.
  rewrite delete_insert_ne by congruence. unfold fs1.
  rewrite delete_insert_eq. reflexivity.
Qed.

(** X15: what a successful [mergeDocuments] has done: it resolves with the
    output path; every document existed; the merged buffer and the template
    were archives; the temporary file is gone; the output path holds the
    templated package with its main part numbered; nothing else changed. *)
Theorem mergeDocuments_success (docxMerger : list fileData -> option fileData)
    (templatePath : string) (documentPaths : list string) (outputPath : string)
    (fs fs' : gmap string fileData) (p : string) :
  mergeDocuments docxMerger templatePath documentPaths outputPath fs = (inr p, fs') ->
  p = outputPath /\
  exists buffers mergedZip templateZip documentXml,
    Forall2 (fun path b => fs !! path = Some b) documentPaths buffers /\
    docxMerger buffers = Some (ZipFile mergedZip) /\
    <[tempOutputPathOf outputPath := ZipFile mergedZip]> fs !! templatePath
      = Some (ZipFile templateZip) /\
    templated templateZip mergedZip !! documentPath = Some documentXml /\
    fs' = <[outputPath :=
              ZipFile (<[documentPath := processTableReferences documentXml 1]>
                         (templated templateZip mergedZip))]>
            (delete (tempOutputPathOf outputPath) fs).
Proof.
  intros H.
  destruct (mergeDocuments_cases docxMerger templatePath documentPaths outputPath fs)
    as [(e & He)|(buffers & mergedBuffer & Hr & Hm & Hc)];
    [rewrite H in He; discriminate|].
  rewrite Hc in H. apply mergeCallback_success in H.
  destruct H as (-> & M & T & d & -> & HT & Hd & ->).
  split; [reflexivity|]. exists buffers, M, T, d.
  pose proof (readDocuments_result documentPaths fs) as Hb. rewrite Hr in Hb.
  repeat split; assumption.
Qed.

Lemma merge_of_one_upload :
  let r := mergeDocuments handThrough "/srv/app/sample/template.docx"
             ["uploads/1700000000000-1.docx"] "/srv/app/uploads/merged-document.docx"
             uploadedFiles in
  r.1 = inr "/srv/app/uploads/merged-document.docx" /\
  exists buffers mergedZip templateZip documentXml,
    Forall2 (fun path b => uploadedFiles !! path = Some b)
      ["uploads/1700000000000-1.docx"] buffers /\
    handThrough buffers = Some (ZipFile mergedZip) /\
    <[tempOutputPathOf "/srv/app/uploads/merged-document.docx" := ZipFile mergedZip]>
      uploadedFiles !! "/srv/app/sample/template.docx" = Some (ZipFile templateZip) /\
    templated templateZip mergedZip !! documentPath = Some documentXml /\
    r.2 = <["/srv/app/uploads/merged-document.docx" :=
              ZipFile (<[documentPath := processTableReferences documentXml 1]>
                         (templated templateZip mergedZip))]>
            (delete (tempOutputPathOf "/srv/app/uploads/merged-document.docx") uploadedFiles).
Proof.
  cbv zeta.
  assert (H : mergeDocuments handThrough "/srv/app/sample/template.docx"
                ["uploads/1700000000000-1.docx"] "/srv/app/uploads/merged-document.docx"
                uploadedFiles
              = (inr "/srv/app/uploads/merged-document.docx",
                 (mergeDocuments handThrough "/srv/app/sample/template.docx"
                    ["uploads/1700000000000-1.docx"] "/srv/app/uploads/merged-document.docx"
                    uploadedFiles).2))
    by (vm_compute; reflexivity).
  split; [vm_compute; reflexivity|].
  exact (proj2 (mergeDocuments_success _ _ _ _ _ _ _ H)).
Defined.

(** X17: a missing input is reported before anything is read or written:
    without the template the error names the template; with the template
    there, it names the first document that does not exist; the merger is
    not called and the file system is untouched. *)
Theorem mergeDocuments_missing_input (docxMerger : list fileData -> option fileData)
    (templatePath : string) (documentPaths : list string) (outputPath : string)
    (fs : gmap string fileData) :
  (fs !! templatePath = None ->
   mergeDocuments docxMerger templatePath documentPaths outputPath fs
     = (inl (MissingInput ("Template file does not exist: " ++ templatePath)), fs)) /\
  (forall before missing after,
      is_Some (fs !! templatePath) ->
      documentPaths = (before ++ missing :: after)%list ->
      Forall (fun path => is_Some (fs !! path)) before ->
      fs !! missing = None ->
      mergeDocuments docxMerger templatePath documentPaths outputPath fs
        = (inl (MissingInput ("Document file does not exist: " ++ missing)), fs)).
Proof.
  split.
  - intros Ht. unfold mergeDocuments, bind, existsSync.
    rewrite bool_decide_eq_false_2; [reflexivity|].
    rewrite Ht. intros [x Hx]; discriminate.
  - intros before missing after Ht -> Hb Hm.
    unfold mergeDocuments. unfold bind at 1. unfold existsSync at 1.
    rewrite bool_decide_eq_true_2 by exact Ht.
    unfold bind at 1. unfold ret at 1. unfold bind at 1.
    assert (Hc : checkDocuments (before ++ missing :: after)%list fs
                 = (inl (MissingInput ("Document file does not exist: " ++ missing)), fs)).
    { clear Ht. induction before as [|b rest IH].
      - cbn [app checkDocuments]. unfold bind, existsSync.
        rewrite bool_decide_eq_false_2; [reflexivity|].
        rewrite Hm. intros [x Hx]; discriminate.
      - cbn [app checkDocuments]. unfold bind, existsSync.
        inversion Hb as [|? ? Hb1 Hb2]; subst.
        rewrite bool_decide_eq_true_2 by exact Hb1. apply IH. exact Hb2. }
    rewrite Hc. reflexivity.
Qed.




Lemma missing_upload_is_named :
  mergeDocuments handThrough "/srv/app/sample/template.docx"
    ["uploads/1700000000000-1.docx"; "uploads/none.docx"] "out.docx" uploadedFiles
  = (inl (MissingInput "Document file does not exist: uploads/none.docx"), uploadedFiles).
Proof.
  apply (proj2 (mergeDocuments_missing_input handThrough "/srv/app/sample/template.docx"
                  ["uploads/1700000000000-1.docx"; "uploads/none.docx"] "out.docx"
                  uploadedFiles)
           ["uploads/1700000000000-1.docx"] "uploads/none.docx" []).
  - vm_compute. eauto.
  - reflexivity.
  - constructor; [vm_compute; eauto | constructor].
  - reflexivity.
Defined.

End OutcomeOfAMerge.

Section CleanupFacts.

Import WordMerger Cleanup.

Section Refusals.

Variable refused : gmap string fileData -> string -> bool.

(** One turn of the loop: the path is unlinked, or it stays because it does
    not exist or because the unlink is refused. *)
Lemma cleanupFiles_cons (filePath : string) (rest : list string) (fs : gmap string fileData) :
  cleanupFiles refused (filePath :: rest) fs =
  cleanupFiles refused rest
    (if bool_decide (is_Some (fs !! filePath)) && negb (refused fs filePath)
     then delete filePath fs else fs).
Proof.
  cbn [cleanupFiles]. unfold bind, existsSync, logged, unlink, ret.
  case_bool_decide as E; [|reflexivity].
  destruct (refused fs filePath); reflexivity.
Qed.

Lemma cleanupFiles_returns (filePaths : list string) (fs : gmap string fileData) :
  (cleanupFiles refused filePaths fs).1 = inr tt.
Proof.
  revert fs; induction filePaths as [|q rest IH]; intros fs; [reflexivity|].
  rewrite cleanupFiles_cons. apply IH.
Qed.

(** No file is changed, and no file that is not listed is removed. *)
Lemma cleanupFiles_lookup (filePaths : list string) (fs : gmap string fileData) (p : string) :
  ((cleanupFiles refused filePaths fs).2 !! p = None \/
   (cleanupFiles refused filePaths fs).2 !! p = fs !! p) /\
  (p ∉ filePaths -> (cleanupFiles refused filePaths fs).2 !! p = fs !! p).
Proof.
  revert fs; induction filePaths as [|q rest IH]; intros fs.
  - split; [right; reflexivity | reflexivity].
  - rewrite cleanupFiles_cons.
    set (fs1 := if bool_decide (is_Some (fs !! q)) && negb (refused fs q)
                then delete q fs else fs).
    assert (H1 : fs1 !! p = None \/ fs1 !! p = fs !! p).
    { unfold fs1. destruct (bool_decide (is_Some (fs !! q)) && negb (refused fs q));
        [|now right].
      destruct (decide (p = q)) as [->|Hne];
        [left; apply lookup_delete_eq | right; apply lookup_delete_ne; congruence]. }
    assert (H2 : p <> q -> fs1 !! p = fs !! p).
    { intros Hne. unfold fs1.
      destruct (bool_decide (is_Some (fs !! q)) && negb (refused fs q)); [|reflexivity].
      apply lookup_delete_ne. congruence. }
    destruct (IH fs1) as [[Hn | He] Hout].
    + split; [left; exact Hn|]. intros Hp. rewrite not_elem_of_cons in Hp.
      destruct Hp as [Hpq Hpr]. rewrite (Hout Hpr). exact (H2 Hpq).
    + split.
      * destruct H1 as [H1 | H1]; [left | right]; congruence.
      * intros Hp. rewrite not_elem_of_cons in Hp. destruct Hp as [Hpq Hpr].
        rewrite (Hout Hpr). exact (H2 Hpq).
Qed.

(** A listed path that is still there has been refused. *)
Lemma cleanupFiles_left (filePaths : list string) (fs : gmap string fileData) (p : string) :
  p ∈ filePaths ->
  (cleanupFiles refused filePaths fs).2 !! p = None \/
  exists fs0, fs0 !! p = fs !! p /\ refused fs0 p = true.
Proof.
  revert fs; induction filePaths as [|q rest IH]; intros fs Hin;
    [now apply not_elem_of_nil in Hin|].
  rewrite cleanupFiles_cons.
  set (fs1 := if bool_decide (is_Some (fs !! q)) && negb (refused fs q)
              then delete q fs else fs).
  destruct (decide (p = q)) as [->|Hne].
  - destruct (proj1 (cleanupFiles_lookup rest fs1 q)) as [Hn | He]; [now left|].
    rewrite He. unfold fs1. case_bool_decide as E; simpl.
    + destruct (refused fs q) eqn:R; simpl.
      * right. exists fs. split; [reflexivity | exact R].
      * left. apply lookup_delete_eq.
    + left. destruct (fs !! q) eqn:F; [exfalso; apply E; eauto | reflexivity].
  - apply elem_of_cons in Hin. destruct Hin as [Hin | Hin]; [contradiction|].
    destruct (IH fs1 Hin) as [Hn | (fs0 & H0 & R)]; [now left|].
    right. exists fs0. split; [|exact R]. rewrite H0. unfold fs1.
    destruct (bool_decide (is_Some (fs !! q)) && negb (refused fs q)); [|reflexivity].
    apply lookup_delete_ne. congruence.
Qed.

End Refusals.

(** X18: [cleanupFiles] never throws, also when [unlinkSync] does: the
    error is caught and the loop goes on.  It changes no file and removes
    none that is not listed.  A listed path is gone afterwards unless its
    unlink was refused; so when no unlink is refused, none of the listed
    paths exists afterwards. *)
Theorem cleanupFiles_removes_the_listed_files
    (refused : gmap string fileData -> string -> bool) (filePaths : list string)
    (fs : gmap string fileData) :
  (cleanupFiles refused filePaths fs).1 = inr tt /\
  (forall p, (cleanupFiles refused filePaths fs).2 !! p = None \/
             (cleanupFiles refused filePaths fs).2 !! p = fs !! p) /\
  (forall p, p ∉ filePaths -> (cleanupFiles refused filePaths fs).2 !! p = fs !! p) /\
  (forall p, p ∈ filePaths ->
             (cleanupFiles refused filePaths fs).2 !! p = None \/
             exists fs0, fs0 !! p = fs !! p /\ refused fs0 p = true) /\
  ((forall fs0 p, p ∈ filePaths -> refused fs0 p = false) ->
   forall p, p ∈ filePaths -> (cleanupFiles refused filePaths fs).2 !! p = None).
Proof.
  split; [apply cleanupFiles_returns|].
  split; [intros p; apply cleanupFiles_lookup|].
  split; [intros p; apply cleanupFiles_lookup|].
  split; [intros p; apply cleanupFiles_left|].
  intros Hfree p Hin.
  destruct (cleanupFiles_left refused filePaths fs p Hin) as [Hn | (fs0 & _ & R)]; [exact Hn|].
  rewrite (Hfree fs0 p Hin) in R. discriminate R.
Qed.

(** A folder among the uploads: its unlink is refused and it stays, the
    file listed behind it is removed all the same. *)
Example refused_path_stays :
  let fs := <["uploads/folder" := RawFile ""]> Samples.uploadedFiles in
  let r := cleanupFiles (Cases.refusedAt "uploads/folder")
             ["uploads/folder"; "uploads/1700000000000-1.docx"] fs in
  r.1 = inr tt /\
  r.2 !! "uploads/folder" = Some (RawFile "") /\
  r.2 !! "uploads/1700000000000-1.docx" = None.
Proof. vm_compute. repeat split. Qed.

End CleanupFacts.

Section RouteAndScript.

Import JS Text TableHandler TemplateApplier WordMerger Service Cleanup Parts MergeRoute MergeCli Samples Cases.

(** The errors of the callback come from reading, opening or numbering. *)
Lemma applyTemplate_error (templatePath mergedPath outputPath : string)
    (fs fs' : gmap string fileData) (e : error) :
  applyTemplate templatePath mergedPath outputPath fs = (inl e, fs') -> raisedByCaller e = false.
Proof.
  unfold applyTemplate, bind, readFileSync, loadAsync, writeFileSync, ret, throw.
  destruct (fs !! templatePath) as [[T|b]|]; destruct (fs !! mergedPath) as [[M|b']|];
    intros [= <- <-]; reflexivity.
Qed.

Lemma processTablesInDocument_error (outputPath : string)
    (fs fs' : gmap string fileData) (e : error) :
  processTablesInDocument outputPath fs = (inl e, fs') -> raisedByCaller e = false.
Proof.
  unfold processTablesInDocument, bind, readFileSync, loadAsync, writeFileSync, ret, throw.
  destruct (fs !! outputPath) as [[z|b]|]; try (intros [= <- <-]; reflexivity).
  destruct (z !! documentPath); intros [= <- <-]; reflexivity.
Qed.

Lemma mergeCallback_error (templatePath outputPath : string) (mergedBuffer : fileData)
    (fs fs' : gmap string fileData) (e : error) :
  mergeCallback templatePath outputPath mergedBuffer fs = (inl e, fs') ->
  raisedByCaller e = false.
Proof.
  unfold mergeCallback.
  unfold bind at 1. unfold writeFileSync at 1.
  unfold bind at 1.
  destruct (applyTemplate _ _ _ _) as [[e1|u1] fs2] eqn:Ha.
  { intros [= <- <-]. eapply applyTemplate_error; exact Ha. }
  unfold bind at 1.
  destruct (processTablesInDocument _ _) as [[e2|u2] fs3] eqn:Hp.
  { intros [= <- <-]. eapply processTablesInDocument_error; exact Hp. }
  unfold bind, existsSync, unlinkSync, ret.
  case_bool_decide; discriminate.
Qed.

Lemma checkDocuments_present (documentPaths : list string) (fs : gmap string fileData) :
  Forall (fun path => is_Some (fs !! path)) documentPaths ->
  checkDocuments documentPaths fs = (inr tt, fs).
Proof.
  induction 1 as [|d rest Hd _ IH]; [reflexivity|].
  cbn [checkDocuments]. unfold bind, existsSync.
  rewrite bool_decide_eq_true_2 by exact Hd. exact IH.
Qed.

Lemma readDocuments_present (documentPaths : list string) (fs : gmap string fileData) :
  Forall (fun path => is_Some (fs !! path)) documentPaths ->
  exists buffers, readDocuments documentPaths fs = (inr buffers, fs).
Proof.
  induction 1 as [|d rest [b Hd] _ [bs IH]]; [exists []; reflexivity|].
  exists (b :: bs). cbn [readDocuments]. unfold bind, readFileSync, ret.
  rewrite Hd, IH. reflexivity.
Qed.

Lemma mergeDocuments_checked (docxMerger : list fileData -> option fileData)
    (templatePath : string) (documentPaths : list string) (outputPath : string)
    (fs : gmap string fileData) :
  is_Some (fs !! templatePath) ->
  Forall (fun path => is_Some (fs !! path)) documentPaths ->
  exists buffers,
    readDocuments documentPaths fs = (inr buffers, fs) /\
    mergeDocuments docxMerger templatePath documentPaths outputPath fs =
      match docxMerger buffers with
      | None => (inl MergerFailed, fs)
      | Some mergedBuffer => mergeCallback templatePath outputPath mergedBuffer fs
      end.
Proof.
  intros Ht Hd. destruct (readDocuments_present documentPaths fs Hd) as [buffers Hr].
  exists buffers. split; [exact Hr|].
  unfold mergeDocuments. unfold bind at 1. unfold existsSync at 1.
  rewrite bool_decide_eq_true_2 by exact Ht.
  unfold bind at 1. unfold ret at 1. unfold bind at 1.
  rewrite (checkDocuments_present _ _ Hd).
  unfold bind at 1. rewrite Hr.
  unfold bind at 1. unfold readFileSync. destruct Ht as [t Ht]. rewrite Ht.
  destruct (docxMerger buffers); reflexivity.
Qed.

Lemma inputsValid_spec (inputFilePaths : list string) (fs : gmap string fileData) :
  inputsValid inputFilePaths fs = true <->
  Forall (fun path => is_Some (fs !! path) /\ endsWith ".docx" path = true) inputFilePaths.
Proof.
  induction inputFilePaths as [|d rest IH]; [split; [constructor | reflexivity]|].
  cbn [inputsValid]. case_bool_decide as E; simpl.
  - destruct (endsWith ".docx" d) eqn:Hd; simpl.
    + rewrite IH. split; [intros H; constructor; auto | intros H; inversion H; auto].
    + split; [discriminate | intros H; inversion H as [|? ? [_ H1] _]; congruence].
  - split; [discriminate | intros H; inversion H as [|? ? [H1 _] _]; contradiction].
Qed.

(** X19: the route answers 400 exactly when the request carries no stored
    upload (no [files] at all, or an empty list), and then leaves the file
    system alone: no merge is started. *)
Theorem no_upload_is_refused (docxMerger : list fileData -> option fileData) (dirname : string)
    (reqFiles : option (list string)) (fs : gmap string fileData) :
  ((mergeHandler docxMerger dirname reqFiles fs).1 = NoDocuments <->
   reqFiles = None \/ reqFiles = Some []) /\
  ((mergeHandler docxMerger dirname reqFiles fs).1 = NoDocuments ->
   status (mergeHandler docxMerger dirname reqFiles fs).1 = 400 /\
   (mergeHandler docxMerger dirname reqFiles fs).2 = fs).
Proof.
  unfold mergeHandler. destruct reqFiles as [[|u us]|]; simpl.
  - repeat split; auto.
  - destruct (mergeDocuments _ _ _ _ _) as [[e|p] fs']; simpl;
      (split; [split; [discriminate | intros [H|H]; discriminate] | discriminate]).
  - repeat split; auto.
Qed.

(** X20: when the merge fails the handler answers 500 and cleans nothing
    up: every file other than the output path and the temporary path, the
    uploads of the request among them, is still on disk with its content. *)
Theorem failed_merge_keeps_the_uploads (docxMerger : list fileData -> option fileData)
    (dirname : string) (uploaded : list string) (fs fs' : gmap string fileData)
    (e : error) (u : string) :
  mergeHandler docxMerger dirname (Some uploaded) fs = (MergeError e, fs') ->
  u <> outputPath dirname {| files := uploaded |} ->
  u <> tempOutputPathOf (outputPath dirname {| files := uploaded |}) ->
  status (MergeError e) = 500 /\ fs' !! u = fs !! u.
Proof.
  intros H Ho Ht. split; [reflexivity|].
  unfold mergeHandler in H.
  destruct (List.length uploaded <? 1)%nat; [discriminate|].
  destruct (mergeDocuments_cases docxMerger (templatePath dirname {| files := uploaded |})
              (documentPaths {| files := uploaded |})
              (outputPath dirname {| files := uploaded |}) fs)
    as [(e0 & He)|(buffers & mergedBuffer & _ & _ & Hc)].
  - rewrite He in H. injection H as _ <-. reflexivity.
  - rewrite Hc in H.
    pose proof (mergeCallback_frame (templatePath dirname {| files := uploaded |})
                  (outputPath dirname {| files := uploaded |}) mergedBuffer fs u Ho Ht) as F.
    destruct (mergeCallback _ _ _ _) as [[e1|p] fs1]; [|discriminate].
    injection H as _ <-. exact F.
Qed.

Lemma broken_upload_stays_on_disk :
  let r := mergeHandler handThrough "/srv/app" (Some ["uploads/1700000000000-1.docx"])
             brokenUpload in
  r.1 = MergeError NotAnArchive /\
  status (MergeError NotAnArchive) = 500 /\
  r.2 !! "uploads/1700000000000-1.docx" = brokenUpload !! "uploads/1700000000000-1.docx".
Proof.
  cbv zeta.
  assert (H : mergeHandler handThrough "/srv/app" (Some ["uploads/1700000000000-1.docx"])
                brokenUpload
              = (MergeError NotAnArchive,
                 (mergeHandler handThrough "/srv/app" (Some ["uploads/1700000000000-1.docx"])
                    brokenUpload).2))
    by (vm_compute; reflexivity).
  split; [vm_compute; reflexivity|].
  apply (failed_merge_keeps_the_uploads _ _ _ _ _ _ "uploads/1700000000000-1.docx" H);
    vm_compute; discriminate.
Defined.

(** What two clean-ups that are not refused leave. *)
Lemma cleanupFiles_all (refused : gmap string fileData -> string -> bool)
    (filePaths : list string) (fs : gmap string fileData) (q : string) :
  (forall fs0 p, p ∈ filePaths -> refused fs0 p = false) ->
  (cleanupFiles refused filePaths fs).2 !! q
    = if bool_decide (q ∈ filePaths) then None else fs !! q.
Proof.
  intros Hfree. destruct (decide (q ∈ filePaths)) as [Hin | Hnin].
  - rewrite bool_decide_eq_true_2 by exact Hin.
    destruct (cleanupFiles_left refused filePaths fs q Hin) as [Hn | (fs0 & _ & R)];
      [exact Hn|].
    rewrite (Hfree fs0 q Hin) in R. discriminate R.
  - rewrite bool_decide_eq_false_2 by exact Hnin.
    exact (proj2 (cleanupFiles_lookup refused filePaths fs q) Hnin).
Qed.

(** X21: a request that is served to its end, none of its unlinks being
    refused, leaves no file of its own: the uploads, the output file and
    the temporary file are gone and every other file is as it was before
    the request. *)
Theorem served_request_cleans_up (docxMerger : list fileData -> option fileData)
    (dirname : string) (refused : gmap string fileData -> string -> bool)
    (uploaded : list string) (fs fs' : gmap string fileData) (p n : string) :
  served docxMerger dirname refused uploaded fs = (Download p n, fs') ->
  (forall fs0 q,
      q ∈ uploaded \/ q = outputPath dirname {| files := uploaded |} ->
      refused fs0 q = false) ->
  p = outputPath dirname {| files := uploaded |} /\
  forall q,
    fs' !! q =
      if bool_decide (q ∈ uploaded \/ q = p \/ q = tempOutputPathOf p) then None else fs !! q.
Proof.
  intros Hserved Hfree. revert Hserved.
  unfold served, mergeHandler.
  destruct (List.length uploaded <? 1)%nat; [discriminate|].
  set (req := {| files := uploaded |}).
  destruct (mergeDocuments_cases docxMerger (templatePath dirname req) (documentPaths req)
              (outputPath dirname req) fs)
    as [(e0 & He)|(buffers & mergedBuffer & _ & _ & Hc)].
  { rewrite He. discriminate. }
  rewrite Hc.
  destruct (mergeCallback _ _ _ _) as [[e1|p1] fs1] eqn:Hm; [discriminate|].
  apply mergeCallback_success in Hm.
  destruct Hm as (-> & M & T & d & _ & _ & _ & ->).
  intros [= <- <- <-]. split; [reflexivity|]. intros q.
  unfold outputCleanup, downloadCallback.
  rewrite (cleanupFiles_all refused [outputPath dirname req] _ q).
  2:{ intros fs0 x Hx. apply Hfree. right. now apply list_elem_of_singleton in Hx. }
  unfold documentPaths. simpl files.
  rewrite (cleanupFiles_all refused uploaded _ q).
  2:{ intros fs0 x Hx. apply Hfree. now left. }
  set (out := outputPath dirname req).
  destruct (decide (q = out)) as [->|Hqo].
  - rewrite (bool_decide_eq_true_2 (out ∈ [out])) by (apply list_elem_of_singleton; reflexivity).
    rewrite bool_decide_eq_true_2 by auto. reflexivity.
  - rewrite (bool_decide_eq_false_2 (q ∈ [out])) by (rewrite list_elem_of_singleton; exact Hqo).
    destruct (decide (q ∈ uploaded)) as [Hin|Hnin].
    + rewrite (bool_decide_eq_true_2 (q ∈ uploaded)) by exact Hin.
      rewrite bool_decide_eq_true_2 by auto. reflexivity.
    + rewrite (bool_decide_eq_false_2 (q ∈ uploaded)) by exact Hnin.
      rewrite lookup_insert_ne by congruence.
      destruct (decide (q = tempOutputPathOf out)) as [->|Hqt].
      * rewrite lookup_delete_eq. rewrite bool_decide_eq_true_2 by auto. reflexivity.
      * rewrite lookup_delete_ne by congruence.
        rewrite bool_decide_eq_false_2 by (intros [H|[H|H]]; contradiction). reflexivity.
Qed.

Lemma served_upload_leaves_the_template :
  let r := served handThrough "/srv/app" neverRefused ["uploads/1700000000000-1.docx"]
             uploadedFiles in
  r.1 = Download "/srv/app/uploads/merged-document.docx" "merged-document.docx" /\
  outputPath "/srv/app" {| files := ["uploads/1700000000000-1.docx"] |}
    = "/srv/app/uploads/merged-document.docx" /\
  r.2 !! "uploads/1700000000000-1.docx" = None /\
  r.2 !! "/srv/app/uploads/merged-document.docx" = None /\
  r.2 !! "/srv/app/sample/template.docx" = uploadedFiles !! "/srv/app/sample/template.docx".
Proof.
  cbv zeta.
  assert (H : served handThrough "/srv/app" neverRefused ["uploads/1700000000000-1.docx"]
                uploadedFiles
              = (Download "/srv/app/uploads/merged-document.docx" "merged-document.docx",
                 (served handThrough "/srv/app" neverRefused ["uploads/1700000000000-1.docx"]
                    uploadedFiles).2))
    by (vm_compute; reflexivity).
  destruct (served_request_cleans_up _ _ _ _ _ _ _ _ H (fun _ _ _ => eq_refl)) as [Hp Hq].
  split; [vm_compute; reflexivity|]. split; [reflexivity|].
  rewrite !Hq. repeat split; vm_compute; reflexivity.
Defined.

(** X23: the script ends with code 0 only after a merge that succeeded on at
    least one input, every input existing and ending in [.docx], and the
    template in place; a bad argument list, a bad input or a missing template
    ends it with code 1 before any file is touched. *)
Theorem main_exit_code (docxMerger : list fileData -> option fileData) (dirname : string)
    (argv : list string) (fs : gmap string fileData) :
  let templatePath := pathJoin [dirname; "sample"; "template.docx"] in
  let inputs := skipn 3 argv in
  let valid :=
    (4 <= List.length argv)%nat /\
    Forall (fun path => is_Some (fs !! path) /\ endsWith ".docx" path = true) inputs /\
    is_Some (fs !! templatePath) in
  ((main docxMerger dirname argv fs).1 = 0 \/ (main docxMerger dirname argv fs).1 = 1) /\
  ((main docxMerger dirname argv fs).1 = 0 ->
   valid /\ inputs <> [] /\
   mergeDocuments docxMerger templatePath inputs (nth 2 argv EmptyString) fs
     = (inr (nth 2 argv EmptyString), (main docxMerger dirname argv fs).2)) /\
  (~ valid -> main docxMerger dirname argv fs = (1, fs)).
Proof.
  cbv zeta. unfold main.
  destruct (List.length argv <? 4)%nat eqn:Hlen.
  { apply Nat.ltb_lt in Hlen. cbn [fst snd negb]. repeat split; auto; try discriminate. }
  apply Nat.ltb_ge in Hlen.
  destruct (inputsValid (skipn 3 argv) fs) eqn:Hv; cbn [fst snd negb].
  2:{ repeat split; auto; try discriminate. }
  pose proof (proj1 (inputsValid_spec _ _) Hv) as Hall.
  case_bool_decide as Ht; cbn [fst snd negb].
  2:{ repeat split; auto; try discriminate. }
  assert (Hne : skipn 3 argv <> []).
  { intros Hnil. apply (f_equal (@List.length string)) in Hnil.
    rewrite length_skipn in Hnil. simpl in Hnil. lia. }
  destruct (mergeDocuments _ _ _ _ _) as [[e|p] fs'] eqn:Hm; cbn [fst snd negb].
  - split; [auto|]. split; [discriminate|]. intros Hn. exfalso. apply Hn. auto.
  - split; [auto|]. split.
    + intros _. split; [auto|]. split; [exact Hne|].
      destruct (mergeDocuments_cases docxMerger (pathJoin [dirname; "sample"; "template.docx"])
                  (skipn 3 argv) (nth 2 argv EmptyString) fs)
        as [(e0 & He)|(buffers & mergedBuffer & _ & _ & Hc)];
        [rewrite Hm in He; discriminate|].
      rewrite Hm in Hc. symmetry in Hc. apply mergeCallback_success in Hc.
      destruct Hc as (-> & _). reflexivity.
    + intros Hn. exfalso. apply Hn. auto.
Qed.

(** X24: behind the validation of the script the existence checks of
    [mergeDocuments] never fire: a merge started by the script fails only
    inside docx-merger, template application or table numbering. *)
Theorem main_merge_never_misses_an_input (docxMerger : list fileData -> option fileData)
    (dirname : string) (argv : list string) (fs : gmap string fileData) (message : string) :
  (4 <= List.length argv)%nat ->
  inputsValid (skipn 3 argv) fs = true ->
  is_Some (fs !! pathJoin [dirname; "sample"; "template.docx"]) ->
  (mergeDocuments docxMerger (pathJoin [dirname; "sample"; "template.docx"])
     (skipn 3 argv) (nth 2 argv EmptyString) fs).1 <> inl (MissingInput message).
Proof.
  intros _ Hv Ht.
  apply inputsValid_spec in Hv.
  assert (Hd : Forall (fun path => is_Some (fs !! path)) (skipn 3 argv))
    by (eapply Forall_impl; [exact Hv | intros x [H _]; exact H]).
  destruct (mergeDocuments_checked docxMerger _ _ (nth 2 argv EmptyString) fs Ht Hd)
    as (buffers & _ & ->).
  destruct (docxMerger buffers) as [mergedBuffer|]; [|discriminate].
  destruct (mergeCallback _ _ _ _) as [[e|p] fs'] eqn:Hm; [|discriminate].
  apply mergeCallback_error in Hm. simpl. intros [= ->]. discriminate.
Qed.

Lemma script_run_finds_its_inputs :
  (mergeDocuments handThrough (pathJoin ["/srv/app"; "sample"; "template.docx"])
     (skipn 3 scriptArguments) (nth 2 scriptArguments EmptyString) uploadedFiles).1
  <> inl (MissingInput "Document file does not exist: uploads/1700000000000-1.docx").
Proof.
  apply main_merge_never_misses_an_input;
    [vm_compute; lia | vm_compute; reflexivity | vm_compute; eauto].
Defined.

End RouteAndScript.

Section UploadNames.

Import JS Upload.

Lemma numberToString_digits (n : nat) : allDigits (numberToString n) = true.
Proof.
  unfold numberToString. generalize (Nat.to_uint n).
  induction u; simpl; auto.
Qed.

Lemma numberToString_inj (n n' : nat) : numberToString n = numberToString n' -> n = n'.
Proof.
  unfold numberToString. intros H.
  apply (f_equal NilEmpty.uint_of_string) in H. rewrite !NilEmpty.usu in H.
  injection H as H. exact (Unsigned.to_uint_inj _ _ H).
Qed.

(** Digits in front of a text that does not begin with a digit are cut off
    from it in one way only. *)
Lemma digits_cut (a b x y : string) :
  allDigits a = true -> allDigits b = true ->
  noDigitAhead x = true -> noDigitAhead y = true ->
  a ++ x = b ++ y -> a = b /\ x = y.
Proof.
  revert b; induction a as [|c a IH]; intros b Ha Hb Hx Hy H.
  - destruct b as [|d b]; [split; [reflexivity | exact H]|].
    exfalso. simpl in H. subst x. simpl in Hb, Hx.
    apply andb_true_iff in Hb. destruct Hb as [Hd _]. rewrite Hd in Hx. discriminate.
  - destruct b as [|d b].
    + exfalso. simpl in H. subst y. simpl in Ha, Hy.
      apply andb_true_iff in Ha. destruct Ha as [Hc _]. rewrite Hc in Hy. discriminate.
    + simpl in H. injection H as -> H. simpl in Ha, Hb.
      apply andb_true_iff in Ha. apply andb_true_iff in Hb.
      destruct (IH b (proj2 Ha) (proj2 Hb) Hx Hy H) as [-> ->]. split; reflexivity.
Qed.

(** X22: two uploads are stored under the same name only if they were
    stamped in the same millisecond, drew the same random number and bring
    the same extension: the name is the two numbers and the extension, and
    none of them can pass for part of another, since an extension is empty
    or begins with a dot. *)
Theorem stored_names_collide_only_on_equal_stamps
    (now random now' random' : nat) (extension extension' : string) :
  noDigitAhead extension = true -> noDigitAhead extension' = true ->
  filename now random extension = filename now' random' extension' ->
  now = now' /\ random = random' /\ extension = extension'.
Proof.
  intros He He' H. unfold filename in H.
  destruct (digits_cut (numberToString now) (numberToString now')
              ("-" ++ numberToString random ++ extension)
              ("-" ++ numberToString random' ++ extension')
              (numberToString_digits now) (numberToString_digits now')
              eq_refl eq_refl H) as [Hn Hrest].
  simpl in Hrest. injection Hrest as Hrest.
  destruct (digits_cut _ _ _ _ (numberToString_digits random) (numberToString_digits random')
              He He' Hrest) as [Hr Hx].
  split; [exact (numberToString_inj _ _ Hn)|]. split; [exact (numberToString_inj _ _ Hr) | exact Hx].
Qed.

Lemma two_uploads_with_equal_stamps :
  filename 17 12 ".docx" = "17-12.docx" /\
  (17 = 17 /\ 12 = 12 /\ ".docx" = ".docx").
Proof.
  split; [reflexivity|].
  apply (stored_names_collide_only_on_equal_stamps 17 12 17 12 ".docx" ".docx");
    reflexivity.
Defined.

End UploadNames.
